(** * DocMine: stable identities, segmentation, knowledge store, ingestion
      and retrieval — a shallow embedding of the Python sources.

    Layout
    - [PyStr]      Python [str] values and the string methods the code calls
    - [SHA256]     [hashlib.sha256], UTF-8 encoding and [hexdigest]
    - [StableId]   docmine/models/stable_id.py
    - [Models]     docmine/models/*.py and extraction/base_extractor.py
    - [Segmenter]  docmine/ingest/segmenter.py
    - [Store]      docmine/storage/knowledge_store.py
    - [Recall]     docmine/search/exact_recall.py
    - [Pipeline]   docmine/ingest/knowledge_pipeline.py, docmine/kos_pipeline.py
    The theorems follow the definitions, module by module. *)

From Stdlib Require Import ZArith NArith List Bool Lia String Ascii.
From Stdlib Require Import Permutation Sorted Floats DecimalString.
Import ListNotations.

(* ===================================================================== *)
(** ** Python strings *)
(* ===================================================================== *)

Module PyStr.

(** A Python [str] is a sequence of Unicode code points.  Text read from
    files through the UTF-8 codec only holds Unicode scalar values. *)
Definition char := N.
Definition pystr := list char.

Definition lit (s : string) : pystr :=
  List.map N_of_ascii (list_ascii_of_string s).

Definition char_eqb : char -> char -> bool := N.eqb.

Fixpoint str_eqb (a b : pystr) : bool :=
  match a, b with
  | [], [] => true
  | x :: a', y :: b' => char_eqb x y && str_eqb a' b'
  | _, _ => false
  end.

Definition between (lo hi c : N) : bool := (N.leb lo c && N.leb c hi)%bool.

(** [Py_UNICODE_ISSPACE]: the characters [str.strip], [str.split] and the
    regex class [\s] treat as whitespace. *)
Definition isspace (c : char) : bool :=
  (between 9 13 c || between 28 32 c || N.eqb c 133 || N.eqb c 160
   || N.eqb c 5760 || between 8192 8202 c || N.eqb c 8232 || N.eqb c 8233
   || N.eqb c 8239 || N.eqb c 8287 || N.eqb c 12288)%bool.

Definition space : char := 32%N.

(** [s.lstrip()], [s.rstrip()], [s.strip()] *)
Fixpoint lstrip (s : pystr) : pystr :=
  match s with
  | [] => []
  | c :: s' => if isspace c then lstrip s' else s
  end.

Fixpoint rstrip (s : pystr) : pystr :=
  match s with
  | [] => []
  | c :: s' =>
      match rstrip s' with
      | [] => if isspace c then [] else [c]
      | r => c :: r
      end
  end.

Definition strip (s : pystr) : pystr := rstrip (lstrip s).

(** [s.split()]: maximal runs of non-whitespace characters.  [cur] holds
    the word being read, most recent character first. *)
Definition flush (cur : pystr) (k : list pystr) : list pystr :=
  match cur with
  | [] => k
  | _ => rev cur :: k
  end.

Fixpoint split_from (cur : pystr) (s : pystr) : list pystr :=
  match s with
  | [] => flush cur []
  | c :: s' =>
      if isspace c then flush cur (split_from [] s')
      else split_from (c :: cur) s'
  end.

Definition split (s : pystr) : list pystr := split_from [] s.

(** [sep.join(parts)] *)
Fixpoint join (sep : pystr) (parts : list pystr) : pystr :=
  match parts with
  | [] => []
  | [x] => x
  | x :: rest => x ++ sep ++ join sep rest
  end.

(** [s.split(sep)] for a one-character separator: always at least one
    piece, empty pieces are kept. *)
Fixpoint split_on (sep : char) (s : pystr) : list pystr :=
  match s with
  | [] => [[]]
  | c :: s' =>
      if char_eqb c sep then [] :: split_on sep s'
      else match split_on sep s' with
           | [] => [[c]]
           | p :: ps => (c :: p) :: ps
           end
  end.

(** [s.lstrip(ch)] for a single character. *)
Fixpoint lstrip_char (ch : char) (s : pystr) : pystr :=
  match s with
  | [] => []
  | c :: s' => if char_eqb c ch then lstrip_char ch s' else s
  end.

Definition startswith_char (ch : char) (s : pystr) : bool :=
  match s with
  | c :: _ => char_eqb c ch
  | [] => false
  end.

(** Truthiness of a string: non-empty. *)
Definition truthy (s : pystr) : bool :=
  match s with [] => false | _ => true end.

(** [str(n)] for an [int]. *)
Definition str_of_Z (n : Z) : pystr :=
  lit (DecimalString.NilZero.string_of_int (Z.to_int n)).

(** A word: non-empty and free of whitespace. *)
Definition is_word (w : pystr) : Prop :=
  w <> [] /\ Forall (fun c => isspace c = false) w.

End PyStr.

(* ===================================================================== *)
(** ** hashlib.sha256, str.encode('utf-8'), hexdigest *)
(* ===================================================================== *)

Module SHA256.
Import PyStr.
Local Open Scope Z_scope.

(** A byte is an integer in [0, 256); a word is a 32-bit integer with its
    wrap-around written out. *)
Definition byte := Z.
Definition bytes := list byte.

Definition wrap32 (x : Z) : Z := Z.land x 0xFFFFFFFF.
Definition add32 (a b : Z) : Z := wrap32 (a + b).
Definition rotr (n x : Z) : Z :=
  Z.lor (Z.shiftr x n) (wrap32 (Z.shiftl x (32 - n))).

Definition Ch (x y z : Z) : Z :=
  Z.lxor (Z.land x y) (Z.land (wrap32 (Z.lnot x)) z).
Definition Maj (x y z : Z) : Z :=
  Z.lxor (Z.land x y) (Z.lxor (Z.land x z) (Z.land y z)).
Definition bsig0 (x : Z) : Z := Z.lxor (rotr 2 x) (Z.lxor (rotr 13 x) (rotr 22 x)).
Definition bsig1 (x : Z) : Z := Z.lxor (rotr 6 x) (Z.lxor (rotr 11 x) (rotr 25 x)).
Definition ssig0 (x : Z) : Z := Z.lxor (rotr 7 x) (Z.lxor (rotr 18 x) (Z.shiftr x 3)).
Definition ssig1 (x : Z) : Z := Z.lxor (rotr 17 x) (Z.lxor (rotr 19 x) (Z.shiftr x 10)).

(** The round constants are the first 32 bits of the fractional parts of
    the cube roots of the first 64 primes; the initial hash value takes
    the square roots of the first 8 primes. *)
Definition is_prime (n : nat) : bool :=
  forallb (fun d => negb (Nat.eqb (Nat.modulo n d) 0)) (seq 2 (n - 2)).

Definition primes64 : list Z :=
  List.map Z.of_nat (filter is_prime (seq 2 310)).

Definition iroot_step (k n r : Z) (bit : nat) : Z :=
  let c := Z.lor r (Z.shiftl 1 (Z.of_nat bit)) in
  if c ^ k <=? n then c else r.

(** Integer [k]-th root, bit by bit from the top. *)
Definition iroot (k n : Z) : Z :=
  fold_left (iroot_step k n) (rev (seq 0 40)) 0.

Definition frac_root_bits (k p : Z) : Z :=
  wrap32 (iroot k (Z.shiftl p (32 * k))).

Definition K : list Z :=
  Eval vm_compute in List.map (frac_root_bits 3) primes64.

Record regs := Regs
  { ra : Z; rb : Z; rc : Z; rd : Z; re : Z; rf : Z; rg : Z; rh : Z }.

Definition regs_of_list (l : list Z) : regs :=
  Regs (nth 0 l 0) (nth 1 l 0) (nth 2 l 0) (nth 3 l 0)
       (nth 4 l 0) (nth 5 l 0) (nth 6 l 0) (nth 7 l 0).

Definition H0 : regs :=
  Eval vm_compute in
    regs_of_list (List.map (frac_root_bits 2) (firstn 8 primes64)).

(** Big-endian packing of the 64-byte block into sixteen words. *)
Fixpoint words_of_block (b : bytes) : list Z :=
  match b with
  | b0 :: b1 :: b2 :: b3 :: rest =>
      (Z.lor (Z.shiftl b0 24) (Z.lor (Z.shiftl b1 16) (Z.lor (Z.shiftl b2 8) b3)))
        :: words_of_block rest
  | _ => []
  end.

(** Message schedule: [w16] is the window W[t-16 .. t-1]. *)
Fixpoint extend (n : nat) (w16 : list Z) : list Z :=
  match n with
  | O => []
  | S n' =>
      let x := add32 (add32 (ssig1 (nth 14 w16 0)) (nth 9 w16 0))
                     (add32 (ssig0 (nth 1 w16 0)) (nth 0 w16 0)) in
      x :: extend n' (tl w16 ++ [x])
  end.

Definition schedule (w16 : list Z) : list Z := w16 ++ extend 48 w16.

Definition round (s : regs) (kw : Z * Z) : regs :=
  let (k, w) := kw in
  let t1 := add32 (add32 (add32 (rh s) (bsig1 (re s)))
                         (add32 (Ch (re s) (rf s) (rg s)) k)) w in
  let t2 := add32 (bsig0 (ra s)) (Maj (ra s) (rb s) (rc s)) in
  Regs (add32 t1 t2) (ra s) (rb s) (rc s) (add32 (rd s) t1) (re s) (rf s) (rg s).

Definition compress (h : regs) (block : bytes) : regs :=
  let w := schedule (words_of_block block) in
  let s := fold_left round (combine K w) h in
  Regs (add32 (ra h) (ra s)) (add32 (rb h) (rb s)) (add32 (rc h) (rc s))
       (add32 (rd h) (rd s)) (add32 (re h) (re s)) (add32 (rf h) (rf s))
       (add32 (rg h) (rg s)) (add32 (rh h) (rh s)).

Definition be_bytes (n : nat) (x : Z) : bytes :=
  List.map (fun i => Z.land (Z.shiftr x (8 * Z.of_nat i)) 0xFF) (rev (seq 0 n)).

Definition pad (msg : bytes) : bytes :=
  let len := Z.of_nat (List.length msg) in
  msg ++ [0x80] ++ repeat 0 (Z.to_nat ((55 - len) mod 64)) ++ be_bytes 8 (8 * len).

Fixpoint blocks (n : nat) (b : bytes) : list bytes :=
  match n with
  | O => []
  | S n' => firstn 64 b :: blocks n' (skipn 64 b)
  end.

Definition digest_regs (msg : bytes) : regs :=
  let p := pad msg in
  fold_left compress (blocks (List.length p / 64)%nat p) H0.

(** [hashlib.sha256(msg).digest()] *)
Definition sha256 (msg : bytes) : bytes :=
  let s := digest_regs msg in
  be_bytes 4 (ra s) ++ be_bytes 4 (rb s) ++ be_bytes 4 (rc s) ++ be_bytes 4 (rd s)
  ++ be_bytes 4 (re s) ++ be_bytes 4 (rf s) ++ be_bytes 4 (rg s) ++ be_bytes 4 (rh s).

Definition hex_digit (d : Z) : char :=
  Z.to_N (if d <? 10 then 48 + d else 87 + d).

(** [bytes.hex()]: two lowercase hexadecimal digits per byte. *)
Definition hex (b : bytes) : pystr :=
  flat_map (fun x => [hex_digit (Z.shiftr x 4); hex_digit (Z.land x 0xF)]) b.

(** [hashlib.sha256(msg).hexdigest()] *)
Definition hexdigest (msg : bytes) : pystr := hex (sha256 msg).

(** [s.encode('utf-8')] *)
Definition utf8_char (c : char) : bytes :=
  let z := Z.of_N c in
  let cont (sh : Z) := Z.lor 0x80 (Z.land (Z.shiftr z sh) 0x3F) in
  if z <? 0x80 then [z]
  else if z <? 0x800 then [Z.lor 0xC0 (Z.shiftr z 6); cont 0]
  else if z <? 0x10000 then [Z.lor 0xE0 (Z.shiftr z 12); cont 6; cont 0]
  else [Z.lor 0xF0 (Z.shiftr z 18); cont 12; cont 6; cont 0].

Definition utf8_encode (s : pystr) : bytes := flat_map utf8_char s.


End SHA256.

(* ===================================================================== *)
(** ** docmine/models/stable_id.py *)
(* ===================================================================== *)

Module StableId.
Import PyStr SHA256.

(** [normalize_text]: [" ".join(text.strip().split())] *)
Definition normalize_text (text : pystr) : pystr :=
  join [space] (split (strip text)).

(** [generate_segment_id]: the f-string
    [f"{namespace}|{source_uri}|{provenance_key}|{normalized}"], encoded
    as UTF-8, hashed, rendered with [hexdigest]. *)
Definition generate_segment_id
    (namespace source_uri provenance_key text : pystr) : pystr :=
  let normalized := normalize_text text in
  let components :=
    namespace ++ lit "|" ++ source_uri ++ lit "|" ++ provenance_key
              ++ lit "|" ++ normalized in
  hexdigest (utf8_encode components).

(** [generate_text_hash] *)
Definition generate_text_hash (text : pystr) : pystr :=
  let normalized := normalize_text text in
  hexdigest (utf8_encode normalized).

(** [generate_content_hash] *)
Definition generate_content_hash (content : bytes) : pystr :=
  hexdigest content.


End StableId.

(* ===================================================================== *)
(** ** docmine/models and docmine/extraction/base_extractor.py *)
(* ===================================================================== *)

Module Models.
Import PyStr.

(** Exceptions the modelled code can raise. *)
Inductive exn :=
| ValueError (msg : pystr)
| FileNotFoundError (path : pystr)
| UnicodeDecodeError
| ConstraintException (table : pystr).

Inductive result (A : Type) :=
| Ok (a : A)
| Raise (e : exn).
Arguments Ok {A} a.
Arguments Raise {A} e.

(** [datetime] values: microseconds since the epoch. *)
Definition datetime := Z.

(** A JSON object with string values, in insertion order. *)
Definition json_dict := list (pystr * pystr).

(** [d.update(other)]: existing keys keep their position and take the
    new value, new keys are appended. *)
Fixpoint dict_set (d : json_dict) (k v : pystr) : json_dict :=
  match d with
  | [] => [(k, v)]
  | (k', v') :: d' =>
      if str_eqb k' k then (k', v) :: d' else (k', v') :: dict_set d' k v
  end.

Definition dict_update (d other : json_dict) : json_dict :=
  fold_left (fun acc kv => dict_set acc (fst kv) (snd kv)) other d.

Record InformationResource := mkIR
  { ir_id_of : pystr;
    ir_namespace : pystr;
    ir_source_type : pystr;
    ir_source_uri : pystr;
    ir_content_hash : pystr;
    ir_metadata : json_dict;
    ir_created_at : datetime;
    ir_updated_at : datetime }.

(** The three shapes of provenance dictionaries the segmenter builds. *)
Inductive Provenance :=
| ProvPage (page sentence sentence_count : Z)
| ProvHeading (heading_path : pystr) (para sentence sentence_count : Z)
| ProvFlat (sentence sentence_count : Z).

Record ResourceSegment := mkSegment
  { seg_id : pystr;
    seg_ir_id : pystr;
    segment_index : Z;
    seg_text : pystr;
    seg_provenance : Provenance;
    seg_text_hash : pystr;
    seg_created_at : datetime }.

Record Entity := mkEntity
  { ent_id : pystr;
    ent_namespace : pystr;
    ent_type : pystr;
    ent_name : pystr;
    ent_aliases : list pystr;
    ent_metadata : json_dict;
    ent_created_at : datetime;
    ent_updated_at : datetime }.

Record EntityLink := mkLink
  { link_segment_id : pystr;
    link_entity_id : pystr;
    link_type : pystr;
    link_confidence : float;
    link_created_at : datetime }.

Record ExtractedEntity := mkExtracted
  { ext_type : pystr;
    ext_name : pystr;
    ext_aliases : list pystr;
    ext_confidence : float;
    ext_metadata : json_dict }.

Definition confidence_error : exn :=
  ValueError (lit "Confidence must be between 0.0 and 1.0").

(** [EntityLink(...)]: the dataclass constructor followed by
    [__post_init__].  [now] is what [datetime.utcnow()] returns. *)
Definition new_EntityLink (now : datetime)
    (segment_id entity_id link_type : pystr) (confidence : float)
    (created_at : option datetime) : result EntityLink :=
  let created_at :=
    match created_at with None => now | Some t => t end in
  if negb ((0 <=? confidence)%float && (confidence <=? 1)%float)
  then Raise confidence_error
  else Ok (mkLink segment_id entity_id link_type confidence created_at).

(** [ExtractedEntity(...)] with its [__post_init__]. *)
Definition new_ExtractedEntity
    (type name : pystr) (aliases : list pystr) (confidence : float)
    (metadata : json_dict) : result ExtractedEntity :=
  if negb ((0 <=? confidence)%float && (confidence <=? 1)%float)
  then Raise confidence_error
  else Ok (mkExtracted type name aliases confidence metadata).

(** The other dataclasses: [__post_init__] fills missing timestamps. *)
Definition new_InformationResource (now1 now2 : datetime)
    (id namespace source_type source_uri content_hash : pystr)
    (metadata : json_dict) : InformationResource :=
  mkIR id namespace source_type source_uri content_hash metadata now1 now2.

Definition new_ResourceSegment (now : datetime)
    (id ir_id : pystr) (index : Z) (text : pystr) (prov : Provenance)
    (text_hash : pystr) : ResourceSegment :=
  mkSegment id ir_id index text prov text_hash now.

Definition new_Entity (now1 now2 : datetime)
    (id namespace type name : pystr) (aliases : list pystr)
    (metadata : json_dict) : Entity :=
  mkEntity id namespace type name aliases metadata now1 now2.

End Models.

(* ===================================================================== *)
(** ** docmine/ingest/segmenter.py *)
(* ===================================================================== *)

Module Segmenter.
Import PyStr StableId Models.
Local Open Scope Z_scope.

Definition is_terminator (c : char) : bool :=
  (N.eqb c 46 || N.eqb c 33 || N.eqb c 63)%bool.

Definition is_upper (c : char) : bool := between 65 90 c.

(** [re.split(r'(?<=[.!?])\s+(?=[A-Z])', text)].  A separator is a
    maximal whitespace run that directly follows one of [.!?] and is
    directly followed by a capital letter.  [cur] is the piece being read
    and [pending] a whitespace run that may still turn out to be a
    separator, both most recent character first. *)
Fixpoint re_split_from (cur pending s : pystr) : list pystr :=
  match s with
  | [] => [rev (pending ++ cur)]
  | c :: s' =>
      match pending with
      | [] =>
          if (isspace c
              && match cur with p :: _ => is_terminator p | [] => false end)%bool
          then re_split_from cur [c] s'
          else re_split_from (c :: cur) [] s'
      | _ :: _ =>
          if isspace c then re_split_from cur (c :: pending) s'
          else if is_upper c then rev cur :: re_split_from [c] [] s'
          else re_split_from (c :: pending ++ cur) [] s'
      end
  end.

Definition re_split_sentences (text : pystr) : list pystr :=
  re_split_from [] [] text.

(** [DeterministicSegmenter._split_sentences] *)
Definition _split_sentences (text : pystr) : list pystr :=
  let sentences := re_split_sentences text in
  let sentences :=
    List.map strip (filter (fun s => truthy (strip s)) sentences) in
  filter (fun s => (20 <=? List.length s)%nat) sentences.

(** [range(0, stop, step)] *)
Definition py_range_step (stop step : Z) : result (list Z) :=
  if step =? 0 then Raise (ValueError (lit "range() arg 3 must not be zero"))
  else if step <? 0 then Ok []
  else Ok (List.map (fun k => Z.of_nat k * step)
                    (seq 0 (Z.to_nat ((stop + step - 1) / step)))).

Section WithConfig.

(** [self.sentences_per_segment], and the clock: [clk k] is what
    [datetime.utcnow()] returns in the [k]-th [ResourceSegment]
    constructed by the current call. *)
Variable sentences_per_segment : Z.
Variable clk : nat -> datetime.

(** [for sent_idx in range(0, len(sentences), n)] with
    [batch = sentences[sent_idx:sent_idx + n]] *)
Definition batches (sentences : list pystr) : result (list (Z * list pystr)) :=
  match py_range_step (Z.of_nat (List.length sentences)) sentences_per_segment with
  | Raise e => Raise e
  | Ok idxs =>
      Ok (List.map
            (fun i => (i, firstn (Z.to_nat sentences_per_segment)
                                 (skipn (Z.to_nat i) sentences)))
            idxs)
  end.

Definition page := (Z * pystr)%type.

(** Body of the inner loop of [segment_pages]. *)
Definition pages_batch_step (namespace source_uri ir_id : pystr) (page_num : Z)
    (acc : list ResourceSegment * Z) (ib : Z * list pystr)
    : list ResourceSegment * Z :=
  let '(all_segments, global_index) := acc in
  let '(sent_idx, batch) := ib in
  let segment_text := join [space] batch in
  if negb (truthy (strip segment_text)) then acc
  else
    let provenance := ProvPage page_num sent_idx (Z.of_nat (List.length batch)) in
    let provenance_key := str_of_Z page_num ++ lit ":" ++ str_of_Z sent_idx in
    let segment_id :=
      generate_segment_id namespace source_uri provenance_key segment_text in
    let segment :=
      new_ResourceSegment (clk (List.length all_segments)) segment_id ir_id
        global_index segment_text provenance (generate_text_hash segment_text) in
    (all_segments ++ [segment], global_index + 1).

Fixpoint segment_pages_loop (namespace source_uri ir_id : pystr)
    (pages : list page) (acc : list ResourceSegment * Z)
    : result (list ResourceSegment * Z) :=
  match pages with
  | [] => Ok acc
  | (page_num, text) :: rest =>
      let sentences := _split_sentences text in
      match sentences with
      | [] => segment_pages_loop namespace source_uri ir_id rest acc
      | _ :: _ =>
          match batches sentences with
          | Raise e => Raise e
          | Ok bs =>
              segment_pages_loop namespace source_uri ir_id rest
                (fold_left (pages_batch_step namespace source_uri ir_id page_num)
                           bs acc)
          end
      end
  end.

(** [DeterministicSegmenter.segment_pages] *)
Definition segment_pages (pages : list page)
    (ir_id namespace source_uri : pystr) : result (list ResourceSegment) :=
  match segment_pages_loop namespace source_uri ir_id pages ([], 0) with
  | Raise e => Raise e
  | Ok (all_segments, _) => Ok all_segments
  end.

(** Body of the loop of [_segment_paragraph]; [built] counts the segments
    constructed before this paragraph. *)
Definition paragraph_step (heading : pystr) (para_index : Z)
    (ir_id namespace source_uri : pystr) (start_index : Z) (built : nat)
    (segments : list ResourceSegment) (ib : Z * list pystr)
    : list ResourceSegment :=
  let '(sent_idx, batch) := ib in
  let segment_text := join [space] batch in
  if negb (truthy (strip segment_text)) then segments
  else
    let provenance :=
      ProvHeading heading para_index sent_idx (Z.of_nat (List.length batch)) in
    let provenance_key :=
      heading ++ lit ":" ++ str_of_Z para_index ++ lit ":" ++ str_of_Z sent_idx in
    let segment_id :=
      generate_segment_id namespace source_uri provenance_key segment_text in
    let segment :=
      new_ResourceSegment (clk (built + List.length segments)) segment_id ir_id
        (start_index + Z.of_nat (List.length segments)) segment_text provenance
        (generate_text_hash segment_text) in
    segments ++ [segment].

(** [DeterministicSegmenter._segment_paragraph] *)
Definition _segment_paragraph (para_lines : list pystr) (heading : pystr)
    (para_index : Z) (ir_id namespace source_uri : pystr) (start_index : Z)
    (built : nat) : result (list ResourceSegment) :=
  let text := join [space] para_lines in
  let sentences := _split_sentences text in
  match batches sentences with
  | Raise e => Raise e
  | Ok bs =>
      Ok (fold_left
            (paragraph_step heading para_index ir_id namespace source_uri
                            start_index built)
            bs [])
  end.

(** The local variables of [segment_markdown]. *)
Record md_state := mkMd
  { md_segments : list ResourceSegment;
    md_global_index : Z;
    md_current_heading : pystr;
    md_current_para : list pystr;
    md_para_index : Z }.

Definition hash_sign : char := 35%N.
Definition newline : char := 10%N.

(** One iteration of [for line in lines] in [segment_markdown]. *)
Definition markdown_line (ir_id namespace source_uri : pystr)
    (st : md_state) (line : pystr) : result md_state :=
  if startswith_char hash_sign line then
    match md_current_para st with
    | _ :: _ =>
        match _segment_paragraph (md_current_para st) (md_current_heading st)
                (md_para_index st) ir_id namespace source_uri
                (md_global_index st) (List.length (md_segments st)) with
        | Raise e => Raise e
        | Ok new_segments =>
            let segments := md_segments st ++ new_segments in
            Ok (mkMd segments
                     (md_global_index st + Z.of_nat (List.length segments))
                     (strip (lstrip_char hash_sign line))
                     []
                     (md_para_index st + 1))
        end
    | [] =>
        Ok (mkMd (md_segments st) (md_global_index st)
                 (strip (lstrip_char hash_sign line))
                 (md_current_para st) (md_para_index st))
    end
  else if truthy (strip line) then
    Ok (mkMd (md_segments st) (md_global_index st) (md_current_heading st)
             (md_current_para st ++ [line]) (md_para_index st))
  else Ok st.

Fixpoint markdown_lines (ir_id namespace source_uri : pystr)
    (lines : list pystr) (st : md_state) : result md_state :=
  match lines with
  | [] => Ok st
  | line :: rest =>
      match markdown_line ir_id namespace source_uri st line with
      | Raise e => Raise e
      | Ok st' => markdown_lines ir_id namespace source_uri rest st'
      end
  end.

(** [DeterministicSegmenter.segment_markdown] *)
Definition segment_markdown (text : pystr)
    (ir_id namespace source_uri : pystr) : result (list ResourceSegment) :=
  let lines := split_on newline text in
  match markdown_lines ir_id namespace source_uri lines
          (mkMd [] 0 (lit "root") [] 0) with
  | Raise e => Raise e
  | Ok st =>
      match md_current_para st with
      | _ :: _ =>
          match _segment_paragraph (md_current_para st) (md_current_heading st)
                  (md_para_index st) ir_id namespace source_uri
                  (md_global_index st) (List.length (md_segments st)) with
          | Raise e => Raise e
          | Ok new_segments => Ok (md_segments st ++ new_segments)
          end
      | [] => Ok (md_segments st)
      end
  end.

(** Body of the loop of [segment_text]. *)
Definition text_step (ir_id namespace source_uri : pystr)
    (segments : list ResourceSegment) (ib : Z * list pystr)
    : list ResourceSegment :=
  let '(sent_idx, batch) := ib in
  let segment_text := join [space] batch in
  if negb (truthy (strip segment_text)) then segments
  else
    let provenance := ProvFlat sent_idx (Z.of_nat (List.length batch)) in
    let provenance_key := str_of_Z sent_idx in
    let segment_id :=
      generate_segment_id namespace source_uri provenance_key segment_text in
    let segment :=
      new_ResourceSegment (clk (List.length segments)) segment_id ir_id
        (Z.of_nat (List.length segments)) segment_text provenance
        (generate_text_hash segment_text) in
    segments ++ [segment].

(** [DeterministicSegmenter.segment_text] *)
Definition segment_text (text : pystr)
    (ir_id namespace source_uri : pystr) : result (list ResourceSegment) :=
  let sentences := _split_sentences text in
  match batches sentences with
  | Raise e => Raise e
  | Ok bs => Ok (fold_left (text_step ir_id namespace source_uri) bs [])
  end.

End WithConfig.





End Segmenter.

(* ===================================================================== *)
(** ** docmine/storage/knowledge_store.py *)
(* ===================================================================== *)

Module Store.
Import PyStr Models.
Local Open Scope Z_scope.

Record Embedding := mkEmbedding
  { emb_segment_id : pystr;
    emb_model : pystr;
    emb_vector : list float;
    emb_created_at : datetime }.

(** The five tables, each a list of rows in insertion order. *)
Record store := mkStore
  { information_resources : list InformationResource;
    resource_segments : list ResourceSegment;
    entities : list Entity;
    segment_entity_links : list EntityLink;
    embeddings : list Embedding }.

Definition empty_store : store := mkStore [] [] [] [] [].

(** The write statements the store sends to the database. *)
Inductive sql_write :=
| InsertIR (id : pystr)
| UpdateIR (id : pystr)
| InsertSegment (id : pystr)
| UpdateSegment (id : pystr)
| InsertEntity (id : pystr)
| UpdateEntity (id : pystr)
| ReplaceLink (segment_id entity_id link_type : pystr)
| ReplaceEmbedding (segment_id : pystr).

Definition is_segment_write (q : sql_write) : bool :=
  match q with
  | InsertSegment _ | UpdateSegment _ => true
  | _ => false
  end.

Definition is_ir_write (q : sql_write) : bool :=
  match q with
  | InsertIR _ | UpdateIR _ => true
  | _ => false
  end.

(** What the process can observe besides the database: the clock and the
    UUID generator are read through a counter, [tick]; [writes] logs the
    statements issued, most recent first. *)
Record world := mkWorld
  { db : store;
    tick : nat;
    writes : list sql_write }.

(** The collaborators of the core. *)
Record env := mkEnv
  { clock : nat -> datetime;
    uuid4 : nat -> pystr;
    fs_read : pystr -> option SHA256.bytes;
    path_absolute : pystr -> pystr;
    path_suffix_lower : pystr -> pystr;
    decode_text : SHA256.bytes -> option pystr;
    fitz_pages : SHA256.bytes -> option (list pystr);
    entity_extractor : pystr -> list ExtractedEntity;
    encode : list pystr -> list (list float);
    sentences_per_segment : Z;
    default_namespace : pystr;
    embedding_model_name : pystr }.

(** State and exceptions: a computation returns a value or raises, and in
    both cases leaves a world behind. *)
Definition M (A : Type) : Type := world -> result A * world.

Definition ret {A : Type} (a : A) : M A := fun w => (Ok a, w).

Definition raise {A : Type} (e : exn) : M A := fun w => (Raise e, w).

Definition bind {A B : Type} (m : M A) (k : A -> M B) : M B :=
  fun w =>
    match m w with
    | (Ok a, w') => k a w'
    | (Raise e, w') => (Raise e, w')
    end.

Notation "x <- m ;; k" := (bind m (fun x => k))
  (at level 61, m at next level, right associativity).
Notation "m ;;; k" := (bind m (fun _ => k))
  (at level 61, right associativity).

Definition get_db : M store := fun w => (Ok (db w), w).

Definition set_db (s : store) : M unit :=
  fun w => (Ok tt, mkWorld s (tick w) (writes w)).

Definition issue (q : sql_write) : M unit :=
  fun w => (Ok tt, mkWorld (db w) (tick w) (q :: writes w)).

Definition lift {A : Type} (r : result A) : M A :=
  match r with
  | Ok a => ret a
  | Raise e => raise e
  end.

Fixpoint mapM {A B : Type} (f : A -> M B) (l : list A) : M (list B) :=
  match l with
  | [] => ret []
  | a :: l' => b <- f a ;; bs <- mapM f l' ;; ret (b :: bs)
  end.

Section WithEnv.
Variable E : env.

(** [datetime.utcnow()] and [str(uuid.uuid4())] *)
Definition utcnow : M datetime :=
  fun w => (Ok (clock E (tick w)), mkWorld (db w) (S (tick w)) (writes w)).

Definition new_uuid : M pystr :=
  fun w => (Ok (uuid4 E (tick w)), mkWorld (db w) (S (tick w)) (writes w)).

(** *** InformationResource operations *)

Definition get_ir_by_id (s : store) (ir_id : pystr) : option InformationResource :=
  find (fun r => str_eqb (ir_id_of r) ir_id) (information_resources s).

Definition get_ir_by_uri (s : store) (namespace source_uri : pystr)
    : option InformationResource :=
  find (fun r => (str_eqb (ir_namespace r) namespace
                  && str_eqb (ir_source_uri r) source_uri)%bool)
       (information_resources s).

Definition set_irs (s : store) (l : list InformationResource) : store :=
  mkStore l (resource_segments s) (entities s) (segment_entity_links s)
          (embeddings s).

(** [INSERT INTO information_resources]: primary key [id],
    [UNIQUE(namespace, source_uri)]. *)
Definition insert_ir (ir : InformationResource) : M unit :=
  issue (InsertIR (ir_id_of ir)) ;;;
  s <- get_db ;;
  if existsb (fun r => (str_eqb (ir_id_of r) (ir_id_of ir)
                        || (str_eqb (ir_namespace r) (ir_namespace ir)
                            && str_eqb (ir_source_uri r) (ir_source_uri ir)))%bool)
             (information_resources s)
  then raise (ConstraintException (lit "information_resources"))
  else set_db (set_irs s (information_resources s ++ [ir])).

(** [UPDATE information_resources SET content_hash, metadata_json,
    updated_at WHERE id = ?] *)
Definition update_ir (id content_hash : pystr) (metadata : json_dict)
    (updated_at : datetime) : M unit :=
  issue (UpdateIR id) ;;;
  s <- get_db ;;
  set_db (set_irs s
    (List.map (fun r =>
       if str_eqb (ir_id_of r) id
       then mkIR (ir_id_of r) (ir_namespace r) (ir_source_type r)
                 (ir_source_uri r) content_hash metadata
                 (ir_created_at r) updated_at
       else r)
     (information_resources s))).

(** [KnowledgeStore.upsert_information_resource] *)
Definition upsert_information_resource (ir : InformationResource)
    : M InformationResource :=
  s <- get_db ;;
  match get_ir_by_uri s (ir_namespace ir) (ir_source_uri ir) with
  | Some existing =>
      now <- utcnow ;;
      update_ir (ir_id_of existing) (ir_content_hash ir) (ir_metadata ir) now ;;;
      ret (mkIR (ir_id_of existing) (ir_namespace ir) (ir_source_type ir)
                (ir_source_uri ir) (ir_content_hash ir) (ir_metadata ir)
                (ir_created_at existing) now)
  | None =>
      insert_ir ir ;;; ret ir
  end.

(** [if namespace:] — [None] and the empty string both mean no filter. *)
Definition namespace_filter (namespace : option pystr) : option pystr :=
  match namespace with
  | Some ns => if truthy ns then Some ns else None
  | None => None
  end.

(** Stable insertion sort on a key; [before a b] says [a] may precede
    [b]. *)
Fixpoint insert_sorted {A : Type} (before : A -> A -> bool) (x : A)
    (l : list A) : list A :=
  match l with
  | [] => [x]
  | y :: l' => if before x y then x :: l else y :: insert_sorted before x l'
  end.

Definition sort_by {A : Type} (before : A -> A -> bool) (l : list A) : list A :=
  fold_right (insert_sorted before) [] l.

(** [KnowledgeStore.list_irs]: [ORDER BY created_at DESC]. *)
Definition list_irs (s : store) (namespace : option pystr)
    : list InformationResource :=
  let rows :=
    match namespace_filter namespace with
    | Some ns => filter (fun r => str_eqb (ir_namespace r) ns)
                        (information_resources s)
    | None => information_resources s
    end in
  sort_by (fun a b => ir_created_at b <=? ir_created_at a) rows.

(** *** ResourceSegment operations *)

Definition get_segment_by_id (s : store) (segment_id : pystr)
    : option ResourceSegment :=
  find (fun r => str_eqb (seg_id r) segment_id) (resource_segments s).

Definition set_segments (s : store) (l : list ResourceSegment) : store :=
  mkStore (information_resources s) l (entities s) (segment_entity_links s)
          (embeddings s).

(** [INSERT INTO resource_segments]: primary key [id]. *)
Definition insert_segment (seg : ResourceSegment) : M unit :=
  issue (InsertSegment (seg_id seg)) ;;;
  s <- get_db ;;
  if existsb (fun r => str_eqb (seg_id r) (seg_id seg)) (resource_segments s)
  then raise (ConstraintException (lit "resource_segments"))
  else set_db (set_segments s (resource_segments s ++ [seg])).

(** [UPDATE resource_segments SET text, provenance_json, text_hash
    WHERE id = ?] *)
Definition update_segment (seg : ResourceSegment) : M unit :=
  issue (UpdateSegment (seg_id seg)) ;;;
  s <- get_db ;;
  set_db (set_segments s
    (List.map (fun r =>
       if str_eqb (seg_id r) (seg_id seg)
       then mkSegment (seg_id r) (seg_ir_id r) (segment_index r)
                      (seg_text seg) (seg_provenance seg) (seg_text_hash seg)
                      (seg_created_at r)
       else r)
     (resource_segments s))).

(** [KnowledgeStore.upsert_segment] *)
Definition upsert_segment (segment : ResourceSegment) : M ResourceSegment :=
  s <- get_db ;;
  match get_segment_by_id s (seg_id segment) with
  | Some existing =>
      update_segment segment ;;;
      ret (mkSegment (seg_id segment) (seg_ir_id segment)
                     (segment_index segment) (seg_text segment)
                     (seg_provenance segment) (seg_text_hash segment)
                     (seg_created_at existing))
  | None =>
      insert_segment segment ;;; ret segment
  end.

(** [KnowledgeStore.bulk_upsert_segments]; the segment objects are
    updated in place, so the caller goes on with the upserted ones. *)
Definition bulk_upsert_segments (segments : list ResourceSegment)
    : M (list ResourceSegment) :=
  mapM upsert_segment segments.

(** [KnowledgeStore.get_segments_for_ir]: [ORDER BY segment_index]. *)
Definition get_segments_for_ir (s : store) (ir_id : pystr)
    : list ResourceSegment :=
  sort_by (fun a b => segment_index a <=? segment_index b)
          (filter (fun r => str_eqb (seg_ir_id r) ir_id) (resource_segments s)).

(** [a JOIN b ON on]: every pair of rows that satisfies [on]. *)
Definition join_on {A B : Type} (on : A -> B -> bool) (l : list A)
    (r : list B) : list (A * B) :=
  flat_map (fun a => List.map (pair a) (filter (on a) r)) l.

(** [KnowledgeStore.count_segments] *)
Definition count_segments (s : store) (namespace : option pystr) : nat :=
  match namespace_filter namespace with
  | Some ns =>
      List.length
        (filter (fun p => str_eqb (ir_namespace (snd p)) ns)
           (join_on (fun rs ir => str_eqb (seg_ir_id rs) (ir_id_of ir))
                    (resource_segments s) (information_resources s)))
  | None => List.length (resource_segments s)
  end.

(** *** Entity operations *)

Definition get_entity_by_id (s : store) (entity_id : pystr) : option Entity :=
  find (fun r => str_eqb (ent_id r) entity_id) (entities s).

Definition get_entity_by_name (s : store) (namespace entity_type name : pystr)
    : option Entity :=
  find (fun r => (str_eqb (ent_namespace r) namespace
                  && str_eqb (ent_type r) entity_type
                  && str_eqb (ent_name r) name)%bool)
       (entities s).

Definition set_entities (s : store) (l : list Entity) : store :=
  mkStore (information_resources s) (resource_segments s) l
          (segment_entity_links s) (embeddings s).

(** [INSERT INTO entities]: primary key [id],
    [UNIQUE(namespace, type, name)]. *)
Definition insert_entity (e : Entity) : M unit :=
  issue (InsertEntity (ent_id e)) ;;;
  s <- get_db ;;
  if existsb (fun r => (str_eqb (ent_id r) (ent_id e)
                        || (str_eqb (ent_namespace r) (ent_namespace e)
                            && str_eqb (ent_type r) (ent_type e)
                            && str_eqb (ent_name r) (ent_name e)))%bool)
             (entities s)
  then raise (ConstraintException (lit "entities"))
  else set_db (set_entities s (entities s ++ [e])).

(** [UPDATE entities SET aliases_json, metadata_json, updated_at
    WHERE id = ?] *)
Definition update_entity (id : pystr) (aliases : list pystr)
    (metadata : json_dict) (updated_at : datetime) : M unit :=
  issue (UpdateEntity id) ;;;
  s <- get_db ;;
  set_db (set_entities s
    (List.map (fun r =>
       if str_eqb (ent_id r) id
       then mkEntity (ent_id r) (ent_namespace r) (ent_type r) (ent_name r)
                     aliases metadata (ent_created_at r) updated_at
       else r)
     (entities s))).

(** [KnowledgeStore.upsert_entity] *)
Definition upsert_entity (entity : Entity) : M Entity :=
  s <- get_db ;;
  match get_entity_by_name s (ent_namespace entity) (ent_type entity)
          (ent_name entity) with
  | Some existing =>
      now <- utcnow ;;
      update_entity (ent_id existing) (ent_aliases entity)
                    (ent_metadata entity) now ;;;
      ret (mkEntity (ent_id existing) (ent_namespace entity) (ent_type entity)
                    (ent_name entity) (ent_aliases entity)
                    (ent_metadata entity) (ent_created_at existing) now)
  | None =>
      insert_entity entity ;;; ret entity
  end.

(** Lexicographic order on code points: [ORDER BY name]. *)
Fixpoint str_leb (a b : pystr) : bool :=
  match a, b with
  | [], _ => true
  | _ :: _, [] => false
  | x :: a', y :: b' =>
      if N.ltb x y then true
      else if N.ltb y x then false
      else str_leb a' b'
  end.

(** [KnowledgeStore.list_entities] *)
Definition list_entities (s : store) (namespace entity_type : option pystr)
    : list Entity :=
  let rows := entities s in
  let rows :=
    match namespace_filter namespace with
    | Some ns => filter (fun r => str_eqb (ent_namespace r) ns) rows
    | None => rows
    end in
  let rows :=
    match namespace_filter entity_type with
    | Some ty => filter (fun r => str_eqb (ent_type r) ty) rows
    | None => rows
    end in
  sort_by (fun a b => str_leb (ent_name a) (ent_name b)) rows.

(** *** EntityLink operations *)

Definition same_link_key (a b : EntityLink) : bool :=
  (str_eqb (link_segment_id a) (link_segment_id b)
   && str_eqb (link_entity_id a) (link_entity_id b)
   && str_eqb (link_type a) (link_type b))%bool.

Definition set_links (s : store) (l : list EntityLink) : store :=
  mkStore (information_resources s) (resource_segments s) (entities s) l
          (embeddings s).

(** [INSERT OR REPLACE]: a row with the same key takes the new values,
    otherwise the row is appended. *)
Definition replace_or_append {A : Type} (same : A -> A -> bool) (x : A)
    (l : list A) : list A :=
  if existsb (same x) l
  then List.map (fun r => if same x r then x else r) l
  else l ++ [x].

(** [KnowledgeStore.add_entity_link] *)
Definition add_entity_link (link : EntityLink) : M EntityLink :=
  issue (ReplaceLink (link_segment_id link) (link_entity_id link)
                     (link_type link)) ;;;
  s <- get_db ;;
  set_db (set_links s
            (replace_or_append same_link_key link (segment_entity_links s))) ;;;
  ret link.

(** [KnowledgeStore.bulk_add_entity_links] *)
Definition bulk_add_entity_links (links : list EntityLink) : M nat :=
  mapM add_entity_link links ;;; ret (List.length links).

(** The rows of [resource_segments rs JOIN segment_entity_links sel
    ON rs.id = sel.segment_id WHERE sel.entity_id = ?
    ORDER BY rs.created_at]. *)
Definition segments_for_entity_rows (s : store) (entity_id : pystr)
    : list (ResourceSegment * EntityLink) :=
  sort_by (fun a b => seg_created_at (fst a) <=? seg_created_at (fst b))
    (filter (fun p => str_eqb (link_entity_id (snd p)) entity_id)
       (join_on (fun rs sel => str_eqb (seg_id rs) (link_segment_id sel))
                (resource_segments s) (segment_entity_links s))).

Fixpoint sequence_results {A : Type} (l : list (result A)) : result (list A) :=
  match l with
  | [] => Ok []
  | Ok a :: l' =>
      match sequence_results l' with
      | Ok r => Ok (a :: r)
      | Raise e => Raise e
      end
  | Raise e :: _ => Raise e
  end.

(** [KnowledgeStore.get_segments_for_entity]: each row is turned into a
    [ResourceSegment] and an [EntityLink] built with the row's values;
    the [EntityLink] constructor validates the stored confidence.  The
    timestamps come from the row, so the clock is not read. *)
Definition get_segments_for_entity (s : store) (entity_id : pystr)
    : result (list (ResourceSegment * EntityLink)) :=
  sequence_results
    (List.map
       (fun p =>
          match new_EntityLink 0 (seg_id (fst p)) entity_id (link_type (snd p))
                  (link_confidence (snd p)) (Some (link_created_at (snd p))) with
          | Ok l => Ok (fst p, l)
          | Raise e => Raise e
          end)
       (segments_for_entity_rows s entity_id)).

(** [KnowledgeStore.get_entities_for_segment] *)
Definition get_entities_for_segment (s : store) (segment_id : pystr)
    : result (list (Entity * EntityLink)) :=
  sequence_results
    (List.map
       (fun p =>
          match new_EntityLink 0 segment_id (ent_id (fst p)) (link_type (snd p))
                  (link_confidence (snd p)) (Some (link_created_at (snd p))) with
          | Ok l => Ok (fst p, l)
          | Raise e => Raise e
          end)
       (filter (fun p => str_eqb (link_segment_id (snd p)) segment_id)
          (join_on (fun e sel => str_eqb (ent_id e) (link_entity_id sel))
                   (entities s) (segment_entity_links s)))).

(** *** Embedding operations *)

Definition set_embeddings (s : store) (l : list Embedding) : store :=
  mkStore (information_resources s) (resource_segments s) (entities s)
          (segment_entity_links s) l.

(** [KnowledgeStore.add_embedding] *)
Definition add_embedding (segment_id model : pystr) (vector : list float)
    : M unit :=
  now <- utcnow ;;
  issue (ReplaceEmbedding segment_id) ;;;
  s <- get_db ;;
  set_db (set_embeddings s
            (replace_or_append
               (fun a b => str_eqb (emb_segment_id a) (emb_segment_id b))
               (mkEmbedding segment_id model vector now) (embeddings s))).

(** [KnowledgeStore.bulk_add_embeddings]: [zip] stops at the shorter
    list. *)
Definition bulk_add_embeddings (segment_ids : list pystr) (model : pystr)
    (vectors : list (list float)) : M unit :=
  mapM (fun p => add_embedding (fst p) model (snd p))
       (combine segment_ids vectors) ;;;
  ret tt.

(** [KnowledgeStore.get_embedding] *)
Definition get_embedding (s : store) (segment_id : pystr)
    : option (pystr * list float) :=
  match find (fun r => str_eqb (emb_segment_id r) segment_id) (embeddings s) with
  | Some r => Some (emb_model r, emb_vector r)
  | None => None
  end.

End WithEnv.

(** *** Semantic search *)

(** [np.dot] of two one-dimensional arrays, summed left to right in
    binary64; arrays of different lengths raise. *)
Definition np_dot (a b : list float) : result float :=
  if Nat.eqb (List.length a) (List.length b)
  then Ok (fold_left (fun acc p => (acc + fst p * snd p)%float) (combine a b) 0%float)
  else Raise (ValueError (lit "shapes not aligned")).

(** [np.linalg.norm]: the square root of the array's dot product with
    itself. *)
Definition np_norm (a : list float) : float :=
  PrimFloat.sqrt (fold_left (fun acc x => (acc + x * x)%float) a 0%float).

(** The similarity computed in the loop of [search_by_embedding]. *)
Definition cosine_similarity (query vector : list float) : result float :=
  match np_dot query vector with
  | Raise e => Raise e
  | Ok dot_product =>
      let norm_query := np_norm query in
      let norm_vector := np_norm vector in
      Ok (dot_product / (norm_query * norm_vector))%float
  end.

Record search_hit := mkHit
  { hit_segment_id : pystr;
    hit_text : pystr;
    hit_provenance : Provenance;
    hit_source_uri : pystr;
    hit_namespace : pystr;
    hit_score : float }.

(** The rows of [embeddings e JOIN resource_segments rs ON e.segment_id =
    rs.id JOIN information_resources ir ON rs.ir_id = ir.id], with the
    optional [WHERE ir.namespace = ?]. *)
Definition embedding_rows (s : store) (namespace : option pystr)
    : list (Embedding * ResourceSegment * InformationResource) :=
  let rows :=
    join_on (fun (p : Embedding * ResourceSegment) ir =>
               str_eqb (seg_ir_id (snd p)) (ir_id_of ir))
      (join_on (fun e rs => str_eqb (emb_segment_id e) (seg_id rs))
               (embeddings s) (resource_segments s))
      (information_resources s) in
  match namespace_filter namespace with
  | Some ns => filter (fun r => str_eqb (ir_namespace (snd r)) ns) rows
  | None => rows
  end.

Definition score_row (query : list float)
    (row : Embedding * ResourceSegment * InformationResource)
    : result search_hit :=
  let '(e, rs, ir) := row in
  match cosine_similarity query (emb_vector e) with
  | Raise ex => Raise ex
  | Ok similarity =>
      Ok (mkHit (emb_segment_id e) (seg_text rs) (seg_provenance rs)
                (ir_source_uri ir) (ir_namespace ir) similarity)
  end.

(** [l[:k]] *)
Definition slice_to {A : Type} (k : Z) (l : list A) : list A :=
  if 0 <=? k then firstn (Z.to_nat k) l
  else firstn (Z.to_nat (Z.of_nat (List.length l) + k)) l.

(** [KnowledgeStore.search_by_embedding]: [sort(key=score, reverse=True)]
    is stable, so an element only moves behind one with a strictly
    greater score. *)
Definition search_by_embedding (s : store) (query_embedding : list float)
    (top_k : Z) (namespace : option pystr) : result (list search_hit) :=
  match embedding_rows s namespace with
  | [] => Ok []
  | results =>
      match sequence_results (List.map (score_row query_embedding) results) with
      | Raise e => Raise e
      | Ok similarities =>
          Ok (slice_to top_k
                (sort_by (fun a b => negb (hit_score a <? hit_score b)%float)
                         similarities))
      end
  end.

End Store.

(* ===================================================================== *)
(** ** docmine/models/stable_id.py: provenance keys *)
(* ===================================================================== *)

Module ProvenanceKey.
Import PyStr StableId Models Store.
Local Open Scope Z_scope.

(** The values a provenance dictionary holds. *)
Inductive pyval :=
| VInt (n : Z)
| VStr (s : pystr).

(** [str(v)], which is also what an f-string field without a format
    specification gives. *)
Definition py_str (v : pyval) : pystr :=
  match v with
  | VInt n => str_of_Z n
  | VStr s => s
  end.

(** A dictionary with string keys, in insertion order. *)
Definition pydict := list (pystr * pyval).

Definition dict_get (d : pydict) (k : pystr) : option pyval :=
  option_map snd (find (fun kv => str_eqb (fst kv) k) d).

(** [k in d] *)
Definition dict_has (d : pydict) (k : pystr) : bool :=
  match dict_get d k with Some _ => true | None => false end.

(** [d.get(k, default)] *)
Definition get_default (d : pydict) (k : pystr) (default : pyval) : pyval :=
  match dict_get d k with Some v => v | None => default end.

Definition colon : pystr := lit ":".

(** [build_provenance_key] *)
Definition build_provenance_key (provenance : pydict) : pystr :=
  if (dict_has provenance (lit "page")
      && dict_has provenance (lit "sentence"))%bool then
    py_str (get_default provenance (lit "page") (VInt 0)) ++ colon
    ++ py_str (get_default provenance (lit "sentence") (VInt 0))
  else if dict_has provenance (lit "heading_path") then
    py_str (get_default provenance (lit "heading_path") (VInt 0)) ++ colon
    ++ py_str (get_default provenance (lit "para") (VInt 0)) ++ colon
    ++ py_str (get_default provenance (lit "sentence") (VInt 0))
  else if dict_has provenance (lit "line") then
    py_str (get_default provenance (lit "line") (VInt 0)) ++ colon
    ++ py_str (get_default provenance (lit "sentence") (VInt 0))
  else if (dict_has provenance (lit "table")
           && dict_has provenance (lit "row"))%bool then
    py_str (get_default provenance (lit "table") (VInt 0)) ++ colon
    ++ py_str (get_default provenance (lit "row") (VInt 0)) ++ colon
    ++ py_str (get_default provenance (lit "col") (VStr []))
  else
    join colon
      (List.map (fun kv => py_str (snd kv))
         (sort_by (fun a b : pystr * pyval => str_leb (fst a) (fst b))
                  provenance)).

(** The dictionaries the segmenter stores in [ResourceSegment.provenance]. *)
Definition provenance_dict (p : Provenance) : pydict :=
  match p with
  | ProvPage page sentence sentence_count =>
      [(lit "page", VInt page); (lit "sentence", VInt sentence);
       (lit "sentence_count", VInt sentence_count)]
  | ProvHeading heading_path para sentence sentence_count =>
      [(lit "heading_path", VStr heading_path); (lit "para", VInt para);
       (lit "sentence", VInt sentence);
       (lit "sentence_count", VInt sentence_count)]
  | ProvFlat sentence sentence_count =>
      [(lit "sentence", VInt sentence);
       (lit "sentence_count", VInt sentence_count)]
  end.

(** The [provenance_key] f-strings of the three segmenters. *)
Definition key_used (p : Provenance) : pystr :=
  match p with
  | ProvPage page sentence _ => str_of_Z page ++ lit ":" ++ str_of_Z sentence
  | ProvHeading heading para sentence _ =>
      heading ++ lit ":" ++ str_of_Z para ++ lit ":" ++ str_of_Z sentence
  | ProvFlat sentence _ => str_of_Z sentence
  end.

Definition is_page (p : Provenance) : bool :=
  match p with ProvPage _ _ _ => true | _ => false end.

Definition is_heading (p : Provenance) : bool :=
  match p with ProvHeading _ _ _ _ => true | _ => false end.


(** A segment as a segmenter constructs it for the resource [ir_id],
    with a provenance of the segmenter's [kind]. *)
Definition well_built (kind : Provenance -> bool)
    (namespace source_uri ir_id : pystr) (segment : ResourceSegment) : Prop :=
  kind (seg_provenance segment) = true
  /\ seg_ir_id segment = ir_id
  /\ seg_id segment
     = generate_segment_id namespace source_uri
         (key_used (seg_provenance segment)) (seg_text segment)
  /\ seg_text_hash segment = generate_text_hash (seg_text segment)
  /\ truthy (strip (seg_text segment)) = true.

End ProvenanceKey.

(* ===================================================================== *)
(** ** docmine/extraction/regex_extractor.py: confidence *)
(* ===================================================================== *)

Module Extraction.
Import PyStr Models.

(** [min(a, b)] of two floats: [b] when it is smaller, else [a]. *)
Definition py_min (a b : float) : float :=
  if (b <? a)%float then b else a.

Section WithBuiltins.

(** [str.upper], [str.lower] and [str.isdigit] of the Python runtime. *)
Variables upper lower : pystr -> pystr.
Variable isdigit : char -> bool.

(** The literals 0.7, 0.1, 0.05 and 0.2 as binary64 values. *)
Definition base_confidence : float := 0x1.6666666666666p-1%float.
Definition tenth : float := 0x1.999999999999ap-4%float.
Definition twentieth : float := 0x1.999999999999ap-5%float.
Definition fifth : float := 0x1.999999999999ap-3%float.

(** [RegexEntityExtractor._calculate_confidence] *)
Definition _calculate_confidence (entity_type name : pystr) : float :=
  let modifiers := 0%float in
  let modifiers :=
    if (6 <=? List.length name)%nat then (modifiers + tenth)%float
    else modifiers in
  let modifiers :=
    if (negb (str_eqb name (upper name))
        && negb (str_eqb name (lower name)))%bool
    then (modifiers + tenth)%float else modifiers in
  let modifiers :=
    if existsb isdigit name then (modifiers + twentieth)%float
    else modifiers in
  let modifiers :=
    if (str_eqb entity_type (lit "email") || str_eqb entity_type (lit "doi")
        || str_eqb entity_type (lit "pmid"))%bool
    then (modifiers + fifth)%float else modifiers in
  py_min 1%float (base_confidence + modifiers)%float.

End WithBuiltins.

End Extraction.

(* ===================================================================== *)
(** ** docmine/search/exact_recall.py *)
(* ===================================================================== *)

Module Recall.
Import PyStr Models Store.

(** The dictionaries [get_all_segments_for_entity] returns. *)
Record recall_result := mkRecall
  { rr_segment_id : pystr;
    rr_text : pystr;
    rr_provenance : Provenance;
    rr_source_uri : option pystr;
    rr_namespace : option pystr;
    rr_link_type : pystr;
    rr_confidence : float }.

(** Body of the loop of [get_all_segments_for_entity]. *)
Definition with_metadata (s : store) (p : ResourceSegment * EntityLink)
    : recall_result :=
  let (segment, link) := p in
  let ir := get_ir_by_id s (seg_ir_id segment) in
  mkRecall (seg_id segment) (seg_text segment) (seg_provenance segment)
           (option_map ir_source_uri ir) (option_map ir_namespace ir)
           (link_type link) (link_confidence link).

(** [ExactRecall.get_all_segments_for_entity] *)
Definition get_all_segments_for_entity (s : store) (entity_id : pystr)
    : result (list recall_result) :=
  match get_segments_for_entity s entity_id with
  | Raise e => Raise e
  | Ok results => Ok (List.map (with_metadata s) results)
  end.

(** [ExactRecall.get_entity] *)
Definition get_entity (s : store) (name namespace : pystr)
    (entity_type : option pystr) : option Entity :=
  match namespace_filter entity_type with
  | Some ty => get_entity_by_name s namespace ty name
  | None =>
      find (fun e => (str_eqb (ent_name e) name
                      || existsb (str_eqb name) (ent_aliases e))%bool)
           (list_entities s (Some namespace) None)
  end.

(** [ExactRecall.search_entity_by_name] *)
Definition search_entity_by_name (s : store) (name namespace : pystr)
    (entity_type : option pystr) : result (list recall_result) :=
  match get_entity s name namespace entity_type with
  | None => Ok []
  | Some entity => get_all_segments_for_entity s (ent_id entity)
  end.



End Recall.

(* ===================================================================== *)
(** ** docmine/ingest/knowledge_pipeline.py and docmine/kos_pipeline.py *)
(* ===================================================================== *)

Module Pipeline.
Import PyStr SHA256 StableId Models Segmenter Store.
Local Open Scope Z_scope.

Fixpoint foldM {A B : Type} (f : A -> B -> M A) (l : list B) (a : A) : M A :=
  match l with
  | [] => ret a
  | b :: l' => a' <- f a b ;; foldM f l' a'
  end.

Section WithEnv.
Variable E : env.

(** [open(path, 'rb').read()] *)
Definition read_bytes (file_path : pystr) : M bytes :=
  match fs_read E file_path with
  | Some content => ret content
  | None => raise (FileNotFoundError file_path)
  end.

(** [open(path, 'r', encoding='utf-8').read()] *)
Definition read_text (file_path : pystr) : M pystr :=
  content <- read_bytes file_path ;;
  match decode_text E content with
  | Some text => ret text
  | None => raise UnicodeDecodeError
  end.

(** Running the segmenter: each segment it constructs reads the clock
    once. *)
Definition run_segmenter
    (f : (nat -> datetime) -> result (list ResourceSegment))
    : M (list ResourceSegment) :=
  fun w =>
    match f (fun k => clock E (tick w + k)%nat) with
    | Ok segments =>
        (Ok segments,
         mkWorld (db w) (tick w + List.length segments)%nat (writes w))
    | Raise e => (Raise e, w)
    end.

Definition source_uri_of (file_path : pystr) : pystr :=
  lit "file://" ++ path_absolute E file_path.

(** [KnowledgeIngestionPipeline._register_ir] *)
Definition _register_ir (file_path namespace source_type : pystr)
    (metadata : option json_dict) : M InformationResource :=
  let source_uri := source_uri_of file_path in
  content <- read_bytes file_path ;;
  let content_hash := generate_content_hash content in
  s <- get_db ;;
  match get_ir_by_uri s namespace source_uri with
  | Some existing =>
      if negb (str_eqb (ir_content_hash existing) content_hash) then
        let metadata' :=
          match metadata with
          | Some (kv :: m) => dict_update (ir_metadata existing) (kv :: m)
          | _ => ir_metadata existing
          end in
        upsert_information_resource E
          (mkIR (ir_id_of existing) (ir_namespace existing)
                (ir_source_type existing) (ir_source_uri existing)
                content_hash metadata'
                (ir_created_at existing) (ir_updated_at existing))
      else ret existing
  | None =>
      id <- new_uuid E ;;
      now1 <- utcnow E ;;
      now2 <- utcnow E ;;
      upsert_information_resource E
        (new_InformationResource now1 now2 id namespace source_type source_uri
           content_hash
           (match metadata with Some m => m | None => [] end))
  end.

(** One iteration of the inner loop of [_extract_and_link_entities]. *)
Definition link_extracted (segment : ResourceSegment) (namespace : pystr)
    (acc : list Entity * list EntityLink) (ext_entity : ExtractedEntity)
    : M (list Entity * list EntityLink) :=
  let (all_entities, all_links) := acc in
  s <- get_db ;;
  found <-
    match get_entity_by_name s namespace (ext_type ext_entity)
            (ext_name ext_entity) with
    | Some entity => ret (entity, all_entities)
    | None =>
        id <- new_uuid E ;;
        now1 <- utcnow E ;;
        now2 <- utcnow E ;;
        entity <- upsert_entity E
                    (new_Entity now1 now2 id namespace (ext_type ext_entity)
                       (ext_name ext_entity) (ext_aliases ext_entity)
                       (ext_metadata ext_entity)) ;;
        ret (entity, all_entities ++ [entity])
    end ;;
  let (entity, all_entities') := found in
  now <- utcnow E ;;
  link <- lift (new_EntityLink now (seg_id segment) (ent_id entity)
                  (lit "mentions") (ext_confidence ext_entity) None) ;;
  ret (all_entities', all_links ++ [link]).

Definition link_segment (namespace : pystr)
    (acc : list Entity * list EntityLink) (segment : ResourceSegment)
    : M (list Entity * list EntityLink) :=
  foldM (link_extracted segment namespace)
        (entity_extractor E (seg_text segment)) acc.

(** [KnowledgeIngestionPipeline._extract_and_link_entities] *)
Definition _extract_and_link_entities (segments : list ResourceSegment)
    (namespace : pystr) : M (list Entity) :=
  acc <- foldM (link_segment namespace) segments ([], []) ;;
  let (all_entities, all_links) := acc in
  match all_links with
  | [] => ret all_entities
  | _ :: _ => bulk_add_entity_links all_links ;;; ret all_entities
  end.

Definition ingested : Type :=
  (InformationResource * list ResourceSegment * list Entity)%type.

(** Steps 4 and 5 shared by the three [ingest_*] methods. *)
Definition store_and_link (ir : InformationResource)
    (segments : list ResourceSegment) (namespace : pystr) : M ingested :=
  match segments with
  | [] => ret (ir, [], [])
  | _ :: _ =>
      segments' <- bulk_upsert_segments segments ;;
      entities <- _extract_and_link_entities segments' namespace ;;
      ret (ir, segments', entities)
  end.

(** [PDFExtractor.extract] *)
Definition pdf_extract (content : bytes) : list page :=
  match fitz_pages E content with
  | None => []
  | Some texts =>
      filter (fun p => (50 <=? List.length (snd p))%nat)
        (combine (List.map (fun k => Z.of_nat k) (seq 1 (List.length texts)))
                 texts)
  end.

(** [KnowledgeIngestionPipeline.ingest_pdf] *)
Definition ingest_pdf (pdf_path namespace : pystr)
    (metadata : option json_dict) : M ingested :=
  ir <- _register_ir pdf_path namespace (lit "pdf") metadata ;;
  content <- read_bytes pdf_path ;;
  match pdf_extract content with
  | [] => ret (ir, [], [])
  | pages =>
      segments <- run_segmenter (fun clk =>
                    segment_pages (sentences_per_segment E) clk pages
                      (ir_id_of ir) (ir_namespace ir) (ir_source_uri ir)) ;;
      store_and_link ir segments namespace
  end.

(** [KnowledgeIngestionPipeline.ingest_markdown] *)
Definition ingest_markdown (md_path namespace : pystr)
    (metadata : option json_dict) : M ingested :=
  ir <- _register_ir md_path namespace (lit "md") metadata ;;
  text <- read_text md_path ;;
  if negb (truthy (strip text)) then ret (ir, [], [])
  else
    segments <- run_segmenter (fun clk =>
                  segment_markdown (sentences_per_segment E) clk text
                    (ir_id_of ir) namespace (ir_source_uri ir)) ;;
    store_and_link ir segments namespace.

(** [KnowledgeIngestionPipeline.ingest_text] *)
Definition ingest_text (txt_path namespace : pystr)
    (metadata : option json_dict) : M ingested :=
  ir <- _register_ir txt_path namespace (lit "txt") metadata ;;
  text <- read_text txt_path ;;
  if negb (truthy (strip text)) then ret (ir, [], [])
  else
    segments <- run_segmenter (fun clk =>
                  segment_text (sentences_per_segment E) clk text
                    (ir_id_of ir) namespace (ir_source_uri ir)) ;;
    store_and_link ir segments namespace.

(** [KOSPipeline._embed_segments] *)
Definition _embed_segments (segments : list ResourceSegment) : M unit :=
  s <- get_db ;;
  let to_embed :=
    filter (fun seg => match get_embedding s (seg_id seg) with
                       | Some _ => false
                       | None => true
                       end) segments in
  match to_embed with
  | [] => ret tt
  | _ :: _ =>
      let texts := List.map seg_text to_embed in
      let vectors := encode E texts in
      let segment_ids := List.map seg_id to_embed in
      bulk_add_embeddings E segment_ids (embedding_model_name E) vectors
  end.

(** [namespace or self.namespace] *)
Definition effective_namespace (namespace : option pystr) : pystr :=
  match namespace_filter namespace with
  | Some ns => ns
  | None => default_namespace E
  end.

(** [KOSPipeline.ingest_file] *)
Definition ingest_file (file_path : pystr) (namespace : option pystr)
    (metadata : option json_dict) : M nat :=
  match fs_read E file_path with
  | None => raise (FileNotFoundError file_path)
  | Some _ =>
      let ns := effective_namespace namespace in
      let suffix := path_suffix_lower E file_path in
      r <- (if str_eqb suffix (lit ".pdf") then ingest_pdf file_path ns metadata
            else if str_eqb suffix (lit ".md")
                 then ingest_markdown file_path ns metadata
            else if str_eqb suffix (lit ".txt")
                 then ingest_text file_path ns metadata
            else raise (ValueError (lit "Unsupported file type"))) ;;
      let '(ir, segments, entities) := r in
      match segments with
      | [] => ret tt
      | _ :: _ => _embed_segments segments
      end ;;;
      ret (List.length segments)
  end.

(** [KOSPipeline.count_segments] *)
Definition kos_count_segments (s : store) (namespace : option pystr) : nat :=
  count_segments s (Some (effective_namespace namespace)).

End WithEnv.

End Pipeline.

(* ===================================================================== *)
(** ** What a computation leaves unchanged *)
(* ===================================================================== *)

Module Frames.
Import PyStr Models Store.

(** [m] relates every world it is started in to the world it leaves,
    whether it returns or raises. *)
Definition preserves {A : Type} (R : world -> world -> Prop) (m : M A) : Prop :=
  forall w, R w (snd (m w)).

(** The statements issued between [w] and [w'] all satisfy [P]. *)
Definition log_grows (P : sql_write -> Prop) (w w' : world) : Prop :=
  exists new, writes w' = new ++ writes w /\ Forall P new.

(** A statement that touches neither [information_resources] nor
    [resource_segments]. *)
Definition quiet_write (q : sql_write) : Prop :=
  is_segment_write q = false /\ is_ir_write q = false.

(** What entity extraction, linking and embedding leave alone. *)
Definition keeps_documents (w w' : world) : Prop :=
  information_resources (db w') = information_resources (db w)
  /\ resource_segments (db w') = resource_segments (db w)
  /\ log_grows quiet_write w w'.

(** Between [w] and [w'] no table but [information_resources] has
    changed. *)
Definition only_resources_written (w w' : world) : Prop :=
  resource_segments (db w') = resource_segments (db w)
  /\ entities (db w') = entities (db w)
  /\ segment_entity_links (db w') = segment_entity_links (db w)
  /\ embeddings (db w') = embeddings (db w).

(** The two keys of [information_resources]: the primary key [id] and
    [UNIQUE(namespace, source_uri)]. *)
Definition resources_keyed (s : store) : Prop :=
  NoDup (List.map ir_id_of (information_resources s))
  /\ NoDup (List.map (fun r => (ir_namespace r, ir_source_uri r))
                     (information_resources s)).

End Frames.

(* ===================================================================== *)
(** ** The common shape of the three ingest methods *)
(* ===================================================================== *)

Module Shapes.
Import PyStr SHA256 StableId Models Segmenter Store Pipeline.
Local Open Scope Z_scope.

(** A call of the segmenter, waiting for the clock. *)
Definition plan : Type := (nat -> datetime) -> result (list ResourceSegment).

(** A segment without its time of construction. *)
Definition untimed (segment : ResourceSegment) : ResourceSegment :=
  mkSegment (seg_id segment) (seg_ir_id segment) (segment_index segment)
            (seg_text segment) (seg_provenance segment)
            (seg_text_hash segment) 0.

(** The clock decides nothing but [created_at]. *)
Definition clock_free (f : plan) : Prop :=
  forall clk1 clk2 segments1,
    f clk1 = Ok segments1 ->
    exists segments2,
      f clk2 = Ok segments2
      /\ List.map untimed segments1 = List.map untimed segments2.

(** [ingest_pdf], [ingest_markdown] and [ingest_text] register the
    resource, read the file with [pre], and either stop with no segments
    or run the segmenter call [seg] chooses, store its segments and link
    their entities. *)
Definition ingest_with (E : env) (X : Type) (source_type : pystr)
    (pre : M X) (seg : X -> InformationResource -> option plan)
    (file_path namespace : pystr) (metadata : option json_dict) : M ingested :=
  ir <- _register_ir E file_path namespace source_type metadata ;;
  x <- pre ;;
  match seg x ir with
  | None => ret (ir, [], [])
  | Some f =>
      segments <- run_segmenter E f ;;
      store_and_link E ir segments namespace
  end.

Definition pdf_plan (E : env) (content : bytes) (ir : InformationResource)
    : option plan :=
  match pdf_extract E content with
  | [] => None
  | pages =>
      Some (fun clk =>
              segment_pages (sentences_per_segment E) clk pages
                (ir_id_of ir) (ir_namespace ir) (ir_source_uri ir))
  end.

Definition markdown_plan (E : env) (namespace : pystr) (text : pystr)
    (ir : InformationResource) : option plan :=
  if negb (truthy (strip text)) then None
  else Some (fun clk =>
               segment_markdown (sentences_per_segment E) clk text
                 (ir_id_of ir) namespace (ir_source_uri ir)).

Definition text_plan (E : env) (namespace : pystr) (text : pystr)
    (ir : InformationResource) : option plan :=
  if negb (truthy (strip text)) then None
  else Some (fun clk =>
               segment_text (sentences_per_segment E) clk text
                 (ir_id_of ir) namespace (ir_source_uri ir)).

(** What [ingest_file] does with the result of an ingest method. *)
Definition finish (E : env) (r : ingested) : M nat :=
  let '(ir, segments, entities) := r in
  match segments with
  | [] => ret tt
  | _ :: _ => _embed_segments E segments
  end ;;;
  ret (List.length segments).

Definition seg_ids (s : store) : list pystr :=
  List.map seg_id (resource_segments s).

Definition ent_keys (s : store) : list (pystr * pystr * pystr) :=
  List.map (fun e => (ent_namespace e, ent_type e, ent_name e)) (entities s).

(** The test of the two [__post_init__] methods. *)
Definition confidence_ok (c : float) : bool :=
  ((0 <=? c)%float && (c <=? 1)%float)%bool.

(** What a segment needs from the store for its next ingestion to be a
    pure update: its id is stored, and so is every entity the extractor
    finds in its text. *)
Definition entity_known (namespace : pystr) (s : store)
    (ext : ExtractedEntity) : Prop :=
  In (namespace, ext_type ext, ext_name ext) (ent_keys s)
  /\ confidence_ok (ext_confidence ext) = true.

Definition entities_known (E : env) (namespace : pystr) (s : store)
    (segment : ResourceSegment) : Prop :=
  Forall (entity_known namespace s) (entity_extractor E (seg_text segment)).

Definition segment_settled (E : env) (namespace : pystr) (s : store)
    (segment : ResourceSegment) : Prop :=
  In (seg_id segment) (seg_ids s) /\ entities_known E namespace s segment.

(** The state a successful ingestion leaves behind: the file is
    registered with the hash of its content and all of its [n] segments
    are settled. *)
Definition settled (E : env) (X : Type) (pre : M X)
    (seg : X -> InformationResource -> option plan)
    (file_path namespace : pystr) (n : nat) (w : world) : Prop :=
  exists content ir x,
    fs_read E file_path = Some content
    /\ get_ir_by_uri (db w) namespace (source_uri_of E file_path) = Some ir
    /\ ir_content_hash ir = generate_content_hash content
    /\ (forall w0, pre w0 = (Ok x, w0))
    /\ match seg x ir with
       | None => n = 0%nat
       | Some f =>
           exists segments,
             f (fun _ => 0) = Ok segments
             /\ n = List.length segments
             /\ Forall (segment_settled E namespace (db w)) segments
       end.

(** From [w] to [w'] the resources are as they were, and segment ids and
    entity keys were only added, at the end. *)
Definition grows (w w' : world) : Prop :=
  information_resources (db w') = information_resources (db w)
  /\ (exists more, seg_ids (db w') = seg_ids (db w) ++ more)
  /\ (exists more, ent_keys (db w') = ent_keys (db w) ++ more).

(** From [w] to [w'] no resource, no entity and no segment's id or owner
    has changed. *)
Definition core_unchanged (w w' : world) : Prop :=
  information_resources (db w') = information_resources (db w)
  /\ seg_ids (db w') = seg_ids (db w)
  /\ List.map seg_ir_id (resource_segments (db w'))
     = List.map seg_ir_id (resource_segments (db w))
  /\ entities (db w') = entities (db w).

End Shapes.

(* ===================================================================== *)
(** ** What a namespace can see *)
(* ===================================================================== *)

Module Views.
Import PyStr Models Store.













End Views.

(* ===================================================================== *)
(** ** Sample data for the worked examples *)
(* ===================================================================== *)

Module Samples.
Import PyStr SHA256 Models Store.
Local Open Scope Z_scope.

(** A store with one resource, three segments stored out of creation
    order, two entities and three links. *)
Definition recall_store : store :=
  mkStore
    [mkIR (lit "ir1") (lit "lab") (lit "txt") (lit "file:///a.txt")
          (lit "h") [] 1 1]
    [mkSegment (lit "s1") (lit "ir1") 0 (lit "CCNA001 first") (ProvFlat 0 1)
               (lit "t1") 20;
     mkSegment (lit "s2") (lit "ir1") 1 (lit "CCNA001 second") (ProvFlat 1 1)
               (lit "t2") 10;
     mkSegment (lit "s3") (lit "ir1") 2 (lit "BRCA1 only") (ProvFlat 2 1)
               (lit "t3") 30]
    [mkEntity (lit "e1") (lit "lab") (lit "strain") (lit "CCNA001")
              [lit "CCNA-1"] [] 2 2;
     mkEntity (lit "e2") (lit "lab") (lit "gene") (lit "BRCA1") [] [] 3 3]
    [mkLink (lit "s1") (lit "e1") (lit "mentions") 0.75%float 21;
     mkLink (lit "s2") (lit "e1") (lit "mentions") 1%float 11;
     mkLink (lit "s3") (lit "e2") (lit "mentions") 0.5%float 31]
    [].

(** A four-sentence plain-text document. *)
Definition document : pystr :=
  lit "The CCNA001 strain was tested under various conditions. Results showed significant growth in media A. The BRCA1 gene was also analyzed for mutations. No significant findings were observed in the control group.".

(** Collaborators for the examples: one file, an extractor that reports
    one strain per segment, two-dimensional embeddings. *)
Definition sample_env : env :=
  mkEnv (fun k => Z.of_nat k)
        (fun k => lit "uuid-" ++ str_of_Z (Z.of_nat k))
        (fun p => if str_eqb p (lit "/d/a.txt")
                  then Some (utf8_encode document) else None)
        (fun p => p)
        (fun p => lit ".txt")
        (fun b => Some (List.map Z.to_N b))
        (fun b => None)
        (fun t => [mkExtracted (lit "strain") (lit "CCNA001") [] 1%float []])
        (fun ts => List.map (fun _ => [1%float; 0%float]) ts)
        3 (lit "default") (lit "model").

Definition fresh_world : world := mkWorld empty_store 0 [].

(** A world holding [recall_store], and an entity that names the stored
    strain again with a different alias and different metadata. *)
Definition recall_world : world := mkWorld recall_store 40 [].

Definition renamed_strain : Entity :=
  mkEntity (lit "fresh-id") (lit "lab") (lit "strain") (lit "CCNA001")
           [lit "C-1"] [(lit "lab", lit "north")] 50 50.

(** [recall_store] with one embedding whose vector is all zeros. *)
Definition zero_vector_store : store :=
  set_embeddings recall_store
    [mkEmbedding (lit "s1") (lit "model") [0%float; 0%float] 60].

(** The world after the sample document has been ingested once under
    the namespace [lab], and the resource that call registered. *)
Definition ingested_world : world :=
  snd (Pipeline.ingest_text sample_env (lit "/d/a.txt") (lit "lab") None
         fresh_world).

Definition registered_document : InformationResource :=
  mkIR (lit "uuid-0") (lit "lab") (lit "txt") (lit "file:///d/a.txt")
       (StableId.generate_content_hash (utf8_encode document)) [] 1 2.

(** The world after [ingest_file] has ingested the sample document once
    under [lab]. *)
Definition first_ingestion : result nat * world :=
  Pipeline.ingest_file sample_env (lit "/d/a.txt") (Some (lit "lab")) None
    fresh_world.



(** Two pages, a markdown text with two headings, and what a segmenter
    returned (nothing when it raised). *)
Definition sample_pages : list Segmenter.page :=
  [(1%Z, lit "The CCNA001 strain was isolated from sample A. Initial tests showed resistance.");
   (2%Z, lit "Further analysis of the strain revealed markers.")].

Definition sample_markdown : pystr :=
  lit "First paragraph sentence number one. Another sentence that is long enough.
# A
Paragraph A has a first sentence. Paragraph A has a second sentence.".

Definition produced (r : result (list ResourceSegment))
    : list ResourceSegment :=
  match r with Ok segments => segments | Raise _ => [] end.

(** The sample collaborators, with a file of the given content and
    suffix at every path. *)
Definition env_with_file (content : bytes) (suffix : pystr) : env :=
  mkEnv (clock sample_env) (uuid4 sample_env) (fun _ => Some content)
        (path_absolute sample_env) (fun _ => suffix)
        (decode_text sample_env) (fitz_pages sample_env)
        (entity_extractor sample_env) (encode sample_env)
        (sentences_per_segment sample_env) (default_namespace sample_env)
        (embedding_model_name sample_env).

(** A file of two spaces, and the sample file after an edit. *)
Definition blank_env : env := env_with_file [32; 32] (lit ".txt").

Definition edited_env : env :=
  env_with_file (utf8_encode (lit "An edited document.")) (lit ".txt").

End Samples.

(* ===================================================================== *)
(** ** Readings of the specification that are compared with the code *)
(* ===================================================================== *)

Module Readings.
Import PyStr Models Store.
Local Open Scope Z_scope.

(** Merging on upsert: whatever alias or metadata key the stored record
    had before the call, the record stored under the same
    (namespace, type, name) still has afterwards. *)
Definition upsert_merges (E : env) (w : world) (entity : Entity) : Prop :=
  forall existing stored r w',
    get_entity_by_name (db w) (ent_namespace entity) (ent_type entity)
                       (ent_name entity) = Some existing ->
    upsert_entity E entity w = (r, w') ->
    get_entity_by_name (db w') (ent_namespace entity) (ent_type entity)
                       (ent_name entity) = Some stored ->
    (forall a, In a (ent_aliases existing) -> In a (ent_aliases stored))
    /\ (forall k, In k (List.map fst (ent_metadata existing)) ->
                  In k (List.map fst (ent_metadata stored))).

(** Guarded scoring: the search returns, and a candidate scored against
    a zero-norm query or from a zero-norm stored vector has score 0. *)
Definition zero_norm_scores_zero (s : store) (query : list float)
    (top_k : Z) (namespace : option pystr) : Prop :=
  exists hits,
    search_by_embedding s query top_k namespace = Ok hits
    /\ forall row h,
         In row (embedding_rows s namespace) ->
         score_row query row = Ok h ->
         In h hits ->
         (np_norm query =? 0)%float = true
         \/ (np_norm (emb_vector (fst (fst row))) =? 0)%float = true ->
         hit_score h = 0%float.



End Readings.

(* ===================================================================== *)
(** * Part II: properties *)
(* ===================================================================== *)

Section StringFacts.
Import PyStr.

Lemma str_eqb_eq : forall a b, str_eqb a b = true <-> a = b.
Proof.
  induction a as [|x a IH]; destruct b as [|y b]; simpl; split;
    try congruence; try discriminate.
  - intros H. apply andb_true_iff in H as [H1 H2].
    apply N.eqb_eq in H1. apply IH in H2. congruence.
  - intros H. inversion H; subst. apply andb_true_iff; split.
    + apply N.eqb_refl.
    + now apply IH.
Qed.

Lemma str_eqb_refl : forall a, str_eqb a a = true.
Proof. intros a. now apply str_eqb_eq. Qed.

Lemma str_eqb_neq : forall a b, str_eqb a b = false <-> a <> b.
Proof.
  intros a b. split.
  - intros H E. apply str_eqb_eq in E. congruence.
  - intros H. destruct (str_eqb a b) eqn:E; [|reflexivity].
    apply str_eqb_eq in E. contradiction.
Qed.


Lemma flush_nonempty : forall cur k, cur <> [] -> flush cur k = rev cur :: k.
Proof. intros [|c cur] k H; [contradiction|reflexivity]. Qed.

Lemma split_from_word : forall w cur s,
  Forall (fun c => isspace c = false) w ->
  split_from cur (w ++ s) = split_from (rev w ++ cur) s.
Proof.
  induction w as [|c w IH]; intros cur s Hw; simpl.
  - reflexivity.
  - inversion Hw as [|? ? Hc Hw']; subst. rewrite Hc.
    rewrite IH by assumption. now rewrite <- app_assoc.
Qed.

Lemma split_from_spaces : forall t cur,
  Forall (fun c => isspace c = true) t ->
  split_from cur t = flush cur [].
Proof.
  induction t as [|c t IH]; intros cur Ht; simpl.
  - reflexivity.
  - inversion Ht as [|? ? Hc Ht']; subst. rewrite Hc.
    rewrite (IH [] Ht'). reflexivity.
Qed.

Lemma split_from_trailing : forall u t cur,
  Forall (fun c => isspace c = true) t ->
  split_from cur (u ++ t) = split_from cur u.
Proof.
  induction u as [|c u IH]; intros t cur Ht; simpl.
  - now apply split_from_spaces.
  - destruct (isspace c).
    + now rewrite (IH t [] Ht).
    + now apply IH.
Qed.

Lemma rstrip_decompose : forall s,
  exists t, s = rstrip s ++ t /\ Forall (fun c => isspace c = true) t.
Proof.
  induction s as [|c s [t [Hs Ht]]]; simpl.
  - exists []. auto.
  - destruct (rstrip s) as [|r rs] eqn:Er.
    + destruct (isspace c) eqn:Ec.
      * exists (c :: t). simpl in Hs. subst s. split; [reflexivity|].
        constructor; assumption.
      * exists t. simpl in *. now subst s.
    + exists t. split; [|assumption]. simpl. now rewrite Hs at 1.
Qed.

Lemma split_lstrip : forall s, split (lstrip s) = split s.
Proof.
  unfold split. induction s as [|c s IH]; simpl; [reflexivity|].
  destruct (isspace c) eqn:Ec; simpl.
  - exact IH.
  - now rewrite Ec.
Qed.

Lemma split_rstrip : forall s, split (rstrip s) = split s.
Proof.
  intros s. destruct (rstrip_decompose s) as [t [Hs Ht]].
  unfold split. rewrite Hs at 2. now rewrite split_from_trailing.
Qed.

Lemma split_strip : forall s, split (strip s) = split s.
Proof. intros s. unfold strip. now rewrite split_rstrip, split_lstrip. Qed.

Lemma split_join_words : forall ws,
  Forall is_word ws -> split (join [space] ws) = ws.
Proof.
  unfold split. induction ws as [|w ws IH]; intros Hws; [reflexivity|].
  inversion Hws as [|? ? [Hne Hw] Hws']; subst.
  destruct ws as [|w' ws].
  - simpl. rewrite <- (app_nil_r w) at 1.
    rewrite split_from_word by assumption. simpl. rewrite app_nil_r.
    rewrite flush_nonempty.
    + now rewrite rev_involutive.
    + intros E. apply (f_equal (@rev _)) in E.
      rewrite rev_involutive in E. now apply Hne.
  - change (join [space] (w :: w' :: ws))
      with (w ++ [space] ++ join [space] (w' :: ws)).
    rewrite split_from_word by assumption. rewrite app_nil_r.
    cbn [app split_from]. change (isspace space) with true. cbv iota.
    rewrite flush_nonempty.
    + rewrite rev_involutive. f_equal. now apply IH.
    + intros E. apply (f_equal (@rev _)) in E.
      rewrite rev_involutive in E. now apply Hne.
Qed.

Lemma split_from_words : forall s cur,
  Forall (fun c => isspace c = false) cur ->
  Forall is_word (split_from cur s).
Proof.
  assert (Hfl : forall cur k,
            Forall (fun c => isspace c = false) cur ->
            Forall is_word k -> Forall is_word (flush cur k)).
  { intros [|c cur] k Hcur Hk; simpl; [assumption|].
    constructor; [|assumption]. split.
    - intros E. apply (f_equal (@List.length _)) in E.
      rewrite length_app in E. simpl in E. lia.
    - apply Forall_app. split.
      + apply Forall_rev. now inversion Hcur.
      + constructor; [now inversion Hcur | constructor]. }
  induction s as [|c s IH]; intros cur Hcur; simpl.
  - apply Hfl; [assumption | constructor].
  - destruct (isspace c) eqn:Ec.
    + apply Hfl; [assumption|]. apply IH. constructor.
    + apply IH. constructor; assumption.
Qed.

Lemma split_words : forall s, Forall is_word (split s).
Proof. intros s. apply split_from_words. constructor. Qed.

End StringFacts.

Section HashFacts.
Import PyStr SHA256.
Local Open Scope Z_scope.

(** Known answers of the hash function. *)
Example sha256_abc :
  hexdigest (utf8_encode (lit "abc"))
  = lit "ba7816bf8f01cfea414140de5dae2223b00361a396177a9cb410ff61f20015ad".
Proof. vm_compute. reflexivity. Qed.

Example sha256_empty :
  hexdigest []
  = lit "e3b0c44298fc1c149afbf4c8996fb92427ae41e4649b934ca495991b7852b855".
Proof. vm_compute. reflexivity. Qed.

Example sha256_two_blocks :
  hexdigest (utf8_encode
    (lit "abcdbcdecdefdefgefghfghighijhijkijkljklmklmnlmnomnopnopq"))
  = lit "248d6a61d20638b8e5c026930c3e6039a33ce45964ff2167f6ecedd419db06c1".
Proof. vm_compute. reflexivity. Qed.











End HashFacts.

(* --------------------------------------------------------------------- *)
(** ** Stable identifiers *)
(* --------------------------------------------------------------------- *)

Section StableIdFacts.
Import PyStr SHA256 StableId.

Lemma normalize_text_words : forall t, Forall is_word (split (strip t)).
Proof. intros t. apply split_words. Qed.

Lemma normalize_text_idempotent : forall t,
  normalize_text (normalize_text t) = normalize_text t.
Proof.
  intros t. unfold normalize_text at 1.
  rewrite split_strip. unfold normalize_text.
  rewrite split_join_words by apply normalize_text_words. reflexivity.
Qed.

Example normalize_text_sample :
  normalize_text (lit "  The  CCNA001   strain  ") = lit "The CCNA001 strain".
Proof. vm_compute. reflexivity. Qed.

Example generate_segment_id_sample :
  generate_segment_id (lit "lab_a") (lit "file:///paper.pdf") (lit "5:3")
                      (lit "The CCNA001 strain showed resistance.")
  = lit "c92bd4a2de276d3e874ec75c6d21b0ee801a2dc247190da3fa3643e51bea35bb".
Proof. vm_compute. reflexivity. Qed.


(** C10 — Normalization is idempotent, and both hashes only see the
    whitespace-normalized form of the text: texts with equal normal forms
    get equal text hashes and, for equal namespace, source URI and
    provenance key, equal segment ids. *)
Theorem normalization_idempotent_hashes_whitespace_insensitive :
  forall (t a b namespace source_uri provenance_key : pystr),
    normalize_text a = normalize_text b ->
    normalize_text (normalize_text t) = normalize_text t
    /\ generate_text_hash a = generate_text_hash b
    /\ generate_segment_id namespace source_uri provenance_key a
       = generate_segment_id namespace source_uri provenance_key b.
Proof.
  intros t a b ns uri pk Hab. split; [apply normalize_text_idempotent|].
  unfold generate_text_hash, generate_segment_id. cbv zeta.
  rewrite Hab. split; reflexivity.
Qed.

Lemma normalization_idempotent_hashes_whitespace_insensitive_witness :
  normalize_text (normalize_text (lit " x   y ")) = normalize_text (lit " x   y ")
  /\ generate_text_hash (lit "x  y") = generate_text_hash (lit " x y ")
  /\ generate_segment_id (lit "ns") (lit "file:///d.txt") (lit "0") (lit "x  y")
     = generate_segment_id (lit "ns") (lit "file:///d.txt") (lit "0") (lit " x y ").
Proof.
  apply (normalization_idempotent_hashes_whitespace_insensitive
           (lit " x   y ") (lit "x  y") (lit " x y ")
           (lit "ns") (lit "file:///d.txt") (lit "0")).
  vm_compute. reflexivity.
Defined.

End StableIdFacts.

(* --------------------------------------------------------------------- *)
(** ** Confidence validation *)
(* --------------------------------------------------------------------- *)

Section ConfidenceFacts.
Import PyStr Models.
Local Open Scope float_scope.

Lemma SF_above_finite : forall m1 e1 x,
  SFltb (S754_finite false m1 e1) x = true ->
  SFleb x (S754_finite false m1 e1) = false.
Proof.
  intros m1 e1 x. unfold SFltb, SFleb.
  destruct x as [s| s | | s m e]; cbn [SFcompare];
    try destruct s; try congruence.
  rewrite (Z.compare_antisym e e1).
  destruct (e ?= e1)%Z; cbn [CompOpp]; try congruence.
  change (PosDef.Pos.compare_cont Eq m1 m) with (Pos.compare m1 m).
  change (PosDef.Pos.compare_cont Eq m m1) with (Pos.compare m m1).
  rewrite (Pos.compare_antisym m m1).
  destruct (Pos.compare m m1); cbn [CompOpp]; congruence.
Qed.

Lemma SF_below_zero : forall x,
  SFltb x (S754_zero false) = true -> SFleb (S754_zero false) x = false.
Proof.
  intros x. unfold SFltb, SFleb.
  destruct x as [s| s | | s m e]; cbn [SFcompare]; try destruct s; congruence.
Qed.

Lemma Prim2SF_one : Prim2SF 1 = S754_finite false 4503599627370496 (-52).
Proof. vm_compute. reflexivity. Qed.

Lemma Prim2SF_zero : Prim2SF 0 = S754_zero false.
Proof. vm_compute. reflexivity. Qed.

Lemma above_one_not_leb : forall c : float, (1 <? c) = true -> (c <=? 1) = false.
Proof.
  intros c. rewrite ltb_spec, leb_spec, Prim2SF_one. apply SF_above_finite.
Qed.

Lemma below_zero_not_leb : forall c : float, (c <? 0) = true -> (0 <=? c) = false.
Proof.
  intros c. rewrite ltb_spec, leb_spec, Prim2SF_zero. apply SF_below_zero.
Qed.

(** A NaN confidence is rejected as well: every comparison with it is
    false. *)
Example new_EntityLink_nan :
  new_EntityLink 0%Z (lit "s") (lit "e") (lit "mentions") nan None
  = Raise confidence_error.
Proof. vm_compute. reflexivity. Qed.

(** C9 — Confidence bound validation.  Constructing an [EntityLink] or an
    [ExtractedEntity] with a confidence strictly below 0.0 or strictly
    above 1.0 raises the validation error; with a confidence in the closed
    interval [0.0, 1.0] both constructors return the record. *)
Theorem confidence_bound_validation :
  forall (c : float) (now : datetime) (created_at : option datetime)
         (segment_id entity_id link_type type name : pystr)
         (aliases : list pystr) (metadata : json_dict),
    ((c <? 0) = true \/ (1 <? c) = true ->
       new_EntityLink now segment_id entity_id link_type c created_at
         = Raise confidence_error
       /\ new_ExtractedEntity type name aliases c metadata
         = Raise confidence_error)
    /\ ((0 <=? c) = true /\ (c <=? 1) = true ->
       (exists l, new_EntityLink now segment_id entity_id link_type c created_at
                  = Ok l /\ link_confidence l = c)
       /\ (exists x, new_ExtractedEntity type name aliases c metadata
                  = Ok x /\ ext_confidence x = c)).
Proof.
  intros c now created sid eid lt ty nm al md. split.
  - intros Hout. unfold new_EntityLink, new_ExtractedEntity.
    assert (Hb : ((0 <=? c) && (c <=? 1))%bool = false).
    { destruct Hout as [H|H].
      - now rewrite (below_zero_not_leb c H).
      - rewrite (above_one_not_leb c H). apply andb_false_r. }
    rewrite Hb. split; reflexivity.
  - intros [H0 H1]. unfold new_EntityLink, new_ExtractedEntity.
    rewrite H0, H1. cbn [andb negb]. split; eexists; split; reflexivity.
Qed.

Lemma confidence_bound_validation_witness :
  (new_EntityLink 7%Z (lit "s") (lit "e") (lit "mentions") (-0.5) None
     = Raise confidence_error
   /\ new_ExtractedEntity (lit "gene") (lit "BRCA1") [] (-0.5) []
     = Raise confidence_error)
  /\ (new_EntityLink 7%Z (lit "s") (lit "e") (lit "mentions") 1.5 None
     = Raise confidence_error
   /\ new_ExtractedEntity (lit "gene") (lit "BRCA1") [] 1.5 []
     = Raise confidence_error)
  /\ ((exists l, new_EntityLink 7%Z (lit "s") (lit "e") (lit "mentions") 1 None
                 = Ok l /\ link_confidence l = 1)
   /\ (exists x, new_ExtractedEntity (lit "gene") (lit "BRCA1") [] 1 []
                 = Ok x /\ ext_confidence x = 1)).
Proof.
  split; [|split].
  - apply (proj1 (confidence_bound_validation (-0.5) 7%Z None
             (lit "s") (lit "e") (lit "mentions") (lit "gene") (lit "BRCA1") [] [])).
    left. vm_compute. reflexivity.
  - apply (proj1 (confidence_bound_validation 1.5 7%Z None
             (lit "s") (lit "e") (lit "mentions") (lit "gene") (lit "BRCA1") [] [])).
    right. vm_compute. reflexivity.
  - apply (proj2 (confidence_bound_validation 1 7%Z None
             (lit "s") (lit "e") (lit "mentions") (lit "gene") (lit "BRCA1") [] [])).
    split; vm_compute; reflexivity.
Defined.

End ConfidenceFacts.

(* --------------------------------------------------------------------- *)
(** ** Segment ordering *)
(* --------------------------------------------------------------------- *)

Section SegmenterFacts.
Import PyStr StableId Models Segmenter.
Local Open Scope Z_scope.

Variable sentences_per_segment : Z.
Variable clk : nat -> datetime.

Lemma fold_left_invariant :
  forall (A B : Type) (P : A -> Prop) (f : A -> B -> A) (l : list B) (a : A),
    P a -> (forall a b, P a -> P (f a b)) -> P (fold_left f l a).
Proof.
  intros A B P f l. induction l as [|b l IH]; intros a Ha Hf; simpl.
  - exact Ha.
  - apply IH; [apply Hf; exact Ha | exact Hf].
Qed.















Lemma batches_positive : forall sentences,
  0 < sentences_per_segment ->
  exists bs, batches sentences_per_segment sentences = Ok bs.
Proof.
  intros sentences Hpos. unfold batches, py_range_step.
  destruct (sentences_per_segment =? 0) eqn:E0; [lia|].
  destruct (sentences_per_segment <? 0) eqn:E1; [lia|].
  eexists. reflexivity.
Qed.

(** With a positive [sentences_per_segment] plain-text segmentation always
    returns a list. *)
Lemma segment_text_total : forall text ir_id ns uri,
  0 < sentences_per_segment ->
  exists segments,
    segment_text sentences_per_segment clk text ir_id ns uri = Ok segments.
Proof.
  intros text ir_id ns uri Hpos. unfold segment_text. cbv zeta.
  destruct (batches_positive (_split_sentences text) Hpos) as [bs ->].
  eexists. reflexivity.
Qed.


End SegmenterFacts.

Section SegmenterExamples.
Import PyStr StableId Models Segmenter.
Local Open Scope Z_scope.

(** In markdown the counter advances by the length of the whole list after
    each paragraph, so the indices increase with gaps. *)
Example segment_markdown_indices :
  match segment_markdown 1 (fun k => Z.of_nat k)
          (lit "First paragraph sentence number one. Another sentence that is long enough.
# A
Paragraph A has a first sentence. Paragraph A has a second sentence.
# B
Paragraph B has only one sentence.")
          (lit "ir") (lit "ns") (lit "file:///d.md") with
  | Ok segments => List.map segment_index segments
  | Raise _ => []
  end = [0; 1; 2; 3; 6].
Proof. vm_compute. reflexivity. Qed.


End SegmenterExamples.

(* --------------------------------------------------------------------- *)
(** ** Lists: sorting, joins, results *)
(* --------------------------------------------------------------------- *)

Section ListFacts.
Import PyStr Models Store.

Lemma insert_sorted_perm : forall (A : Type) (before : A -> A -> bool) x l,
  Permutation (insert_sorted before x l) (x :: l).
Proof.
  intros A before x l. induction l as [|y l IH]; simpl.
  - apply Permutation_refl.
  - destruct (before x y).
    + apply Permutation_refl.
    + eapply Permutation_trans; [apply perm_skip; exact IH|]. apply perm_swap.
Qed.

Lemma sort_by_perm : forall (A : Type) (before : A -> A -> bool) l,
  Permutation (sort_by before l) l.
Proof.
  intros A before l. induction l as [|x l IH]; simpl.
  - apply perm_nil.
  - eapply Permutation_trans; [apply insert_sorted_perm|].
    apply perm_skip. exact IH.
Qed.

Lemma insert_sorted_sorted :
  forall (A : Type) (before : A -> A -> bool),
    (forall a b, before a b = false -> before b a = true) ->
    forall x l,
      Sorted (fun a b => before a b = true) l ->
      Sorted (fun a b => before a b = true) (insert_sorted before x l).
Proof.
  intros A before Htot x l. induction l as [|y l IH]; intros Hs; simpl.
  - constructor; constructor.
  - destruct (before x y) eqn:Exy.
    + constructor; [exact Hs|]. constructor. exact Exy.
    + inversion Hs as [|? ? Hs' Hhd]; subst. constructor.
      * apply IH. exact Hs'.
      * destruct l as [|z l]; simpl.
        -- constructor. apply Htot. exact Exy.
        -- destruct (before x z) eqn:Exz.
           ++ constructor. apply Htot. exact Exy.
           ++ inversion Hhd; subst. constructor. assumption.
Qed.

Lemma sort_by_sorted :
  forall (A : Type) (before : A -> A -> bool),
    (forall a b, before a b = false -> before b a = true) ->
    forall l, Sorted (fun a b => before a b = true) (sort_by before l).
Proof.
  intros A before Htot l. induction l as [|x l IH]; simpl.
  - constructor.
  - apply insert_sorted_sorted; assumption.
Qed.







Lemma sequence_results_ok_inv :
  forall (A : Type) (l : list (result A)) (r : list A),
    sequence_results l = Ok r -> l = List.map Ok r.
Proof.
  intros A l. induction l as [|x l IH]; intros r H; simpl in H.
  - injection H as <-. reflexivity.
  - destruct x as [a|e]; [|discriminate].
    destruct (sequence_results l) as [r'|e]; [|discriminate].
    injection H as <-. simpl. f_equal. now apply IH.
Qed.

End ListFacts.

(* --------------------------------------------------------------------- *)
(** ** Exact recall *)
(* --------------------------------------------------------------------- *)

Section RecallFacts.
Import PyStr Models Store Recall.
Local Open Scope Z_scope.

Lemma StronglySorted_weaken :
  forall (A : Type) (R R' : A -> A -> Prop) (l : list A),
    (forall a b, R a b -> R' a b) -> StronglySorted R l -> StronglySorted R' l.
Proof.
  intros A R R' l Himp H. induction H as [|a l Hs IH Hall]; constructor.
  - exact IH.
  - eapply Forall_impl; [|exact Hall]. intros b. apply Himp.
Qed.









(** The two segments linked to the strain come back oldest first. *)
Example recall_store_e1 :
  match get_all_segments_for_entity Samples.recall_store (lit "e1") with
  | Ok results =>
      List.map (fun r => (rr_segment_id r, rr_source_uri r)) results
  | Raise _ => []
  end
  = [(lit "s2", Some (lit "file:///a.txt")); (lit "s1", Some (lit "file:///a.txt"))].
Proof. vm_compute. reflexivity. Qed.

End RecallFacts.

(* ===================================================================== *)
(** ** Running monadic code *)
(* ===================================================================== *)

Section MonadFacts.
Import Models Store.

Lemma bind_run_ok :
  forall (A B : Type) (m : M A) (k : A -> M B) w a w1,
    m w = (Ok a, w1) -> bind m k w = k a w1.
Proof. intros A B m k w a w1 H. unfold bind. rewrite H. reflexivity. Qed.

Lemma bind_run_raise :
  forall (A B : Type) (m : M A) (k : A -> M B) w e w1,
    m w = (Raise e, w1) -> bind m k w = (Raise e, w1).
Proof. intros A B m k w e w1 H. unfold bind. rewrite H. reflexivity. Qed.

Lemma bind_inv_ok :
  forall (A B : Type) (m : M A) (k : A -> M B) w b w',
    bind m k w = (Ok b, w') ->
    exists a w1, m w = (Ok a, w1) /\ k a w1 = (Ok b, w').
Proof.
  intros A B m k w b w'. unfold bind.
  destruct (m w) as [[a | e] w1]; intros H.
  - exists a, w1. split; [reflexivity | exact H].
  - discriminate H.
Qed.

Lemma find_map_stable :
  forall (A : Type) (p : A -> bool) (f : A -> A) (l : list A),
    (forall x, p (f x) = p x) ->
    find p (List.map f l) = option_map f (find p l).
Proof.
  intros A p f l Hp. induction l as [| x l IH]; simpl.
  - reflexivity.
  - rewrite Hp. destruct (p x); [reflexivity | exact IH].
Qed.

Lemma find_app_none :
  forall (A : Type) (p : A -> bool) (l l' : list A),
    find p l = None -> find p (l ++ l') = find p l'.
Proof.
  intros A p l l'. induction l as [| x l IH]; simpl.
  - reflexivity.
  - destruct (p x); [discriminate | exact IH].
Qed.

Lemma find_app_some :
  forall (A : Type) (p : A -> bool) (l l' : list A) (x : A),
    find p l = Some x -> find p (l ++ l') = Some x.
Proof.
  intros A p l l' x. induction l as [| y l IH]; simpl.
  - discriminate.
  - destruct (p y); [trivial | exact IH].
Qed.

Lemma find_none_existsb :
  forall (A : Type) (p : A -> bool) (l : list A),
    find p l = None -> existsb p l = false.
Proof.
  intros A p l. induction l as [| x l IH]; simpl.
  - reflexivity.
  - destruct (p x); [discriminate | exact IH].
Qed.

End MonadFacts.

(* ===================================================================== *)
(** ** Entity upsert *)
(* ===================================================================== *)

Section EntityFacts.
Import PyStr Models Store Readings.
Local Open Scope Z_scope.

Lemma existsb_or_false :
  forall (A : Type) (p q : A -> bool) (l : list A),
    existsb p l = false -> existsb q l = false ->
    existsb (fun x => (p x || q x)%bool) l = false.
Proof.
  intros A p q l. induction l as [| x l IH]; simpl; intros Hp Hq.
  - reflexivity.
  - apply orb_false_iff in Hp as [Hp1 Hp2].
    apply orb_false_iff in Hq as [Hq1 Hq2].
    rewrite Hp1, Hq1. simpl. now apply IH.
Qed.

(** Claim C7 as the specification words it fails: on a store where the
    strain [CCNA001] has the alias [CCNA-1] and no metadata, upserting it
    again with the alias [C-1] leaves a record without [CCNA-1]. *)
Lemma upsert_entity_drops_existing_alias :
  ~ upsert_merges Samples.sample_env Samples.recall_world Samples.renamed_strain.
Proof.
  intros H.
  destruct (H _ _ _ _ eq_refl eq_refl eq_refl) as [Ha _].
  specialize (Ha (lit "CCNA-1") (or_introl eq_refl)).
  vm_compute in Ha. destruct Ha as [Ha | []]. discriminate Ha.
Qed.

(** Claim C7, amended: when the (namespace, type, name) of the entity is
    already stored, [upsert_entity] succeeds, overwrites the aliases and
    the metadata of that record with the incoming ones, sets [updated_at]
    to the current time, keeps the stored id and [created_at], and leaves
    the number of rows unchanged; when it is not stored and the entity's
    id is unused, it appends the entity as a new row. *)
Theorem upsert_entity_overwrites_or_inserts :
  forall (E : env) (entity : Entity) (w : world),
    (forall existing,
        get_entity_by_name (db w) (ent_namespace entity) (ent_type entity)
                           (ent_name entity) = Some existing ->
        let stored :=
          mkEntity (ent_id existing) (ent_namespace entity) (ent_type entity)
                   (ent_name entity) (ent_aliases entity) (ent_metadata entity)
                   (ent_created_at existing) (clock E (tick w)) in
        exists w',
          upsert_entity E entity w = (Ok stored, w')
          /\ get_entity_by_name (db w') (ent_namespace entity)
               (ent_type entity) (ent_name entity) = Some stored
          /\ List.length (entities (db w')) = List.length (entities (db w)))
    /\ (get_entity_by_name (db w) (ent_namespace entity) (ent_type entity)
                           (ent_name entity) = None ->
        get_entity_by_id (db w) (ent_id entity) = None ->
        exists w',
          upsert_entity E entity w = (Ok entity, w')
          /\ entities (db w') = entities (db w) ++ [entity]).
Proof.
  intros E entity w. split.
  - intros existing Hfind stored.
    unfold upsert_entity, bind, get_db, utcnow, update_entity, issue, set_db.
    simpl. rewrite Hfind. simpl.
    eexists. split; [reflexivity |]. simpl. split.
    + unfold get_entity_by_name in *. simpl.
      rewrite find_map_stable.
      * rewrite Hfind. simpl. rewrite str_eqb_refl.
        apply find_some in Hfind as [_ Hkey].
        apply andb_true_iff in Hkey as [Hkey Hname].
        apply andb_true_iff in Hkey as [Hns Hty].
        apply str_eqb_eq in Hns, Hty, Hname.
        unfold stored. rewrite Hns, Hty, Hname. reflexivity.
      * intros x. destruct (str_eqb (ent_id x) (ent_id existing));
          reflexivity.
    + apply length_map.
  - intros Hname Hid.
    cbv beta delta [upsert_entity bind get_db insert_entity issue set_db ret].
    simpl. rewrite Hname. simpl.
    rewrite (existsb_or_false _
               (fun r => str_eqb (ent_id r) (ent_id entity))
               (fun r => (str_eqb (ent_namespace r) (ent_namespace entity)
                          && str_eqb (ent_type r) (ent_type entity)
                          && str_eqb (ent_name r) (ent_name entity))%bool)).
    + eexists. split; reflexivity.
    + apply find_none_existsb. exact Hid.
    + apply find_none_existsb. exact Hname.
Qed.

Lemma upsert_entity_overwrites_or_inserts_witness :
  exists w',
    upsert_entity Samples.sample_env Samples.renamed_strain
                  Samples.recall_world
    = (Ok (mkEntity (lit "e1") (lit "lab") (lit "strain") (lit "CCNA001")
                    [lit "C-1"] [(lit "lab", lit "north")] 2 40), w')
    /\ get_entity_by_name (db w') (lit "lab") (lit "strain") (lit "CCNA001")
       = Some (mkEntity (lit "e1") (lit "lab") (lit "strain") (lit "CCNA001")
                        [lit "C-1"] [(lit "lab", lit "north")] 2 40)
    /\ List.length (entities (db w')) = 2%nat.
Proof.
  apply (proj1 (upsert_entity_overwrites_or_inserts
                  Samples.sample_env Samples.renamed_strain
                  Samples.recall_world)
               (mkEntity (lit "e1") (lit "lab") (lit "strain") (lit "CCNA001")
                         [lit "CCNA-1"] [] 2 2)).
  vm_compute. reflexivity.
Defined.

End EntityFacts.

(* ===================================================================== *)
(** ** Similarity scores *)
(* ===================================================================== *)

Section ScoreFacts.
Import PyStr Models Store Readings.

Lemma Prim2SF_infinity : Prim2SF infinity = S754_infinity false.
Proof. vm_compute. reflexivity. Qed.

(** [x == 0.0] holds for the two zeros only. *)
Lemma eqb_zero_SF : forall x,
  (x =? 0)%float = true -> exists s, Prim2SF x = S754_zero s.
Proof.
  intros x H. rewrite FloatAxioms.eqb_spec, Prim2SF_zero in H.
  destruct (Prim2SF x) as [s | s | | s m e]; cbn in H.
  - exists s. reflexivity.
  - destruct s; discriminate H.
  - discriminate H.
  - destruct s; discriminate H.
Qed.

Lemma SF_not_finite : forall x,
  match Prim2SF x with
  | S754_nan | S754_infinity _ => True
  | _ => False
  end ->
  is_finite x = false.
Proof.
  intros x H. unfold is_finite, is_nan, is_infinity.
  rewrite !FloatAxioms.eqb_spec, abs_spec, Prim2SF_infinity.
  destruct (Prim2SF x) as [s | s | | s m e]; try contradiction.
  - destruct s; reflexivity.
  - reflexivity.
Qed.

(** Dividing by a product that has a zero factor never gives a finite
    number. *)
Lemma SF_div_zero_product : forall d a b,
  (exists s, a = S754_zero s) \/ (exists s, b = S754_zero s) ->
  match SF64div d (SF64mul a b) with
  | S754_nan | S754_infinity _ => True
  | _ => False
  end.
Proof.
  intros d a b [[s ->] | [s ->]].
  - destruct d, b; exact I.
  - destruct d, a; exact I.
Qed.

Lemma div_zero_product_not_finite : forall d n1 n2 : float,
  (n1 =? 0)%float = true \/ (n2 =? 0)%float = true ->
  is_finite (d / (n1 * n2))%float = false.
Proof.
  intros d n1 n2 H. apply SF_not_finite.
  rewrite div_spec, mul_spec. apply SF_div_zero_product.
  destruct H as [H | H]; [left | right]; apply eqb_zero_SF; exact H.
Qed.

Lemma firstn_incl : forall (A : Type) (n : nat) (l : list A) (x : A),
  In x (firstn n l) -> In x l.
Proof.
  intros A n. induction n as [| n IH]; intros [| y l] x H; simpl in H;
    try contradiction.
  destruct H as [H | H]; [left; exact H | right; apply IH; exact H].
Qed.

Lemma slice_to_incl : forall (A : Type) (k : Z) (l : list A) (x : A),
  In x (slice_to k l) -> In x l.
Proof.
  intros A k l x. unfold slice_to.
  destruct (0 <=? k)%Z; apply firstn_incl.
Qed.

Lemma score_row_defined : forall query e rs ir,
  List.length query = List.length (emb_vector e) ->
  exists d,
    np_dot query (emb_vector e) = Ok d
    /\ score_row query (e, rs, ir)
       = Ok (mkHit (emb_segment_id e) (seg_text rs) (seg_provenance rs)
                   (ir_source_uri ir) (ir_namespace ir)
                   (d / (np_norm query * np_norm (emb_vector e)))%float).
Proof.
  intros query e rs ir Hlen.
  unfold score_row, cosine_similarity, np_dot.
  rewrite Hlen, Nat.eqb_refl. eexists. split; reflexivity.
Qed.

Lemma sequence_results_defined :
  forall (A B : Type) (f : A -> result B) (l : list A),
    Forall (fun a => exists b, f a = Ok b) l ->
    exists r, sequence_results (List.map f l) = Ok r
              /\ Forall (fun b => exists a, In a l /\ f a = Ok b) r.
Proof.
  intros A B f l H. induction H as [| a l [b Hb] _ [r [Hr Hall]]]; simpl.
  - exists []. split; constructor.
  - rewrite Hb, Hr. exists (b :: r). split; [reflexivity |].
    constructor.
    + exists a. split; [left; reflexivity | exact Hb].
    + eapply Forall_impl; [| exact Hall].
      intros b' [a' [Hin Ha']]. exists a'. split; [right; exact Hin | exact Ha'].
Qed.

(** Claim C5 as the specification words it fails: with an all-zero
    stored vector the candidate's score is NaN, not 0. *)
Lemma zero_norm_score_is_not_zero :
  ~ zero_norm_scores_zero Samples.zero_vector_store [1%float; 0%float] 5 None.
Proof.
  intros [hits [Hrun Hzero]].
  assert (Hrow : exists row h,
             In row (embedding_rows Samples.zero_vector_store None)
             /\ score_row [1%float; 0%float] row = Ok h
             /\ search_by_embedding Samples.zero_vector_store
                  [1%float; 0%float] 5 None = Ok [h]
             /\ (np_norm (emb_vector (fst (fst row))) =? 0)%float = true
             /\ is_nan (hit_score h) = true).
  { vm_compute. do 2 eexists.
    split; [left; reflexivity |]. repeat split; reflexivity. }
  destruct Hrow as [row [h [Hin [Hscore [Hsearch [Hnorm Hnan]]]]]].
  rewrite Hsearch in Hrun. injection Hrun as <-.
  specialize (Hzero row h Hin Hscore (or_introl eq_refl) (or_intror Hnorm)).
  rewrite Hzero in Hnan. vm_compute in Hnan. discriminate Hnan.
Qed.

(** Claim C5, amended: when every candidate vector has the length of the
    query, [search_by_embedding] returns without raising, and the score of
    every hit is [dot(query, v) / (norm(query) * norm(v))] for the vector
    [v] of a candidate row; there is no zero-norm guard, so when the query
    or the stored vector has norm zero that quotient, and with it the
    score, is NaN or an infinity, never a substituted 0. *)
Theorem search_scores_unguarded_cosine :
  forall (s : store) (query : list float) (top_k : Z)
         (namespace : option pystr),
    Forall (fun row => List.length query
                       = List.length (emb_vector (fst (fst row))))
           (embedding_rows s namespace) ->
    exists hits,
      search_by_embedding s query top_k namespace = Ok hits
      /\ Forall
           (fun h =>
              exists e rs ir d,
                In (e, rs, ir) (embedding_rows s namespace)
                /\ np_dot query (emb_vector e) = Ok d
                /\ h = mkHit (emb_segment_id e) (seg_text rs)
                             (seg_provenance rs) (ir_source_uri ir)
                             (ir_namespace ir)
                             (d / (np_norm query * np_norm (emb_vector e)))%float
                /\ ((np_norm query =? 0)%float = true
                    \/ (np_norm (emb_vector e) =? 0)%float = true ->
                    is_finite (hit_score h) = false))
           hits.
Proof.
  intros s query top_k namespace Hlen.
  unfold search_by_embedding.
  destruct (embedding_rows s namespace) as [| row0 rows] eqn:Hrows.
  - exists []. split; constructor.
  - destruct (sequence_results_defined _ _ (score_row query) (row0 :: rows))
      as [scored [Hseq Hscored]].
    { eapply Forall_impl; [| exact Hlen].
      intros [[e rs] ir] He.
      destruct (score_row_defined query e rs ir He) as [d [_ Hd]].
      eexists. exact Hd. }
    rewrite Hseq. eexists. split; [reflexivity |].
    apply Forall_forall. intros h Hh.
    apply slice_to_incl in Hh.
    apply (Permutation_in _ (sort_by_perm _ _ scored)) in Hh.
    rewrite Forall_forall in Hscored, Hlen.
    destruct (Hscored h Hh) as [[[e rs] ir] [Hin Hrow]].
    destruct (score_row_defined query e rs ir (Hlen _ Hin)) as [d [Hdot Hd]].
    rewrite Hd in Hrow. injection Hrow as <-.
    exists e, rs, ir, d. repeat split; try assumption.
    intros Hnorm. simpl. apply div_zero_product_not_finite. exact Hnorm.
Qed.

Lemma search_scores_unguarded_cosine_witness :
  exists hits,
    search_by_embedding Samples.zero_vector_store [1%float; 0%float] 5
                        (Some (lit "lab")) = Ok hits
    /\ Forall
         (fun h =>
            exists e rs ir d,
              In (e, rs, ir)
                 (embedding_rows Samples.zero_vector_store (Some (lit "lab")))
              /\ np_dot [1%float; 0%float] (emb_vector e) = Ok d
              /\ h = mkHit (emb_segment_id e) (seg_text rs)
                           (seg_provenance rs) (ir_source_uri ir)
                           (ir_namespace ir)
                           (d / (np_norm [1%float; 0%float]
                                 * np_norm (emb_vector e)))%float
              /\ ((np_norm [1%float; 0%float] =? 0)%float = true
                  \/ (np_norm (emb_vector e) =? 0)%float = true ->
                  is_finite (hit_score h) = false))
         hits.
Proof.
  apply (search_scores_unguarded_cosine Samples.zero_vector_store
           [1%float; 0%float] 5 (Some (lit "lab"))).
  vm_compute. repeat constructor.
Defined.

End ScoreFacts.

(* ===================================================================== *)
(** ** Frames of monadic code *)
(* ===================================================================== *)

Section FrameAlgebra.
Import Models Store Pipeline Frames.

Variable R : world -> world -> Prop.
Hypothesis R_refl : forall w, R w w.
Hypothesis R_trans : forall a b c, R a b -> R b c -> R a c.

Lemma preserves_ret : forall (A : Type) (a : A), preserves R (ret a).
Proof. intros A a w. apply R_refl. Qed.

Lemma preserves_raise : forall (A : Type) (e : exn), preserves R (@raise A e).
Proof. intros A e w. apply R_refl. Qed.

Lemma preserves_lift : forall (A : Type) (r : result A), preserves R (lift r).
Proof. intros A [a | e] w; apply R_refl. Qed.

Lemma preserves_get_db : preserves R get_db.
Proof. intros w. apply R_refl. Qed.

Lemma preserves_bind :
  forall (A B : Type) (m : M A) (k : A -> M B),
    preserves R m -> (forall a, preserves R (k a)) -> preserves R (bind m k).
Proof.
  intros A B m k Hm Hk w. unfold bind.
  specialize (Hm w). destruct (m w) as [[a | e] w1]; simpl in *.
  - apply R_trans with w1; [exact Hm | apply Hk].
  - exact Hm.
Qed.

Lemma preserves_mapM :
  forall (A B : Type) (f : A -> M B) (l : list A),
    (forall a, preserves R (f a)) -> preserves R (mapM f l).
Proof.
  intros A B f l Hf. induction l as [| a l IH]; simpl.
  - apply preserves_ret.
  - apply preserves_bind; [apply Hf |]. intros b.
    apply preserves_bind; [exact IH |]. intros bs. apply preserves_ret.
Qed.

Lemma preserves_foldM :
  forall (A B : Type) (f : A -> B -> M A) (l : list B),
    (forall a b, preserves R (f a b)) -> forall a, preserves R (foldM f l a).
Proof.
  intros A B f l Hf. induction l as [| b l IH]; intros a; simpl.
  - apply preserves_ret.
  - apply preserves_bind; [apply Hf | exact IH].
Qed.

(** Relations that do not look at the clock counter. *)
Hypothesis R_tick : forall w n, R w (mkWorld (db w) n (writes w)).

Lemma preserves_utcnow : forall E, preserves R (utcnow E).
Proof. intros E w. apply R_tick. Qed.

Lemma preserves_new_uuid : forall E, preserves R (new_uuid E).
Proof. intros E w. apply R_tick. Qed.

Lemma preserves_run_segmenter : forall E f, preserves R (run_segmenter E f).
Proof.
  intros E f w. unfold run_segmenter.
  destruct (f _); simpl; [apply R_tick | apply R_refl].
Qed.

Lemma preserves_read_bytes : forall E p, preserves R (read_bytes E p).
Proof.
  intros E p. unfold read_bytes.
  destruct (fs_read E p); [apply preserves_ret | apply preserves_raise].
Qed.

Lemma preserves_read_text : forall E p, preserves R (read_text E p).
Proof.
  intros E p. unfold read_text.
  apply preserves_bind; [apply preserves_read_bytes |]. intros content.
  destruct (decode_text E content); [apply preserves_ret | apply preserves_raise].
Qed.

End FrameAlgebra.

Section LogFacts.
Import Models Store Pipeline Frames.

Lemma log_grows_refl : forall P w, log_grows P w w.
Proof. intros P w. exists []. split; [reflexivity | constructor]. Qed.

Lemma log_grows_trans : forall P a b c,
  log_grows P a b -> log_grows P b c -> log_grows P a c.
Proof.
  intros P a b c [n1 [H1 F1]] [n2 [H2 F2]]. exists (n2 ++ n1). split.
  - rewrite H2, H1. apply app_assoc.
  - apply Forall_app. split; assumption.
Qed.

Lemma log_grows_one : forall (P : sql_write -> Prop) w w' q,
  writes w' = q :: writes w -> P q -> log_grows P w w'.
Proof.
  intros P w w' q H Hq. exists [q]. split; [exact H | repeat constructor; exact Hq].
Qed.

Lemma log_grows_same : forall P w w',
  writes w' = writes w -> log_grows P w w'.
Proof. intros P w w' H. exists []. split; [exact H | constructor]. Qed.


Lemma keeps_documents_refl : forall w, keeps_documents w w.
Proof. intros w. repeat split. apply log_grows_refl. Qed.

Lemma keeps_documents_trans : forall a b c,
  keeps_documents a b -> keeps_documents b c -> keeps_documents a c.
Proof.
  intros a b c [I1 [S1 L1]] [I2 [S2 L2]]. repeat split.
  - congruence.
  - congruence.
  - eapply log_grows_trans; eassumption.
Qed.

Lemma keeps_documents_tick : forall w n,
  keeps_documents w (mkWorld (db w) n (writes w)).
Proof. intros w n. repeat split. apply log_grows_same. reflexivity. Qed.

End LogFacts.

(* ===================================================================== *)
(** ** Linking and embedding leave documents alone *)
(* ===================================================================== *)

Section LinkingFrames.
Import PyStr Models Store Pipeline Frames.

Variable E : env.

Ltac kd_bind :=
  apply (preserves_bind keeps_documents keeps_documents_trans); [| intro].

Ltac kd_leaf :=
  first [ apply (preserves_ret keeps_documents keeps_documents_refl)
        | apply (preserves_raise keeps_documents keeps_documents_refl)
        | apply (preserves_lift keeps_documents keeps_documents_refl)
        | apply (preserves_get_db keeps_documents keeps_documents_refl)
        | apply (preserves_utcnow keeps_documents keeps_documents_tick)
        | apply (preserves_new_uuid keeps_documents keeps_documents_tick) ].

Ltac kd_write :=
  intro w; cbv beta delta [bind issue get_db set_db raise ret]; simpl;
  repeat match goal with
         | |- context [if ?c then _ else _] => destruct c; simpl
         end;
  (split; [reflexivity | split; [reflexivity |]]);
  first [ eapply log_grows_one; [reflexivity | split; reflexivity]
        | apply log_grows_same; reflexivity ].








Lemma add_embedding_keeps_documents :
  forall segment_id model vector,
    preserves keeps_documents (add_embedding E segment_id model vector).
Proof.
  intros segment_id model vector. unfold add_embedding.
  kd_bind; [kd_leaf |]. kd_write.
Qed.

Lemma embed_segments_keeps_documents :
  forall segments, preserves keeps_documents (_embed_segments E segments).
Proof.
  intros segments. unfold _embed_segments. kd_bind; [kd_leaf |].
  destruct (filter _ segments); [kd_leaf |].
  unfold bulk_add_embeddings. kd_bind; [| kd_leaf].
  apply (preserves_mapM keeps_documents keeps_documents_refl
           keeps_documents_trans).
  intros p. apply add_embedding_keeps_documents.
Qed.

End LinkingFrames.

(* ===================================================================== *)
(** ** Storing segments *)
(* ===================================================================== *)

Section SegmentStoreFacts.
Import PyStr Models Store Pipeline Frames.

(** [upsert_segment] always returns: it updates when the id is stored and
    inserts otherwise, and logs the one statement it sends. *)
Lemma upsert_segment_run : forall segment w,
  upsert_segment segment w =
  match get_segment_by_id (db w) (seg_id segment) with
  | Some existing =>
      (Ok (mkSegment (seg_id segment) (seg_ir_id segment)
                     (segment_index segment) (seg_text segment)
                     (seg_provenance segment) (seg_text_hash segment)
                     (seg_created_at existing)),
       mkWorld
         (set_segments (db w)
            (List.map (fun r =>
               if str_eqb (seg_id r) (seg_id segment)
               then mkSegment (seg_id r) (seg_ir_id r) (segment_index r)
                              (seg_text segment) (seg_provenance segment)
                              (seg_text_hash segment) (seg_created_at r)
               else r)
             (resource_segments (db w))))
         (tick w) (UpdateSegment (seg_id segment) :: writes w))
  | None =>
      (Ok segment,
       mkWorld (set_segments (db w) (resource_segments (db w) ++ [segment]))
               (tick w) (InsertSegment (seg_id segment) :: writes w))
  end.
Proof.
  intros segment w.
  cbv beta delta [upsert_segment update_segment insert_segment bind get_db
                  set_db issue ret raise].
  simpl. destruct (get_segment_by_id (db w) (seg_id segment)) eqn:Hfind.
  - reflexivity.
  - simpl. unfold get_segment_by_id in Hfind.
    rewrite (find_none_existsb _ _ _ Hfind). reflexivity.
Qed.

Lemma upsert_segment_total : forall segment w,
  exists stored w1 q,
    upsert_segment segment w = (Ok stored, w1)
    /\ seg_id stored = seg_id segment
    /\ seg_text stored = seg_text segment
    /\ information_resources (db w1) = information_resources (db w)
    /\ entities (db w1) = entities (db w)
    /\ tick w1 = tick w
    /\ writes w1 = q :: writes w
    /\ is_segment_write q = true
    /\ is_ir_write q = false.
Proof.
  intros segment w. rewrite upsert_segment_run.
  destruct (get_segment_by_id (db w) (seg_id segment));
    do 3 eexists; repeat split.
Qed.

(** What [bulk_upsert_segments] does whatever the store holds: it
    returns the segments with ids and texts as given, sends one segment
    statement per segment and touches nothing but [resource_segments]. *)
Lemma bulk_upsert_segments_run : forall segments w,
  exists stored w',
    bulk_upsert_segments segments w = (Ok stored, w')
    /\ List.map seg_id stored = List.map seg_id segments
    /\ List.map seg_text stored = List.map seg_text segments
    /\ information_resources (db w') = information_resources (db w)
    /\ entities (db w') = entities (db w)
    /\ tick w' = tick w
    /\ exists new,
         writes w' = new ++ writes w
         /\ List.length new = List.length segments
         /\ Forall (fun q => is_segment_write q = true
                             /\ is_ir_write q = false) new.
Proof.
  unfold bulk_upsert_segments.
  induction segments as [| segment segments IH]; intros w; simpl.
  - exists [], w. unfold ret. repeat split; try reflexivity.
    exists []. repeat split. constructor.
  - destruct (upsert_segment_total segment w)
      as [s1 [w1 [q [Hstep [Hid1 [Htext1 [Hir1 [Hent1 [Htick1 [Hw1 [Hq1 Hq2]]]]]]]]]]].
    destruct (IH w1)
      as [stored [w' [Hrun [Hid [Htext [Hir [Hent [Htick [new [Hw [Hlen Hall]]]]]]]]]]].
    rewrite (bind_run_ok _ _ _ _ _ _ _ Hstep).
    rewrite (bind_run_ok _ _ _ _ _ _ _ Hrun). unfold ret.
    exists (s1 :: stored), w'. split; [reflexivity |]. simpl.
    rewrite Hid, Htext, Hid1, Htext1.
    repeat split; try congruence.
    exists (new ++ [q]). split; [| split].
    + rewrite Hw, Hw1, <- app_assoc. reflexivity.
    + rewrite length_app, Hlen. simpl. apply Nat.add_comm.
    + apply Forall_app. split; [exact Hall | repeat constructor; assumption].
Qed.

End SegmentStoreFacts.

(* ===================================================================== *)
(** ** Re-ingesting an unchanged file *)
(* ===================================================================== *)

Section ReingestFacts.
Import PyStr StableId Models Segmenter Store Pipeline Frames Readings.


Lemma run_segmenter_ok : forall E f w segments w1,
  run_segmenter E f w = (Ok segments, w1) ->
  f (fun k => clock E (tick w + k)%nat) = Ok segments
  /\ w1 = mkWorld (db w) (tick w + List.length segments)%nat (writes w).
Proof.
  intros E f w segments w1. unfold run_segmenter.
  destruct (f _) as [l | e]; intros H; [| discriminate].
  injection H as <- <-. split; reflexivity.
Qed.

(** A registered file whose content hash is the stored one: the stored
    resource is returned and nothing at all is changed. *)
Lemma register_ir_unchanged :
  forall E path namespace source_type metadata w content existing,
    fs_read E path = Some content ->
    get_ir_by_uri (db w) namespace (source_uri_of E path) = Some existing ->
    ir_content_hash existing = generate_content_hash content ->
    _register_ir E path namespace source_type metadata w = (Ok existing, w).
Proof.
  intros E path namespace source_type metadata w content existing
         Hread Hfind Hhash.
  unfold _register_ir, read_bytes. rewrite Hread.
  cbv beta delta [bind ret get_db]. simpl. rewrite Hfind, Hhash.
  rewrite str_eqb_refl. reflexivity.
Qed.





End ReingestFacts.

(* ===================================================================== *)
(** ** The segmenter and the clock *)
(* ===================================================================== *)

Section ClockFacts.
Import PyStr StableId Models Segmenter Store Pipeline Shapes.
Local Open Scope Z_scope.

Variable sentences_per_segment : Z.
Variables clk1 clk2 : nat -> datetime.

Lemma fold_left_related :
  forall (A B : Type) (R : A -> A -> Prop) (f g : A -> B -> A) (l : list B),
    (forall x a a', R a a' -> R (f a x) (g a' x)) ->
    forall a a', R a a' -> R (fold_left f l a) (fold_left g l a').
Proof.
  intros A B R f g l Hstep. induction l as [| x l IH]; intros a a' H; simpl.
  - exact H.
  - apply IH. apply Hstep. exact H.
Qed.

Lemma untimed_length : forall l l',
  List.map untimed l = List.map untimed l' -> List.length l = List.length l'.
Proof.
  intros l l' H. apply (f_equal (@List.length _)) in H.
  rewrite !length_map in H. exact H.
Qed.

Lemma untimed_snoc : forall l l' s s',
  List.map untimed l = List.map untimed l' -> untimed s = untimed s' ->
  List.map untimed (l ++ [s]) = List.map untimed (l' ++ [s']).
Proof. intros l l' s s' H Hs. rewrite !map_app. simpl. now rewrite H, Hs. Qed.

Lemma untimed_app : forall l l' m m',
  List.map untimed l = List.map untimed l' ->
  List.map untimed m = List.map untimed m' ->
  List.map untimed (l ++ m) = List.map untimed (l' ++ m').
Proof. intros l l' m m' H1 H2. rewrite !map_app. now rewrite H1, H2. Qed.

Lemma text_step_untimed : forall ir_id namespace source_uri ib segments segments',
  List.map untimed segments = List.map untimed segments' ->
  List.map untimed (text_step clk1 ir_id namespace source_uri segments ib)
  = List.map untimed (text_step clk2 ir_id namespace source_uri segments' ib).
Proof.
  intros ir_id namespace source_uri [sent_idx batch] segments segments' H.
  unfold text_step. destruct (negb _); [exact H |].
  apply untimed_snoc; [exact H |].
  unfold untimed, new_ResourceSegment. simpl.
  rewrite (untimed_length _ _ H). reflexivity.
Qed.

Lemma paragraph_step_untimed :
  forall heading para_index ir_id namespace source_uri start_index
         built built' ib segments segments',
    List.map untimed segments = List.map untimed segments' ->
    List.map untimed
      (paragraph_step clk1 heading para_index ir_id namespace source_uri
                      start_index built segments ib)
    = List.map untimed
        (paragraph_step clk2 heading para_index ir_id namespace source_uri
                        start_index built' segments' ib).
Proof.
  intros heading para_index ir_id namespace source_uri start_index
         built built' [sent_idx batch] segments segments' H.
  unfold paragraph_step. destruct (negb _); [exact H |].
  apply untimed_snoc; [exact H |].
  unfold untimed, new_ResourceSegment. simpl.
  rewrite (untimed_length _ _ H). reflexivity.
Qed.

Lemma segment_paragraph_untimed :
  forall para_lines heading para_index ir_id namespace source_uri start_index
         built built' new1,
    _segment_paragraph sentences_per_segment clk1 para_lines heading para_index
      ir_id namespace source_uri start_index built = Ok new1 ->
    exists new2,
      _segment_paragraph sentences_per_segment clk2 para_lines heading
        para_index ir_id namespace source_uri start_index built' = Ok new2
      /\ List.map untimed new1 = List.map untimed new2.
Proof.
  intros para_lines heading para_index ir_id namespace source_uri start_index
         built built' new1.
  unfold _segment_paragraph. cbv zeta.
  destruct (batches _ _) as [bs | e]; [| discriminate].
  intros H. injection H as <-. eexists. split; [reflexivity |].
  apply (fold_left_related _ _
           (fun a a' => List.map untimed a = List.map untimed a')).
  - intros ib a a' Ha. apply paragraph_step_untimed. exact Ha.
  - reflexivity.
Qed.

Lemma pages_batch_step_untimed :
  forall namespace source_uri ir_id page_num ib
         (acc acc' : list ResourceSegment * Z),
    List.map untimed (fst acc) = List.map untimed (fst acc')
    /\ snd acc = snd acc' ->
    List.map untimed
      (fst (pages_batch_step clk1 namespace source_uri ir_id page_num acc ib))
    = List.map untimed
        (fst (pages_batch_step clk2 namespace source_uri ir_id page_num acc' ib))
    /\ snd (pages_batch_step clk1 namespace source_uri ir_id page_num acc ib)
       = snd (pages_batch_step clk2 namespace source_uri ir_id page_num acc' ib).
Proof.
  intros namespace source_uri ir_id page_num [sent_idx batch]
         [segments index] [segments' index'] [H Hi].
  simpl in H, Hi. subst index'. unfold pages_batch_step.
  destruct (negb _); simpl; [split; [exact H | reflexivity] |].
  split; [| reflexivity].
  apply untimed_snoc; [exact H |].
  unfold untimed, new_ResourceSegment. reflexivity.
Qed.

Lemma segment_pages_loop_untimed :
  forall namespace source_uri ir_id pages
         (acc acc' acc1 : list ResourceSegment * Z),
    List.map untimed (fst acc) = List.map untimed (fst acc')
    /\ snd acc = snd acc' ->
    segment_pages_loop sentences_per_segment clk1 namespace source_uri ir_id
      pages acc = Ok acc1 ->
    exists acc2,
      segment_pages_loop sentences_per_segment clk2 namespace source_uri ir_id
        pages acc' = Ok acc2
      /\ List.map untimed (fst acc1) = List.map untimed (fst acc2)
      /\ snd acc1 = snd acc2.
Proof.
  intros namespace source_uri ir_id pages.
  induction pages as [| [page_num text] rest IH]; intros acc acc' acc1 H; simpl.
  - intros Hok. injection Hok as <-. exists acc'. split; [reflexivity | exact H].
  - destruct (_split_sentences text) as [| s0 sentences]; [apply IH; exact H |].
    destruct (batches _ _) as [bs | e]; [| discriminate].
    apply IH.
    apply (fold_left_related _ _
             (fun a a' : list ResourceSegment * Z =>
                List.map untimed (fst a) = List.map untimed (fst a')
                /\ snd a = snd a')).
    + intros ib a a' Ha. apply pages_batch_step_untimed. exact Ha.
    + exact H.
Qed.

End ClockFacts.

Section ClockFree.
Import PyStr StableId Models Segmenter Store Pipeline Shapes.
Local Open Scope Z_scope.

Variable sentences_per_segment : Z.

Lemma markdown_line_untimed :
  forall clk1 clk2 ir_id namespace source_uri line segments segments'
         index heading para para_index st1,
    List.map untimed segments = List.map untimed segments' ->
    markdown_line sentences_per_segment clk1 ir_id namespace source_uri
      (mkMd segments index heading para para_index) line = Ok st1 ->
    exists segments2,
      markdown_line sentences_per_segment clk2 ir_id namespace source_uri
        (mkMd segments' index heading para para_index) line
      = Ok (mkMd segments2 (md_global_index st1) (md_current_heading st1)
                 (md_current_para st1) (md_para_index st1))
      /\ List.map untimed (md_segments st1) = List.map untimed segments2.
Proof.
  intros clk1 clk2 ir_id namespace source_uri line segments segments'
         index heading para para_index st1 H.
  unfold markdown_line. simpl.
  destruct (startswith_char hash_sign line).
  - destruct para as [| p0 para].
    + intros Hok. injection Hok as <-. simpl. eexists. split; [reflexivity | exact H].
    + destruct (_segment_paragraph sentences_per_segment clk1 _ _ _ _ _ _ _ _)
        as [new1 | e] eqn:Hpara; [| discriminate].
      intros Hok. injection Hok as <-. simpl.
      destruct (segment_paragraph_untimed sentences_per_segment clk1 clk2
                  _ _ _ _ _ _ _ _ (List.length segments') _ Hpara)
        as [new2 [Hpara2 Hnew]].
      rewrite Hpara2. eexists. split.
      * rewrite !length_app, (untimed_length _ _ H), (untimed_length _ _ Hnew).
        reflexivity.
      * apply untimed_app; assumption.
  - destruct (truthy (strip line)); intros Hok; injection Hok as <-; simpl;
      eexists; (split; [reflexivity | exact H]).
Qed.

Lemma markdown_lines_untimed :
  forall clk1 clk2 ir_id namespace source_uri lines segments segments'
         index heading para para_index st1,
    List.map untimed segments = List.map untimed segments' ->
    markdown_lines sentences_per_segment clk1 ir_id namespace source_uri lines
      (mkMd segments index heading para para_index) = Ok st1 ->
    exists segments2,
      markdown_lines sentences_per_segment clk2 ir_id namespace source_uri lines
        (mkMd segments' index heading para para_index)
      = Ok (mkMd segments2 (md_global_index st1) (md_current_heading st1)
                 (md_current_para st1) (md_para_index st1))
      /\ List.map untimed (md_segments st1) = List.map untimed segments2.
Proof.
  intros clk1 clk2 ir_id namespace source_uri lines.
  induction lines as [| line lines IH];
    intros segments segments' index heading para para_index st1 H; simpl.
  - intros Hok. injection Hok as <-. simpl. eexists. split; [reflexivity | exact H].
  - destruct (markdown_line sentences_per_segment clk1 _ _ _ _ line)
      as [[sg ix hd pa pi] | e] eqn:Hline; [| discriminate].
    destruct (markdown_line_untimed clk1 clk2 _ _ _ _ _ _ _ _ _ _ _ H Hline)
      as [sg2 [Hline2 Hsg]].
    rewrite Hline2. simpl in *. intros Hrest.
    apply (IH _ _ _ _ _ _ _ Hsg Hrest).
Qed.

Lemma segment_text_clock_free : forall text ir_id namespace source_uri,
  clock_free (fun clk => segment_text sentences_per_segment clk text ir_id
                           namespace source_uri).
Proof.
  intros text ir_id namespace source_uri clk1 clk2 segments1.
  unfold segment_text. cbv zeta.
  destruct (batches _ _) as [bs | e]; [| discriminate].
  intros H. injection H as <-. eexists. split; [reflexivity |].
  apply (fold_left_related _ _
           (fun a a' => List.map untimed a = List.map untimed a')).
  - intros ib a a' Ha. apply text_step_untimed. exact Ha.
  - reflexivity.
Qed.

Lemma segment_markdown_clock_free : forall text ir_id namespace source_uri,
  clock_free (fun clk => segment_markdown sentences_per_segment clk text ir_id
                           namespace source_uri).
Proof.
  intros text ir_id namespace source_uri clk1 clk2 segments1.
  unfold segment_markdown. cbv zeta.
  destruct (markdown_lines sentences_per_segment clk1 _ _ _ _ _)
    as [[sg ix hd pa pi] | e] eqn:Hlines; [| discriminate].
  destruct (markdown_lines_untimed clk1 clk2 _ _ _ _ _ _ _ _ _ _ _
              eq_refl Hlines) as [sg2 [Hlines2 Hsg]].
  rewrite Hlines2. simpl in *.
  destruct pa as [| p0 pa].
  - intros H. injection H as <-. eexists. split; [reflexivity | exact Hsg].
  - destruct (_segment_paragraph sentences_per_segment clk1 _ _ _ _ _ _ _ _)
      as [new1 | e] eqn:Hpara; [| discriminate].
    intros H. injection H as <-.
    destruct (segment_paragraph_untimed sentences_per_segment clk1 clk2
                _ _ _ _ _ _ _ _ (List.length sg2) _ Hpara)
      as [new2 [Hpara2 Hnew]].
    rewrite Hpara2. eexists. split; [reflexivity |].
    apply untimed_app; assumption.
Qed.

Lemma segment_pages_clock_free : forall pages ir_id namespace source_uri,
  clock_free (fun clk => segment_pages sentences_per_segment clk pages ir_id
                           namespace source_uri).
Proof.
  intros pages ir_id namespace source_uri clk1 clk2 segments1.
  unfold segment_pages.
  destruct (segment_pages_loop sentences_per_segment clk1 _ _ _ _ _)
    as [[sg ix] | e] eqn:Hloop; [| discriminate].
  intros H. injection H as <-.
  destruct (segment_pages_loop_untimed sentences_per_segment clk1 clk2
              _ _ _ _ ([], 0) ([], 0) _ (conj eq_refl eq_refl) Hloop)
    as [[sg2 ix2] [Hloop2 [Hsg _]]].
  rewrite Hloop2. eexists. split; [reflexivity | exact Hsg].
Qed.

End ClockFree.

(* ===================================================================== *)
(** ** Loops that return *)
(* ===================================================================== *)

Section LoopFacts.
Import Models Store Pipeline Frames.

Variable G : world -> world -> Prop.
Hypothesis G_refl : forall w, G w w.
Hypothesis G_trans : forall a b c, G a b -> G b c -> G a c.

Lemma preserved_run :
  forall (A : Type) (m : M A) w r w',
    preserves G m -> m w = (r, w') -> G w w'.
Proof. intros A m w r w' Hm Hrun. specialize (Hm w). now rewrite Hrun in Hm. Qed.

(** A post-condition of every iteration that later iterations cannot
    undo holds of all elements when the loop returns. *)
Lemma mapM_ok_all :
  forall (A B : Type) (f : A -> M B) (Q : A -> world -> Prop),
    (forall a w w', Q a w -> G w w' -> Q a w') ->
    (forall a, preserves G (f a)) ->
    (forall a w b w', f a w = (Ok b, w') -> Q a w') ->
    forall l w bs w',
      mapM f l w = (Ok bs, w') -> Forall (fun a => Q a w') l.
Proof.
  intros A B f Q Hstable Hpres Hpost.
  induction l as [| a l IH]; intros w bs w' Hrun; simpl in Hrun.
  - constructor.
  - apply bind_inv_ok in Hrun as [b [w1 [Ha Hrun]]].
    apply bind_inv_ok in Hrun as [bs' [w2 [Hl Hrun]]].
    unfold ret in Hrun. injection Hrun as <- <-.
    constructor.
    + apply Hstable with w1; [eapply Hpost; exact Ha |].
      eapply preserved_run; [| exact Hl].
      apply preserves_mapM; assumption.
    + eapply IH. exact Hl.
Qed.

Lemma foldM_ok_all :
  forall (A B : Type) (f : A -> B -> M A) (Q : B -> world -> Prop),
    (forall b w w', Q b w -> G w w' -> Q b w') ->
    (forall a b, preserves G (f a b)) ->
    (forall a b w a' w', f a b w = (Ok a', w') -> Q b w') ->
    forall l a w a' w',
      foldM f l a w = (Ok a', w') -> Forall (fun b => Q b w') l.
Proof.
  intros A B f Q Hstable Hpres Hpost.
  induction l as [| b l IH]; intros a w a' w' Hrun; simpl in Hrun.
  - constructor.
  - apply bind_inv_ok in Hrun as [a1 [w1 [Hb Hrun]]].
    constructor.
    + apply Hstable with w1; [eapply Hpost; exact Hb |].
      eapply preserved_run; [| exact Hrun].
      apply preserves_foldM; assumption.
    + eapply IH. exact Hrun.
Qed.

(** A loop whose every iteration returns when its element's
    precondition holds, and keeps the preconditions, returns. *)
Lemma mapM_total :
  forall (A B : Type) (f : A -> M B) (P : A -> world -> Prop)
         (Q : A -> B -> Prop),
    (forall a w w', P a w -> G w w' -> P a w') ->
    (forall a w, P a w ->
       exists b w', f a w = (Ok b, w') /\ G w w' /\ Q a b) ->
    forall l w,
      Forall (fun a => P a w) l ->
      exists bs w', mapM f l w = (Ok bs, w') /\ G w w' /\ Forall2 Q l bs.
Proof.
  intros A B f P Q Hstable Hstep.
  induction l as [| a l IH]; intros w Hall; simpl.
  - exists [], w. repeat split; [apply G_refl | constructor].
  - inversion Hall as [| a' l' Ha Hl]; subst.
    destruct (Hstep a w Ha) as [b [w1 [Hrun [HG HQ]]]].
    destruct (IH w1) as [bs [w2 [Hrun2 [HG2 HQ2]]]].
    { eapply Forall_impl; [| exact Hl]. intros x Hx.
      apply Hstable with w; assumption. }
    rewrite (bind_run_ok _ _ _ _ _ _ _ Hrun).
    rewrite (bind_run_ok _ _ _ _ _ _ _ Hrun2). unfold ret.
    exists (b :: bs), w2. repeat split.
    + apply G_trans with w1; assumption.
    + constructor; assumption.
Qed.

Lemma foldM_total :
  forall (A B : Type) (f : A -> B -> M A) (P : B -> world -> Prop),
    (forall b w w', P b w -> G w w' -> P b w') ->
    (forall a b w, P b w -> exists a' w', f a b w = (Ok a', w') /\ G w w') ->
    forall l a w,
      Forall (fun b => P b w) l ->
      exists a' w', foldM f l a w = (Ok a', w') /\ G w w'.
Proof.
  intros A B f P Hstable Hstep.
  induction l as [| b l IH]; intros a w Hall; simpl.
  - exists a, w. split; [reflexivity | apply G_refl].
  - inversion Hall as [| b' l' Hb Hl]; subst.
    destruct (Hstep a b w Hb) as [a1 [w1 [Hrun HG]]].
    destruct (IH a1 w1) as [a2 [w2 [Hrun2 HG2]]].
    { eapply Forall_impl; [| exact Hl]. intros x Hx.
      apply Hstable with w; assumption. }
    rewrite (bind_run_ok _ _ _ _ _ _ _ Hrun).
    exists a2, w2. split; [exact Hrun2 | apply G_trans with w1; assumption].
Qed.

End LoopFacts.

(* ===================================================================== *)
(** ** What a first ingestion adds *)
(* ===================================================================== *)

Section GrowthFacts.
Import PyStr StableId Models Segmenter Store Pipeline Frames Shapes.

Lemma grows_refl : forall w, grows w w.
Proof.
  intros w. split; [reflexivity |].
  split; exists []; symmetry; apply app_nil_r.
Qed.

Lemma grows_trans : forall a b c, grows a b -> grows b c -> grows a c.
Proof.
  intros a b c [I1 [[s1 S1] [e1 E1]]] [I2 [[s2 S2] [e2 E2]]].
  split; [congruence |]. split.
  - exists (s1 ++ s2). rewrite S2, S1. symmetry. apply app_assoc.
  - exists (e1 ++ e2). rewrite E2, E1. symmetry. apply app_assoc.
Qed.

Lemma grows_tick : forall w n, grows w (mkWorld (db w) n (writes w)).
Proof. intros w n. exact (grows_refl (mkWorld (db w) (tick w) (writes w))). Qed.

Lemma core_unchanged_refl : forall w, core_unchanged w w.
Proof. intros w. repeat split. Qed.

Lemma core_unchanged_trans : forall a b c,
  core_unchanged a b -> core_unchanged b c -> core_unchanged a c.
Proof.
  intros a b c [I1 [S1 [O1 E1]]] [I2 [S2 [O2 E2]]].
  repeat split; congruence.
Qed.

Lemma core_unchanged_tick : forall w n,
  core_unchanged w (mkWorld (db w) n (writes w)).
Proof. intros w n. repeat split. Qed.

Lemma core_unchanged_grows : forall w w', core_unchanged w w' -> grows w w'.
Proof.
  intros w w' [HI [HS [_ HE]]]. split; [exact HI |]. split; exists [].
  - rewrite app_nil_r. exact HS.
  - unfold ent_keys. rewrite HE, app_nil_r. reflexivity.
Qed.

Lemma segment_settled_grows : forall E namespace w w' segment,
  segment_settled E namespace (db w) segment -> grows w w' ->
  segment_settled E namespace (db w') segment.
Proof.
  intros E namespace w w' segment [Hid Hents] [_ [[s HS] [e HE]]]. split.
  - rewrite HS. apply in_or_app. left. exact Hid.
  - eapply Forall_impl; [| exact Hents].
    intros ext [Hkey Hconf]. split; [| exact Hconf].
    rewrite HE. apply in_or_app. left. exact Hkey.
Qed.

(** Looking a key up finds a row exactly when the key is listed. *)
Lemma find_key_listed :
  forall (A : Type) (key : A -> pystr) (k : pystr) (l : list A),
    In k (List.map key l) ->
    exists x, find (fun r => str_eqb (key r) k) l = Some x.
Proof.
  intros A key k l. induction l as [| y l IH]; simpl; [contradiction |].
  intros [H | H].
  - rewrite H, str_eqb_refl. exists y. reflexivity.
  - destruct (str_eqb (key y) k); [exists y; reflexivity | apply IH; exact H].
Qed.

Lemma find_key_unlisted :
  forall (A : Type) (key : A -> pystr) (k : pystr) (l : list A),
    find (fun r => str_eqb (key r) k) l = None -> ~ In k (List.map key l).
Proof.
  intros A key k l Hfind Hin.
  destruct (find_key_listed A key k l Hin) as [x Hx]. congruence.
Qed.

Lemma entity_listed : forall s namespace entity_type name,
  In (namespace, entity_type, name) (ent_keys s) ->
  exists e, get_entity_by_name s namespace entity_type name = Some e.
Proof.
  intros s namespace entity_type name. unfold ent_keys, get_entity_by_name.
  induction (entities s) as [| y l IH]; simpl; [contradiction |].
  intros [H | H].
  - injection H as -> -> ->. rewrite !str_eqb_refl. exists y. reflexivity.
  - destruct (_ && _)%bool; [exists y; reflexivity | apply IH; exact H].
Qed.

Lemma entity_found_listed : forall s namespace entity_type name e,
  get_entity_by_name s namespace entity_type name = Some e ->
  In (namespace, entity_type, name) (ent_keys s).
Proof.
  intros s namespace entity_type name e H. unfold get_entity_by_name in H.
  apply find_some in H as [Hin Hkey].
  apply andb_true_iff in Hkey as [Hkey Hname].
  apply andb_true_iff in Hkey as [Hns Hty].
  apply str_eqb_eq in Hns, Hty, Hname. subst.
  unfold ent_keys. apply in_map_iff. exists e. split; [reflexivity | exact Hin].
Qed.

End GrowthFacts.

Section GrowthOfSteps.
Import PyStr StableId Models Segmenter Store Pipeline Frames Shapes.

Variable E : env.

Lemma preserves_weaken :
  forall (A : Type) (R R' : world -> world -> Prop) (m : M A),
    (forall w w', R w w' -> R' w w') -> preserves R m -> preserves R' m.
Proof. intros A R R' m H Hm w. apply H, Hm. Qed.

Lemma map_key_update :
  forall (A K : Type) (key : A -> K) (p : A -> bool) (f : A -> A) (l : list A),
    (forall r, key (f r) = key r) ->
    List.map key (List.map (fun r => if p r then f r else r) l) = List.map key l.
Proof.
  intros A K key p f l Hkey. rewrite map_map. apply map_ext.
  intros r. destruct (p r); [apply Hkey | reflexivity].
Qed.

Ltac grow_bind := apply (preserves_bind grows grows_trans); [| intro].

Ltac grow_leaf :=
  first [ apply (preserves_ret grows grows_refl)
        | apply (preserves_raise grows grows_refl)
        | apply (preserves_lift grows grows_refl)
        | apply (preserves_get_db grows grows_refl)
        | apply (preserves_utcnow grows grows_refl grows_tick)
        | apply (preserves_new_uuid grows grows_refl grows_tick) ].

Ltac core_bind :=
  apply (preserves_bind core_unchanged core_unchanged_trans); [| intro].

Ltac core_leaf :=
  first [ apply (preserves_ret core_unchanged core_unchanged_refl)
        | apply (preserves_raise core_unchanged core_unchanged_refl)
        | apply (preserves_get_db core_unchanged core_unchanged_refl)
        | apply (preserves_utcnow core_unchanged core_unchanged_refl
                   core_unchanged_tick) ].

Lemma upsert_segment_grows :
  forall segment, preserves grows (upsert_segment segment).
Proof.
  intros segment w. rewrite upsert_segment_run.
  destruct (get_segment_by_id (db w) (seg_id segment)); simpl.
  - split; [reflexivity |]. split; exists []; rewrite app_nil_r.
    + unfold seg_ids. simpl. apply map_key_update. reflexivity.
    + reflexivity.
  - split; [reflexivity |]. split.
    + exists [seg_id segment]. unfold seg_ids. simpl. apply map_app.
    + exists []. rewrite app_nil_r. reflexivity.
Qed.

Lemma upsert_segment_stored : forall segment w stored w',
  upsert_segment segment w = (Ok stored, w') ->
  In (seg_id segment) (seg_ids (db w')).
Proof.
  intros segment w stored w'. rewrite upsert_segment_run.
  destruct (get_segment_by_id (db w) (seg_id segment)) as [existing |] eqn:Hfind;
    intros H; injection H as _ <-; unfold seg_ids; simpl.
  - rewrite map_key_update by reflexivity.
    unfold get_segment_by_id in Hfind. apply find_some in Hfind as [Hin Hid].
    apply str_eqb_eq in Hid. rewrite <- Hid. apply in_map. exact Hin.
  - rewrite map_app. apply in_or_app. right. left. reflexivity.
Qed.

Lemma insert_entity_grows : forall e, preserves grows (insert_entity e).
Proof.
  intros e w. cbv beta delta [insert_entity bind issue get_db set_db raise].
  simpl. destruct (existsb _ _); simpl.
  - exact (grows_refl (mkWorld (db w) (tick w) (writes w))).
  - split; [reflexivity |]. split.
    + exists []. rewrite app_nil_r. reflexivity.
    + eexists. unfold ent_keys. simpl. apply map_app.
Qed.

Lemma update_entity_grows :
  forall id aliases metadata now,
    preserves grows (update_entity id aliases metadata now).
Proof.
  intros id aliases metadata now w.
  cbv beta delta [update_entity bind issue get_db set_db]. simpl.
  split; [reflexivity |]. split; exists []; rewrite app_nil_r.
  - reflexivity.
  - unfold ent_keys. simpl.
    apply (map_key_update _ _
             (fun e => (ent_namespace e, ent_type e, ent_name e))).
    reflexivity.
Qed.

Lemma upsert_entity_grows :
  forall entity, preserves grows (upsert_entity E entity).
Proof.
  intros entity. unfold upsert_entity. grow_bind; [grow_leaf |].
  destruct (get_entity_by_name _ _ _ _).
  - grow_bind; [grow_leaf |]. grow_bind; [| grow_leaf].
    apply update_entity_grows.
  - grow_bind; [| grow_leaf]. apply insert_entity_grows.
Qed.

Lemma add_entity_link_core_unchanged :
  forall link, preserves core_unchanged (add_entity_link link).
Proof. intros link w. repeat split. Qed.

Lemma bulk_add_entity_links_core_unchanged :
  forall links, preserves core_unchanged (bulk_add_entity_links links).
Proof.
  intros links. unfold bulk_add_entity_links. core_bind; [| core_leaf].
  apply (preserves_mapM core_unchanged core_unchanged_refl
           core_unchanged_trans).
  apply add_entity_link_core_unchanged.
Qed.

Lemma add_embedding_core_unchanged :
  forall segment_id model vector,
    preserves core_unchanged (add_embedding E segment_id model vector).
Proof. intros segment_id model vector w. repeat split. Qed.

Lemma embed_segments_core_unchanged :
  forall segments, preserves core_unchanged (_embed_segments E segments).
Proof.
  intros segments. unfold _embed_segments. core_bind; [core_leaf |].
  destruct (filter _ segments); [core_leaf |].
  unfold bulk_add_embeddings. core_bind; [| core_leaf].
  apply (preserves_mapM core_unchanged core_unchanged_refl
           core_unchanged_trans).
  intros p. apply add_embedding_core_unchanged.
Qed.

Lemma link_extracted_grows :
  forall segment namespace acc ext_entity,
    preserves grows (link_extracted E segment namespace acc ext_entity).
Proof.
  intros segment namespace [all_entities all_links] ext_entity.
  unfold link_extracted. grow_bind; [grow_leaf |]. grow_bind.
  - destruct (get_entity_by_name _ _ _ _); [grow_leaf |].
    grow_bind; [grow_leaf |]. grow_bind; [grow_leaf |]. grow_bind; [grow_leaf |].
    grow_bind; [apply upsert_entity_grows | grow_leaf].
  - destruct a0 as [entity all_entities'].
    grow_bind; [grow_leaf |]. grow_bind; grow_leaf.
Qed.

Lemma link_segment_grows :
  forall namespace acc segment,
    preserves grows (link_segment E namespace acc segment).
Proof.
  intros namespace acc segment. unfold link_segment.
  apply (preserves_foldM grows grows_refl grows_trans).
  intros acc' ext. apply link_extracted_grows.
Qed.

Lemma extract_and_link_grows :
  forall segments namespace,
    preserves grows (_extract_and_link_entities E segments namespace).
Proof.
  intros segments namespace. unfold _extract_and_link_entities. grow_bind.
  - apply (preserves_foldM grows grows_refl grows_trans).
    intros acc segment. apply link_segment_grows.
  - destruct a as [all_entities [| l all_links]]; [grow_leaf |].
    grow_bind; [| grow_leaf].
    apply (preserves_weaken _ core_unchanged grows _ core_unchanged_grows).
    apply bulk_add_entity_links_core_unchanged.
Qed.

End GrowthOfSteps.

(* ===================================================================== *)
(** ** Linking entities: what a call leaves, and when it is a no-op *)
(* ===================================================================== *)

Section LinkingFacts.
Import PyStr StableId Models Segmenter Store Pipeline Frames Shapes.

Variable E : env.

Lemma entity_known_grows : forall namespace w w' ext,
  entity_known namespace (db w) ext -> grows w w' ->
  entity_known namespace (db w') ext.
Proof.
  intros namespace w w' ext [Hkey Hconf] [_ [_ [more HE]]].
  split; [| exact Hconf]. rewrite HE. apply in_or_app. left. exact Hkey.
Qed.

Lemma entities_known_grows : forall namespace w w' segment,
  entities_known E namespace (db w) segment -> grows w w' ->
  entities_known E namespace (db w') segment.
Proof.
  intros namespace w w' segment H Hg. unfold entities_known in *.
  eapply Forall_impl; [| exact H].
  intros ext Hext. eapply entity_known_grows; eassumption.
Qed.

Lemma upsert_entity_listed : forall entity w stored w',
  upsert_entity E entity w = (Ok stored, w') ->
  In (ent_namespace entity, ent_type entity, ent_name entity)
     (ent_keys (db w')).
Proof.
  intros entity w stored w' Hrun.
  destruct (get_entity_by_name (db w) (ent_namespace entity) (ent_type entity)
              (ent_name entity)) as [existing |] eqn:Hfind.
  - pose proof (preserved_run grows _ _ _ _ _ (upsert_entity_grows E entity) Hrun)
      as [_ [_ [more HE]]].
    rewrite HE. apply in_or_app. left.
    eapply entity_found_listed. exact Hfind.
  - revert Hrun.
    cbv beta delta [upsert_entity insert_entity bind issue get_db set_db
                    raise ret].
    simpl. rewrite Hfind. simpl.
    destruct (existsb _ _); simpl; [discriminate |].
    intros H. injection H as _ <-. unfold ent_keys. simpl.
    rewrite map_app. apply in_or_app. right. left. reflexivity.
Qed.

Lemma new_EntityLink_ok : forall now segment_id entity_id link_type c t l,
  new_EntityLink now segment_id entity_id link_type c t = Ok l ->
  confidence_ok c = true.
Proof.
  intros now segment_id entity_id link_type c t l. unfold new_EntityLink.
  fold (confidence_ok c). destruct (confidence_ok c); [reflexivity | discriminate].
Qed.

Lemma new_EntityLink_valid : forall now segment_id entity_id link_type c t,
  confidence_ok c = true ->
  new_EntityLink now segment_id entity_id link_type c t
  = Ok (mkLink segment_id entity_id link_type c
               (match t with None => now | Some t' => t' end)).
Proof.
  intros now segment_id entity_id link_type c t H. unfold new_EntityLink.
  fold (confidence_ok c). rewrite H. reflexivity.
Qed.

(** When an iteration of the linking loop returns, the extracted entity
    is stored under the namespace and its confidence was accepted. *)
Lemma link_extracted_ok : forall segment namespace acc ext w acc' w',
  link_extracted E segment namespace acc ext w = (Ok acc', w') ->
  entity_known namespace (db w') ext.
Proof.
  intros segment namespace [all_entities all_links] ext w acc' w' Hrun.
  unfold link_extracted in Hrun.
  apply bind_inv_ok in Hrun as [s [w0 [Hs Hrun]]].
  unfold get_db in Hs. injection Hs as <- <-.
  apply bind_inv_ok in Hrun as [[entity ents] [w1 [Hfound Hrun]]].
  apply bind_inv_ok in Hrun as [now [w2 [Hnow Hrun]]].
  apply bind_inv_ok in Hrun as [link [w3 [Hlink Hrun]]].
  unfold ret in Hrun. injection Hrun as _ <-.
  unfold utcnow in Hnow. injection Hnow as _ <-.
  assert (Hdb : db w3 = db w1 /\ confidence_ok (ext_confidence ext) = true).
  { revert Hlink. unfold lift.
    destruct (new_EntityLink _ _ _ _ _ _) as [l |] eqn:Hl; [| discriminate].
    intros H. unfold ret in H. injection H as _ <-.
    split; [reflexivity | eapply new_EntityLink_ok; exact Hl]. }
  destruct Hdb as [Hdb Hconf]. rewrite Hdb. split; [| exact Hconf].
  destruct (get_entity_by_name (db w) namespace (ext_type ext) (ext_name ext))
    as [existing |] eqn:Hfind.
  - unfold ret in Hfound. injection Hfound as _ _ <-.
    eapply entity_found_listed. exact Hfind.
  - apply bind_inv_ok in Hfound as [id [wa [Hid Hfound]]].
    apply bind_inv_ok in Hfound as [now1 [wb [Hn1 Hfound]]].
    apply bind_inv_ok in Hfound as [now2 [wc [Hn2 Hfound]]].
    apply bind_inv_ok in Hfound as [stored [wd [Hup Hfound]]].
    unfold ret in Hfound. injection Hfound as _ _ <-.
    apply upsert_entity_listed in Hup. exact Hup.
Qed.

(** When the extracted entity is stored already, an iteration returns
    and changes only the clock counter. *)
Lemma link_extracted_known : forall segment namespace acc ext w,
  entity_known namespace (db w) ext ->
  exists acc' w',
    link_extracted E segment namespace acc ext w = (Ok acc', w')
    /\ core_unchanged w w'.
Proof.
  intros segment namespace [all_entities all_links] ext w [Hkey Hconf].
  destruct (entity_listed _ _ _ _ Hkey) as [e He].
  cbv beta delta [link_extracted bind get_db ret utcnow lift]. simpl.
  rewrite He. simpl. rewrite (new_EntityLink_valid _ _ _ _ _ _ Hconf).
  do 2 eexists. split; [reflexivity |]. repeat split.
Qed.

Lemma extract_and_link_ok : forall segments namespace w entities w',
  _extract_and_link_entities E segments namespace w = (Ok entities, w') ->
  Forall (entities_known E namespace (db w')) segments.
Proof.
  intros segments namespace w entities w' Hrun.
  unfold _extract_and_link_entities in Hrun.
  apply bind_inv_ok in Hrun as [[all_entities all_links] [w1 [Hloop Hrun]]].
  assert (Hg : grows w1 w').
  { destruct all_links as [| l links].
    - unfold ret in Hrun. injection Hrun as _ <-. apply grows_refl.
    - apply bind_inv_ok in Hrun as [n [w2 [Hbulk Hrun]]].
      unfold ret in Hrun. injection Hrun as _ <-.
      apply core_unchanged_grows.
      eapply preserved_run; [| exact Hbulk].
      apply bulk_add_entity_links_core_unchanged. }
  eapply Forall_impl.
  - intros segment H. eapply entities_known_grows; [exact H | exact Hg].
  - eapply (foldM_ok_all grows grows_refl grows_trans _ _
              (link_segment E namespace)
              (fun segment w => entities_known E namespace (db w) segment));
      [| | | exact Hloop].
    + intros segment wa wb. apply entities_known_grows.
    + intros acc segment. apply link_segment_grows.
    + intros acc segment wa acc' wb Hseg. unfold link_segment in Hseg.
      unfold entities_known.
      eapply (foldM_ok_all grows grows_refl grows_trans _ _
                (link_extracted E segment namespace)
                (fun ext w => entity_known namespace (db w) ext));
        [| | | exact Hseg].
      * intros ext wc wd. apply entity_known_grows.
      * intros acc0 ext. apply link_extracted_grows.
      * intros acc0 ext wc acc1 wd. apply link_extracted_ok.
Qed.

End LinkingFacts.

(* ===================================================================== *)
(** ** Registration, storing and embedding: posts and no-op cases *)
(* ===================================================================== *)

Section SettlingFacts.
Import PyStr StableId Models Segmenter Store Pipeline Frames Shapes.

Variable E : env.

Lemma get_ir_by_uri_key : forall s namespace source_uri ir,
  get_ir_by_uri s namespace source_uri = Some ir ->
  ir_namespace ir = namespace /\ ir_source_uri ir = source_uri.
Proof.
  intros s namespace source_uri ir H. unfold get_ir_by_uri in H.
  apply find_some in H as [_ H]. apply andb_true_iff in H as [H1 H2].
  apply str_eqb_eq in H1, H2. split; assumption.
Qed.

(** When [_register_ir] returns, the resource it returns is the one
    stored under (namespace, source_uri), with the hash of the file. *)
Lemma register_ir_ok : forall path namespace source_type metadata w ir w',
  _register_ir E path namespace source_type metadata w = (Ok ir, w') ->
  exists content,
    fs_read E path = Some content
    /\ get_ir_by_uri (db w') namespace (source_uri_of E path) = Some ir
    /\ ir_content_hash ir = generate_content_hash content.
Proof.
  intros path namespace source_type metadata w ir w'.
  unfold _register_ir, read_bytes.
  destruct (fs_read E path) as [content |]; [| discriminate].
  cbv beta delta [bind ret get_db]. simpl.
  destruct (get_ir_by_uri (db w) namespace (source_uri_of E path))
    as [existing |] eqn:Hfind.
  - destruct (str_eqb (ir_content_hash existing)
                      (generate_content_hash content)) eqn:Hhash; simpl.
    + intros H. injection H as <- <-. exists content.
      split; [reflexivity |]. split; [exact Hfind |].
      apply str_eqb_eq. exact Hhash.
    + destruct (get_ir_by_uri_key _ _ _ _ Hfind) as [Hns Huri].
      cbv beta delta [upsert_information_resource update_ir bind get_db
                      utcnow issue set_db ret].
      simpl. rewrite Hns, Huri, Hfind. simpl.
      intros H. injection H as <- <-. exists content.
      split; [reflexivity |]. split; [| reflexivity].
      unfold get_ir_by_uri in *. simpl.
      rewrite find_map_stable.
      * rewrite Hfind. simpl. rewrite str_eqb_refl, Hns, Huri. reflexivity.
      * intros r. destruct (str_eqb (ir_id_of r) (ir_id_of existing));
          reflexivity.
  - cbv beta delta [new_uuid utcnow upsert_information_resource insert_ir
                    bind get_db issue set_db ret raise
                    new_InformationResource].
    simpl. rewrite Hfind. simpl.
    destruct (existsb _ _); simpl; [discriminate |].
    intros H. injection H as <- <-. exists content.
    split; [reflexivity |]. split; [| reflexivity].
    unfold get_ir_by_uri in *. simpl.
    rewrite (find_app_none _ _ _ _ Hfind). simpl.
    rewrite !str_eqb_refl. reflexivity.
Qed.

Lemma bulk_upsert_segments_stored : forall segments w stored w',
  bulk_upsert_segments segments w = (Ok stored, w') ->
  Forall (fun segment => In (seg_id segment) (seg_ids (db w'))) segments.
Proof.
  intros segments w stored w' Hrun. unfold bulk_upsert_segments in Hrun.
  eapply (mapM_ok_all grows grows_refl grows_trans _ _ upsert_segment
            (fun segment w => In (seg_id segment) (seg_ids (db w))));
    [| | | exact Hrun].
  - intros segment wa wb Hin [_ [[more HS] _]].
    rewrite HS. apply in_or_app. left. exact Hin.
  - apply upsert_segment_grows.
  - intros segment wa b wb. apply upsert_segment_stored.
Qed.

Lemma upsert_segment_present : forall segment w,
  In (seg_id segment) (seg_ids (db w)) ->
  exists stored w',
    upsert_segment segment w = (Ok stored, w') /\ core_unchanged w w' /\ True.
Proof.
  intros segment w Hin. rewrite upsert_segment_run.
  destruct (find_key_listed _ seg_id _ _ Hin) as [existing Hfind].
  unfold get_segment_by_id. rewrite Hfind.
  do 2 eexists. split; [reflexivity |]. split; [| exact I].
  split; [reflexivity |]. simpl. split; [| split; [| reflexivity]].
  - unfold seg_ids. simpl. apply map_key_update. reflexivity.
  - apply map_key_update. reflexivity.
Qed.

(** Storing segments whose ids are all stored already only updates. *)
Lemma bulk_upsert_segments_present : forall segments w,
  Forall (fun segment => In (seg_id segment) (seg_ids (db w))) segments ->
  exists stored w',
    bulk_upsert_segments segments w = (Ok stored, w')
    /\ core_unchanged w w'
    /\ List.map seg_id stored = List.map seg_id segments
    /\ List.map seg_text stored = List.map seg_text segments.
Proof.
  intros segments w Hall.
  destruct (mapM_total core_unchanged core_unchanged_refl core_unchanged_trans
              _ _ upsert_segment
              (fun segment w => In (seg_id segment) (seg_ids (db w)))
              (fun _ _ => True))
    with (l := segments) (w := w) as [stored [w' [Hrun [Hcore _]]]].
  - intros segment wa wb Hin [_ [HS _]]. rewrite HS. exact Hin.
  - intros segment wa. apply upsert_segment_present.
  - exact Hall.
  - destruct (bulk_upsert_segments_run segments w)
      as [stored' [w'' [Hrun' [Hid [Htext _]]]]].
    unfold bulk_upsert_segments in *. rewrite Hrun in Hrun'.
    injection Hrun' as <- <-.
    exists stored, w'.
    split; [exact Hrun |]. split; [exact Hcore |]. split; assumption.
Qed.

Lemma bulk_add_entity_links_total : forall links w,
  exists w',
    bulk_add_entity_links links w = (Ok (List.length links), w')
    /\ core_unchanged w w'.
Proof.
  intros links w. unfold bulk_add_entity_links.
  destruct (mapM_total core_unchanged core_unchanged_refl core_unchanged_trans
              _ _ add_entity_link (fun _ _ => True) (fun _ _ => True))
    with (l := links) (w := w) as [out [w' [Hrun [Hcore _]]]].
  - trivial.
  - intros link wa _. do 2 eexists. split; [reflexivity |]. repeat split.
  - apply Forall_forall. trivial.
  - rewrite (bind_run_ok _ _ _ _ _ _ _ Hrun). exists w'.
    split; [reflexivity | exact Hcore].
Qed.

Lemma add_embedding_total : forall segment_id model vector w,
  exists b w',
    add_embedding E segment_id model vector w = (Ok b, w')
    /\ core_unchanged w w' /\ True.
Proof.
  intros segment_id model vector w.
  do 2 eexists. split; [reflexivity |]. repeat split.
Qed.

Lemma embed_segments_total : forall segments w,
  exists w', _embed_segments E segments w = (Ok tt, w') /\ core_unchanged w w'.
Proof.
  intros segments w. unfold _embed_segments.
  cbv beta delta [bind get_db]. simpl.
  destruct (filter _ segments) as [| s0 to_embed].
  - exists w. split; [reflexivity | apply core_unchanged_refl].
  - unfold bulk_add_embeddings.
    pose proof (mapM_total core_unchanged core_unchanged_refl
                  core_unchanged_trans _ _
                  (fun p => add_embedding E (fst p) (embedding_model_name E)
                              (snd p))
                  (fun _ _ => True) (fun _ _ => True)
                  (fun _ _ _ H _ => H)
                  (fun p wa _ => add_embedding_total _ _ _ wa)) as Htotal.
    match goal with
    | |- context [mapM _ ?items] =>
        destruct (Htotal items w) as [out [w' [Hrun [Hcore _]]]]
    end.
    + apply Forall_forall. trivial.
    + rewrite (bind_run_ok _ _ _ _ _ _ _ Hrun). exists w'.
      split; [reflexivity | exact Hcore].
Qed.

(** Linking segments whose entities are all stored returns and adds no
    entity. *)
Lemma extract_and_link_known : forall segments namespace w,
  Forall (entities_known E namespace (db w)) segments ->
  exists entities w',
    _extract_and_link_entities E segments namespace w = (Ok entities, w')
    /\ core_unchanged w w'.
Proof.
  intros segments namespace w Hall. unfold _extract_and_link_entities.
  assert (Hk : forall wa wb ext,
             entity_known namespace (db wa) ext -> core_unchanged wa wb ->
             entity_known namespace (db wb) ext).
  { intros wa wb ext [Hkey Hconf] [_ [_ [_ HE]]]. split; [| exact Hconf].
    unfold ent_keys in *. rewrite HE. exact Hkey. }
  destruct (foldM_total core_unchanged core_unchanged_refl core_unchanged_trans
              _ _ (link_segment E namespace)
              (fun segment w => entities_known E namespace (db w) segment))
    with (l := segments) (a := (@nil Entity, @nil EntityLink)) (w := w)
    as [[all_entities all_links] [w1 [Hloop Hcore]]].
  - intros segment wa wb H Hc. unfold entities_known in *.
    eapply Forall_impl; [| exact H]. intros ext Hext. eapply Hk; eassumption.
  - intros acc segment wa H. unfold link_segment.
    apply (foldM_total core_unchanged core_unchanged_refl core_unchanged_trans
             _ _ (link_extracted E segment namespace)
             (fun ext w => entity_known namespace (db w) ext)).
    + intros ext wb wc Hext Hc. eapply Hk; eassumption.
    + intros acc' ext wb Hext. apply link_extracted_known. exact Hext.
    + exact H.
  - exact Hall.
  - rewrite (bind_run_ok _ _ _ _ _ _ _ Hloop).
    destruct all_links as [| l links].
    + exists all_entities, w1. split; [reflexivity | exact Hcore].
    + destruct (bulk_add_entity_links_total (l :: links) w1) as [w2 [Hbulk Hc2]].
      rewrite (bind_run_ok _ _ _ _ _ _ _ Hbulk).
      exists all_entities, w2. split; [reflexivity |].
      eapply core_unchanged_trans; eassumption.
Qed.

End SettlingFacts.

(* ===================================================================== *)
(** ** Idempotent ingestion *)
(* ===================================================================== *)

Section IdempotenceFacts.
Import PyStr StableId Models Segmenter Store Pipeline Frames Shapes.

Variable E : env.

Lemma Forall_map_eq :
  forall (A B : Type) (g : A -> B) (P : A -> Prop) (l l' : list A),
    (forall a b, g a = g b -> P a -> P b) ->
    List.map g l = List.map g l' -> Forall P l -> Forall P l'.
Proof.
  intros A B g P l l' Hg. revert l'.
  induction l as [| a l IH]; intros [| b l'] Hmap Hall; simpl in Hmap;
    try discriminate; [constructor |].
  injection Hmap as Hab Hmap. inversion Hall as [| a0 l0 Ha Hl]; subst.
  constructor; [eapply Hg; eassumption | apply IH; assumption].
Qed.

Lemma segment_settled_same : forall namespace s a b,
  seg_id a = seg_id b -> seg_text a = seg_text b ->
  segment_settled E namespace s a -> segment_settled E namespace s b.
Proof.
  intros namespace s a b Hid Htext [H1 H2]. unfold segment_settled, entities_known in *.
  rewrite <- Hid, <- Htext. split; assumption.
Qed.

Lemma segment_settled_untimed : forall namespace s a b,
  untimed a = untimed b ->
  segment_settled E namespace s a -> segment_settled E namespace s b.
Proof.
  intros namespace s a b H. apply segment_settled_same.
  - exact (f_equal seg_id H).
  - exact (f_equal seg_text H).
Qed.

Lemma grows_lookup : forall w w' namespace source_uri,
  grows w w' ->
  get_ir_by_uri (db w') namespace source_uri
  = get_ir_by_uri (db w) namespace source_uri.
Proof.
  intros w w' namespace source_uri [H _]. unfold get_ir_by_uri. now rewrite H.
Qed.

(** Storing and linking the segments of a call that returns leaves every
    one of them settled. *)
Lemma store_and_link_settles : forall ir segments namespace w r w',
  store_and_link E ir segments namespace w = (Ok r, w') ->
  exists stored entities,
    r = (ir, stored, entities)
    /\ List.length stored = List.length segments
    /\ grows w w'
    /\ Forall (segment_settled E namespace (db w')) segments.
Proof.
  intros ir segments namespace w r w'. unfold store_and_link.
  destruct segments as [| s0 segments].
  - unfold ret. intros H. injection H as <- <-. exists [], [].
    split; [reflexivity |]. split; [reflexivity |].
    split; [apply grows_refl | constructor].
  - intros H. apply bind_inv_ok in H as [stored [w1 [Hstore H]]].
    apply bind_inv_ok in H as [entities [w2 [Hlink H]]].
    unfold ret in H. injection H as <- <-.
    destruct (bulk_upsert_segments_run (s0 :: segments) w)
      as [stored' [w1' [Hrun [Hid [Htext _]]]]].
    rewrite Hrun in Hstore. injection Hstore as -> ->.
    assert (Hg1 : grows w w1).
    { eapply preserved_run; [| exact Hrun].
      unfold bulk_upsert_segments.
      apply (preserves_mapM grows grows_refl grows_trans).
      apply upsert_segment_grows. }
    assert (Hg2 : grows w1 w2).
    { eapply preserved_run; [| exact Hlink]. apply extract_and_link_grows. }
    exists stored, entities. split; [reflexivity |]. split; [| split].
    + apply (f_equal (@List.length _)) in Hid. now rewrite !length_map in Hid.
    + eapply grows_trans; eassumption.
    + pose proof (bulk_upsert_segments_stored _ _ _ _ Hrun) as Hstored.
      pose proof (extract_and_link_ok E _ _ _ _ _ Hlink) as Hknown.
      assert (Hknown' : Forall (entities_known E namespace (db w2))
                               (s0 :: segments)).
      { eapply (Forall_map_eq _ _ seg_text); [| exact Htext | exact Hknown].
        intros a b Hab. unfold entities_known. now rewrite Hab. }
      rewrite Forall_forall in Hstored, Hknown'. apply Forall_forall.
      intros segment Hin. split; [| apply Hknown'; exact Hin].
      destruct Hg2 as [_ [[more HS] _]]. rewrite HS.
      apply in_or_app. left. apply Hstored. exact Hin.
Qed.

(** Storing and linking settled segments returns and changes no resource,
    no entity and no segment's id or owner. *)
Lemma store_and_link_settled : forall ir segments namespace w,
  Forall (segment_settled E namespace (db w)) segments ->
  exists stored entities w',
    store_and_link E ir segments namespace w = (Ok (ir, stored, entities), w')
    /\ List.length stored = List.length segments
    /\ core_unchanged w w'.
Proof.
  intros ir segments namespace w Hall. unfold store_and_link.
  destruct segments as [| s0 segments].
  - exists [], [], w. repeat split.
  - destruct (bulk_upsert_segments_present (s0 :: segments) w)
      as [stored [w1 [Hrun [Hcore [Hid Htext]]]]].
    { eapply Forall_impl; [| exact Hall]. intros a [Ha _]. exact Ha. }
    destruct (extract_and_link_known E stored namespace w1)
      as [entities [w2 [Hlink Hcore2]]].
    { eapply (Forall_map_eq _ _ seg_text _ (s0 :: segments)).
      - intros a b Hab. unfold entities_known. now rewrite Hab.
      - symmetry. exact Htext.
      - eapply Forall_impl; [| exact Hall]. intros a [_ Ha].
        unfold entities_known in *.
        eapply Forall_impl; [| exact Ha]. intros ext [Hkey Hconf].
        split; [| exact Hconf].
        destruct Hcore as [_ [_ [_ HE]]]. unfold ent_keys in *.
        rewrite HE. exact Hkey. }
    rewrite (bind_run_ok _ _ _ _ _ _ _ Hrun).
    rewrite (bind_run_ok _ _ _ _ _ _ _ Hlink).
    exists stored, entities, w2. split; [reflexivity |]. split.
    + apply (f_equal (@List.length _)) in Hid. now rewrite !length_map in Hid.
    + eapply core_unchanged_trans; eassumption.
Qed.

Lemma finish_ok : forall ir segments entities w n w',
  finish E (ir, segments, entities) w = (Ok n, w') ->
  n = List.length segments /\ core_unchanged w w'.
Proof.
  intros ir segments entities w n w' H. unfold finish in H.
  apply bind_inv_ok in H as [u [w1 [Hembed H]]].
  unfold ret in H. injection H as <- <-. split; [reflexivity |].
  destruct segments as [| s0 segments].
  - unfold ret in Hembed. injection Hembed as _ <-. apply core_unchanged_refl.
  - eapply preserved_run; [| exact Hembed]. apply embed_segments_core_unchanged.
Qed.

Lemma finish_total : forall ir segments entities w,
  exists w',
    finish E (ir, segments, entities) w = (Ok (List.length segments), w')
    /\ core_unchanged w w'.
Proof.
  intros ir segments entities w. unfold finish.
  destruct segments as [| s0 segments].
  - exists w. split; [reflexivity | apply core_unchanged_refl].
  - destruct (embed_segments_total E (s0 :: segments) w) as [w' [Hrun Hcore]].
    rewrite (bind_run_ok _ _ _ _ _ _ _ Hrun). exists w'.
    split; [reflexivity | exact Hcore].
Qed.

End IdempotenceFacts.

Section IngestWith.
Import PyStr StableId Models Segmenter Store Pipeline Frames Shapes.

Variable E : env.
Variable X : Type.
Variable source_type : pystr.
Variable pre : M X.
Variable seg : X -> InformationResource -> option plan.
Variables path namespace : pystr.

(** The file is read without touching the world, with the same outcome
    whenever it is read, and every segmenter call is clock free. *)
Hypothesis pre_pure : exists r, forall w, pre w = (r, w).
Hypothesis seg_clock_free : forall x ir f, seg x ir = Some f -> clock_free f.

Lemma first_call_settles : forall metadata w n w1,
  bind (ingest_with E X source_type pre seg path namespace metadata)
       (finish E) w = (Ok n, w1) ->
  settled E X pre seg path namespace n w1.
Proof.
  intros metadata w n w1 Hrun.
  apply bind_inv_ok in Hrun as [[[ir segments] entities] [wa [Hing Hfin]]].
  apply finish_ok in Hfin as [-> Hcore].
  unfold ingest_with in Hing.
  apply bind_inv_ok in Hing as [ir0 [wr [Hreg Hing]]].
  apply bind_inv_ok in Hing as [x [wp [Hpre Hing]]].
  destruct pre_pure as [rx Hpure].
  pose proof Hpre as Hpre'. rewrite Hpure in Hpre'.
  injection Hpre' as -> <-.
  destruct (register_ir_ok E _ _ _ _ _ _ _ Hreg) as [content [Hread [Hfind Hhash]]].
  assert (Hgrow : grows wr w1 ->
                  get_ir_by_uri (db w1) namespace (source_uri_of E path)
                  = Some ir0).
  { intros Hg. rewrite (grows_lookup _ _ _ _ Hg). exact Hfind. }
  exists content, ir0, x.
  split; [exact Hread |].
  destruct (seg x ir0) as [f |] eqn:Hseg.
  - apply bind_inv_ok in Hing as [produced [ws [Hsegm Hing]]].
    apply run_segmenter_ok in Hsegm as [Hf ->].
    apply store_and_link_settles in Hing
      as [stored [ents [Hr [Hlen [Hg Hall]]]]].
    injection Hr as <- <- <-.
    assert (Hg1 : grows wr w1).
    { apply grows_trans with wa; [| apply core_unchanged_grows; exact Hcore].
      destruct Hg as [H1 [H2 H3]]. split; [exact H1 |]. split; assumption. }
    split; [apply Hgrow; exact Hg1 |]. split; [exact Hhash |].
    split; [exact Hpure |].
    destruct (seg_clock_free _ _ _ Hseg _ (fun _ => 0%Z) _ Hf)
      as [segments0 [Hf0 Hsame]].
    exists segments0. split; [exact Hf0 |]. split.
    + rewrite Hlen. eapply untimed_length. exact Hsame.
    + eapply (Forall_map_eq _ _ untimed); [| exact Hsame |].
      * intros a b. apply segment_settled_untimed.
      * eapply Forall_impl; [| exact Hall]. intros a Ha.
        eapply segment_settled_grows; [exact Ha |].
        apply core_unchanged_grows. exact Hcore.
  - unfold ret in Hing. injection Hing as <- <- <- <-.
    split; [apply Hgrow; apply core_unchanged_grows; exact Hcore |].
    split; [exact Hhash |]. split; [exact Hpure | reflexivity].
Qed.

Lemma settled_call : forall metadata n w,
  settled E X pre seg path namespace n w ->
  exists w',
    bind (ingest_with E X source_type pre seg path namespace metadata)
         (finish E) w = (Ok n, w')
    /\ core_unchanged w w'
    /\ settled E X pre seg path namespace n w'.
Proof.
  intros metadata n w [content [ir [x [Hread [Hfind [Hhash [Hpre Hplan]]]]]]].
  assert (Hkeep : forall w', core_unchanged w w' ->
            (forall segments,
               Forall (segment_settled E namespace (db w)) segments ->
               Forall (segment_settled E namespace (db w')) segments) ->
            settled E X pre seg path namespace n w').
  { intros w' Hcore Hmono. exists content, ir, x.
    split; [exact Hread |]. split.
    - rewrite (grows_lookup _ _ _ _ (core_unchanged_grows _ _ Hcore)).
      exact Hfind.
    - split; [exact Hhash |]. split; [exact Hpre |].
      destruct (seg x ir) as [f |]; [| exact Hplan].
      destruct Hplan as [segments [Hf [Hn Hall]]].
      exists segments. split; [exact Hf |]. split; [exact Hn |].
      apply Hmono. exact Hall. }
  assert (Hmono : forall w', core_unchanged w w' ->
            forall segments,
              Forall (segment_settled E namespace (db w)) segments ->
              Forall (segment_settled E namespace (db w')) segments).
  { intros w' Hcore segments Hall. eapply Forall_impl; [| exact Hall].
    intros a Ha. eapply segment_settled_grows; [exact Ha |].
    apply core_unchanged_grows. exact Hcore. }
  unfold ingest_with.
  pose proof (register_ir_unchanged E path namespace source_type metadata w
                content ir Hread Hfind Hhash) as Hreg.
  unfold bind at 1. unfold bind at 1. rewrite Hreg.
  unfold bind at 1. rewrite Hpre.
  destruct (seg x ir) as [f |] eqn:Hseg.
  - destruct Hplan as [segments0 [Hf0 [Hn Hall]]].
    destruct (seg_clock_free _ _ _ Hseg _
                (fun k => clock E (tick w + k)%nat) _ Hf0)
      as [produced [Hf Hsame]].
    unfold bind at 1. unfold run_segmenter. rewrite Hf.
    set (ws := mkWorld (db w) (tick w + List.length produced)%nat (writes w)).
    destruct (store_and_link_settled E ir produced namespace ws)
      as [stored [ents [wa [Hstore [Hlen Hcore]]]]].
    { eapply (Forall_map_eq _ _ untimed); [| exact Hsame | exact Hall].
      intros a b. apply segment_settled_untimed. }
    rewrite Hstore.
    destruct (finish_total E ir stored ents wa) as [w' [Hfin Hcore2]].
    rewrite Hfin. exists w'.
    assert (Hc : core_unchanged w w').
    { apply core_unchanged_trans with wa; [| exact Hcore2]. exact Hcore. }
    split; [| split; [exact Hc | apply Hkeep; [exact Hc | apply Hmono; exact Hc]]].
    rewrite Hlen, Hn. f_equal. f_equal. symmetry.
    eapply untimed_length. exact Hsame.
  - unfold ret. destruct (finish_total E ir [] [] w) as [w' [Hfin Hcore]].
    rewrite Hfin. exists w'. simpl. subst n.
    split; [reflexivity |].
    split; [exact Hcore | apply Hkeep; [exact Hcore | apply Hmono; exact Hcore]].
Qed.

End IngestWith.

Section CountFacts.
Import PyStr StableId Models Segmenter Store Pipeline Frames Shapes.

Lemma filter_map_swap :
  forall (A B : Type) (g : A -> B) (p : B -> bool) (l : list A),
    filter p (List.map g l) = List.map g (filter (fun a => p (g a)) l).
Proof.
  intros A B g p l. induction l as [| a l IH]; simpl; [reflexivity |].
  destruct (p (g a)); simpl; now rewrite IH.
Qed.

(** The number of (segment, resource) rows under a namespace is decided
    by the owners of the segments and the resources. *)
Lemma count_joined_owner : forall ns irs (l l' : list ResourceSegment),
  List.map seg_ir_id l = List.map seg_ir_id l' ->
  List.length
    (filter (fun p : ResourceSegment * InformationResource =>
               str_eqb (ir_namespace (snd p)) ns)
       (join_on (fun rs ir => str_eqb (seg_ir_id rs) (ir_id_of ir)) l irs))
  = List.length
      (filter (fun p : ResourceSegment * InformationResource =>
                 str_eqb (ir_namespace (snd p)) ns)
         (join_on (fun rs ir => str_eqb (seg_ir_id rs) (ir_id_of ir)) l' irs)).
Proof.
  intros ns irs l. unfold join_on.
  induction l as [| a l IH]; intros [| b l'] H; simpl in H; try discriminate;
    [reflexivity |].
  injection H as Hab H. simpl.
  rewrite !filter_app, !length_app, (IH l' H). f_equal.
  rewrite !filter_map_swap, !length_map. simpl. rewrite Hab. reflexivity.
Qed.

Lemma core_unchanged_count : forall w w' namespace,
  core_unchanged w w' ->
  count_segments (db w') namespace = count_segments (db w) namespace.
Proof.
  intros w w' namespace [HI [_ [HO _]]]. unfold count_segments.
  destruct (namespace_filter namespace) as [ns |].
  - rewrite HI. apply count_joined_owner. exact HO.
  - apply (f_equal (@List.length _)) in HO. now rewrite !length_map in HO.
Qed.

End CountFacts.

Section ShapeFacts.
Import PyStr StableId Models Segmenter Store Pipeline Frames Shapes.

Variable E : env.

Lemma ingest_pdf_shape : forall path namespace metadata w,
  ingest_pdf E path namespace metadata w
  = ingest_with E _ (lit "pdf") (read_bytes E path) (pdf_plan E)
      path namespace metadata w.
Proof.
  intros path namespace metadata w. unfold ingest_pdf, ingest_with, bind.
  destruct (_register_ir E path namespace (lit "pdf") metadata w)
    as [[ir | e] w1]; [| reflexivity].
  destruct (read_bytes E path w1) as [[content | e] w2]; [| reflexivity].
  unfold pdf_plan. destruct (pdf_extract E content); reflexivity.
Qed.

Lemma ingest_markdown_shape : forall path namespace metadata w,
  ingest_markdown E path namespace metadata w
  = ingest_with E _ (lit "md") (read_text E path) (markdown_plan E namespace)
      path namespace metadata w.
Proof.
  intros path namespace metadata w. unfold ingest_markdown, ingest_with, bind.
  destruct (_register_ir E path namespace (lit "md") metadata w)
    as [[ir | e] w1]; [| reflexivity].
  destruct (read_text E path w1) as [[text | e] w2]; [| reflexivity].
  unfold markdown_plan. destruct (negb _); reflexivity.
Qed.

Lemma ingest_text_shape : forall path namespace metadata w,
  ingest_text E path namespace metadata w
  = ingest_with E _ (lit "txt") (read_text E path) (text_plan E namespace)
      path namespace metadata w.
Proof.
  intros path namespace metadata w. unfold ingest_text, ingest_with, bind.
  destruct (_register_ir E path namespace (lit "txt") metadata w)
    as [[ir | e] w1]; [| reflexivity].
  destruct (read_text E path w1) as [[text | e] w2]; [| reflexivity].
  unfold text_plan. destruct (negb _); reflexivity.
Qed.

Lemma read_bytes_pure : forall path,
  exists r, forall w, read_bytes E path w = (r, w).
Proof.
  intros path. unfold read_bytes.
  destruct (fs_read E path); eexists; intros w; reflexivity.
Qed.

Lemma read_text_pure : forall path,
  exists r, forall w, read_text E path w = (r, w).
Proof.
  intros path. unfold read_text, read_bytes, bind.
  destruct (fs_read E path) as [content |]; simpl.
  - destruct (decode_text E content); eexists; intros w; reflexivity.
  - eexists. intros w. reflexivity.
Qed.

Lemma pdf_plan_clock_free : forall content ir f,
  pdf_plan E content ir = Some f -> clock_free f.
Proof.
  intros content ir f. unfold pdf_plan.
  destruct (pdf_extract E content); [discriminate |].
  intros H. injection H as <-. apply segment_pages_clock_free.
Qed.

Lemma markdown_plan_clock_free : forall namespace text ir f,
  markdown_plan E namespace text ir = Some f -> clock_free f.
Proof.
  intros namespace text ir f. unfold markdown_plan.
  destruct (negb _); [discriminate |].
  intros H. injection H as <-. apply segment_markdown_clock_free.
Qed.

Lemma text_plan_clock_free : forall namespace text ir f,
  text_plan E namespace text ir = Some f -> clock_free f.
Proof.
  intros namespace text ir f. unfold text_plan.
  destruct (negb _); [discriminate |].
  intros H. injection H as <-. apply segment_text_clock_free.
Qed.

(** Two more calls after one that returned: both return the same count
    and change no resource, no entity and no segment's id or owner. *)
Lemma ingest_with_twice_more :
  forall (X : Type) source_type (pre : M X) seg path namespace metadata,
    (exists r, forall w, pre w = (r, w)) ->
    (forall x ir f, seg x ir = Some f -> clock_free f) ->
    forall w n w1,
      bind (ingest_with E X source_type pre seg path namespace metadata)
           (finish E) w = (Ok n, w1) ->
      exists w2 w3,
        bind (ingest_with E X source_type pre seg path namespace metadata)
             (finish E) w1 = (Ok n, w2)
        /\ bind (ingest_with E X source_type pre seg path namespace metadata)
                (finish E) w2 = (Ok n, w3)
        /\ core_unchanged w1 w2 /\ core_unchanged w2 w3.
Proof.
  intros X source_type pre seg path namespace metadata Hpure Hfree w n w1 Hrun.
  pose proof (first_call_settles E X source_type pre seg path namespace
                Hpure Hfree metadata w n w1 Hrun) as Hsettled.
  destruct (settled_call E X source_type pre seg path namespace Hfree
              metadata n w1 Hsettled) as [w2 [Hrun2 [Hcore2 Hsettled2]]].
  destruct (settled_call E X source_type pre seg path namespace Hfree
              metadata n w2 Hsettled2) as [w3 [Hrun3 [Hcore3 _]]].
  exists w2, w3.
  split; [exact Hrun2 |]. split; [exact Hrun3 |]. split; assumption.
Qed.

End ShapeFacts.

Section IngestFileFacts.
Import PyStr StableId Models Segmenter Store Pipeline Frames Shapes.

Variable E : env.

(** [ingest_file], with each ingest method in its common shape. *)
Lemma ingest_file_run : forall path namespace metadata w,
  ingest_file E path namespace metadata w =
  match fs_read E path with
  | None => (Raise (FileNotFoundError path), w)
  | Some _ =>
      let ns := effective_namespace E namespace in
      if str_eqb (path_suffix_lower E path) (lit ".pdf") then
        bind (ingest_with E _ (lit "pdf") (read_bytes E path) (pdf_plan E)
                path ns metadata) (finish E) w
      else if str_eqb (path_suffix_lower E path) (lit ".md") then
        bind (ingest_with E _ (lit "md") (read_text E path)
                (markdown_plan E ns) path ns metadata) (finish E) w
      else if str_eqb (path_suffix_lower E path) (lit ".txt") then
        bind (ingest_with E _ (lit "txt") (read_text E path)
                (text_plan E ns) path ns metadata) (finish E) w
      else (Raise (ValueError (lit "Unsupported file type")), w)
  end.
Proof.
  intros path namespace metadata w. unfold ingest_file.
  destruct (fs_read E path); [| reflexivity]. cbv zeta.
  destruct (str_eqb _ (lit ".pdf")).
  { unfold bind at 1 3. rewrite ingest_pdf_shape. reflexivity. }
  destruct (str_eqb _ (lit ".md")).
  { unfold bind at 1 3. rewrite ingest_markdown_shape. reflexivity. }
  destruct (str_eqb _ (lit ".txt")).
  { unfold bind at 1 3. rewrite ingest_text_shape. reflexivity. }
  reflexivity.
Qed.

(** Claim C1: after an ingestion of file F under namespace N that
    returned, a second and a third identical ingestion return too, with
    the same segment count and without raising, and [count_segments(N)]
    after three calls is what it was after one. *)
Theorem ingestion_is_idempotent :
  forall (path : pystr) (namespace : option pystr)
         (metadata : option json_dict) (w : world) (n : nat) (w1 : world),
    ingest_file E path namespace metadata w = (Ok n, w1) ->
    exists w2 w3,
      ingest_file E path namespace metadata w1 = (Ok n, w2)
      /\ ingest_file E path namespace metadata w2 = (Ok n, w3)
      /\ kos_count_segments E (db w2) namespace
         = kos_count_segments E (db w1) namespace
      /\ kos_count_segments E (db w3) namespace
         = kos_count_segments E (db w1) namespace
      /\ forall ns,
           count_segments (db w3) ns = count_segments (db w1) ns.
Proof.
  intros path namespace metadata w n w1 Hrun.
  rewrite ingest_file_run in Hrun.
  assert (Hcount : forall w2 w3,
            core_unchanged w1 w2 -> core_unchanged w2 w3 ->
            kos_count_segments E (db w2) namespace
            = kos_count_segments E (db w1) namespace
            /\ kos_count_segments E (db w3) namespace
               = kos_count_segments E (db w1) namespace
            /\ forall ns,
                 count_segments (db w3) ns = count_segments (db w1) ns).
  { intros w2 w3 H12 H23. unfold kos_count_segments.
    pose proof (core_unchanged_trans _ _ _ H12 H23) as H13.
    split; [apply core_unchanged_count; exact H12 |].
    split; [apply core_unchanged_count; exact H13 |].
    intros ns. apply core_unchanged_count. exact H13. }
  destruct (fs_read E path) as [content |] eqn:Hread; [| discriminate].
  cbv zeta in Hrun.
  destruct (str_eqb (path_suffix_lower E path) (lit ".pdf")) eqn:Hpdf.
  { destruct (ingest_with_twice_more E _ _ _ _ _ _ _
                (read_bytes_pure E path) (pdf_plan_clock_free E) _ _ _ Hrun)
      as [w2 [w3 [H2 [H3 [C2 C3]]]]].
    exists w2, w3. rewrite !ingest_file_run, Hread, Hpdf.
    split; [exact H2 |]. split; [exact H3 |]. apply Hcount; assumption. }
  destruct (str_eqb (path_suffix_lower E path) (lit ".md")) eqn:Hmd.
  { destruct (ingest_with_twice_more E _ _ _ _ _ _ _
                (read_text_pure E path) (markdown_plan_clock_free E _) _ _ _ Hrun)
      as [w2 [w3 [H2 [H3 [C2 C3]]]]].
    exists w2, w3. rewrite !ingest_file_run, Hread, Hpdf, Hmd.
    split; [exact H2 |]. split; [exact H3 |]. apply Hcount; assumption. }
  destruct (str_eqb (path_suffix_lower E path) (lit ".txt")) eqn:Htxt.
  { destruct (ingest_with_twice_more E _ _ _ _ _ _ _
                (read_text_pure E path) (text_plan_clock_free E _) _ _ _ Hrun)
      as [w2 [w3 [H2 [H3 [C2 C3]]]]].
    exists w2, w3. rewrite !ingest_file_run, Hread, Hpdf, Hmd, Htxt.
    split; [exact H2 |]. split; [exact H3 |]. apply Hcount; assumption. }
  discriminate Hrun.
Qed.

End IngestFileFacts.

Section IngestFileExamples.
Import PyStr Models Store Pipeline.

Lemma ingestion_is_idempotent_witness :
  exists w2 w3,
    ingest_file Samples.sample_env (lit "/d/a.txt") (Some (lit "lab")) None
      (snd Samples.first_ingestion) = (Ok 2%nat, w2)
    /\ ingest_file Samples.sample_env (lit "/d/a.txt") (Some (lit "lab")) None
         w2 = (Ok 2%nat, w3)
    /\ kos_count_segments Samples.sample_env (db w2) (Some (lit "lab"))
       = kos_count_segments Samples.sample_env
           (db (snd Samples.first_ingestion)) (Some (lit "lab"))
    /\ kos_count_segments Samples.sample_env (db w3) (Some (lit "lab"))
       = kos_count_segments Samples.sample_env
           (db (snd Samples.first_ingestion)) (Some (lit "lab"))
    /\ forall ns,
         count_segments (db w3) ns
         = count_segments (db (snd Samples.first_ingestion)) ns.
Proof.
  apply (ingestion_is_idempotent Samples.sample_env (lit "/d/a.txt")
           (Some (lit "lab")) None Samples.fresh_world 2%nat
           (snd Samples.first_ingestion)).
  vm_compute. reflexivity.
Defined.

(** One call and three calls on the sample document: two segments
    either way, and one entity, two links and two embeddings. *)
Example three_ingestions_of_the_sample :
  let run := ingest_file Samples.sample_env (lit "/d/a.txt")
               (Some (lit "lab")) None in
  let w1 := snd (run Samples.fresh_world) in
  let w3 := snd (run (snd (run w1))) in
  (fst (run Samples.fresh_world), fst (run w1), fst (run (snd (run w1))))
  = (Ok 2%nat, Ok 2%nat, Ok 2%nat)
  /\ count_segments (db w1) (Some (lit "lab")) = 2%nat
  /\ count_segments (db w3) (Some (lit "lab")) = 2%nat
  /\ (List.length (entities (db w3)),
      List.length (segment_entity_links (db w3)),
      List.length (embeddings (db w3))) = (1%nat, 2%nat, 2%nat).
Proof. vm_compute. repeat split. Qed.

End IngestFileExamples.

(* ===================================================================== *)
(** ** Namespace-scoped queries read the namespace's view only *)
(* ===================================================================== *)

Section ViewFacts.
Import PyStr StableId Models Segmenter Store Pipeline Frames Shapes Views.













End ViewFacts.

(* ===================================================================== *)
(** ** Every segment carries the id of the resource it was cut from *)
(* ===================================================================== *)

Section OwnerFacts.
Import PyStr StableId Models Segmenter Store Pipeline Frames Shapes Views.
Local Open Scope Z_scope.

Variable sentences_per_segment : Z.
Variable clk : nat -> datetime.
Variable ir_id : pystr.

Local Abbreviation owned :=
  (Forall (fun segment : ResourceSegment => seg_ir_id segment = ir_id)).











End OwnerFacts.

(* ===================================================================== *)
(** ** Writes under one namespace, seen from another *)
(* ===================================================================== *)

Section TrackedFacts.
Import PyStr StableId Models Segmenter Store Pipeline Frames Shapes Views.

Variable B : pystr.















End TrackedFacts.

Section TrackedSteps.
Import PyStr StableId Models Segmenter Store Pipeline Frames Shapes Views.

Variable E : env.
Variables A B : pystr.
Hypothesis A_not_B : A <> B.






















Lemma existsb_false_all : forall (T : Type) (p : T -> bool) (l : list T),
  existsb p l = false -> Forall (fun r => p r = false) l.
Proof.
  intros T p l. induction l as [| r l IH]; simpl; intros H; constructor.
  - apply orb_false_iff in H as [H _]. exact H.
  - apply IH. apply orb_false_iff in H as [_ H]. exact H.
Qed.






End TrackedSteps.

(* ===================================================================== *)
(** ** Namespace isolation *)
(* ===================================================================== *)

Section IsolationFacts.
Import PyStr StableId Models Segmenter Store Pipeline Frames Shapes Views
       Readings.










End IsolationFacts.

(* ===================================================================== *)
(** ** How segments are built *)
(* ===================================================================== *)

Section BuiltFacts.
Import PyStr StableId Models Segmenter Store ProvenanceKey.
Local Open Scope Z_scope.

Variable sentences_per_segment : Z.
Variable clk : nat -> datetime.
Variables namespace source_uri ir_id : pystr.

Local Abbreviation built kind :=
  (Forall (well_built kind namespace source_uri ir_id)).



Lemma paragraph_step_built :
  forall heading para_index start_index n ib segments,
    built is_heading segments ->
    built is_heading (paragraph_step clk heading para_index ir_id namespace source_uri
                          start_index n segments ib).
Proof.
  intros heading para_index start_index n [sent_idx batch] segments H.
  unfold paragraph_step.
  destruct (truthy (strip (join [space] batch))) eqn:Htext; simpl;
    [| exact H].
  apply Forall_app. split; [exact H |].
  constructor; [| constructor]. repeat split. exact Htext.
Qed.

Lemma segment_paragraph_built :
  forall para_lines heading para_index start_index n segments,
    _segment_paragraph sentences_per_segment clk para_lines heading para_index
      ir_id namespace source_uri start_index n = Ok segments ->
    built is_heading segments.
Proof.
  intros para_lines heading para_index start_index n segments.
  unfold _segment_paragraph. cbv zeta.
  destruct (batches _ _) as [bs | e]; [| discriminate].
  intros H. injection H as <-.
  apply (fold_left_invariant _ _ (built is_heading)); [constructor |].
  intros a b Ha. apply paragraph_step_built. exact Ha.
Qed.

Lemma markdown_line_built : forall st line st',
  built is_heading (md_segments st) ->
  markdown_line sentences_per_segment clk ir_id namespace source_uri st line
  = Ok st' ->
  built is_heading (md_segments st').
Proof.
  intros st line st' H. unfold markdown_line.
  destruct (startswith_char hash_sign line).
  - destruct (md_current_para st) as [| p0 para] eqn:Hpara.
    + intros Hok. injection Hok as <-. exact H.
    + destruct (_segment_paragraph _ _ _ _ _ _ _ _ _ _)
        as [new_segments | e] eqn:Hnew; [| discriminate].
      intros Hok. injection Hok as <-. simpl.
      apply Forall_app. split; [exact H |].
      eapply segment_paragraph_built. exact Hnew.
  - destruct (truthy (strip line)); intros Hok; injection Hok as <-; exact H.
Qed.

Lemma markdown_lines_built : forall lines st st',
  built is_heading (md_segments st) ->
  markdown_lines sentences_per_segment clk ir_id namespace source_uri lines st
  = Ok st' ->
  built is_heading (md_segments st').
Proof.
  induction lines as [| line lines IH]; intros st st' H; simpl.
  - intros Hok. injection Hok as <-. exact H.
  - destruct (markdown_line _ _ _ _ _ st line) as [st1 | e] eqn:Hline;
      [| discriminate].
    apply IH. eapply markdown_line_built; eassumption.
Qed.

Lemma segment_markdown_built : forall text segments,
  segment_markdown sentences_per_segment clk text ir_id namespace source_uri
  = Ok segments ->
  built is_heading segments.
Proof.
  intros text segments. unfold segment_markdown. cbv zeta.
  destruct (markdown_lines _ _ _ _ _ _ _) as [st | e] eqn:Hlines;
    [| discriminate].
  assert (Hst : built is_heading (md_segments st)).
  { eapply markdown_lines_built; [| exact Hlines]. constructor. }
  destruct (md_current_para st) as [| p0 para].
  - intros Hok. injection Hok as <-. exact Hst.
  - destruct (_segment_paragraph _ _ _ _ _ _ _ _ _ _)
      as [new_segments | e] eqn:Hnew; [| discriminate].
    intros Hok. injection Hok as <-.
    apply Forall_app. split; [exact Hst |].
    eapply segment_paragraph_built. exact Hnew.
Qed.

Lemma pages_batch_step_built :
  forall page_num ib (acc : list ResourceSegment * Z),
    built is_page (fst acc) ->
    built is_page (fst (pages_batch_step clk namespace source_uri ir_id page_num acc ib)).
Proof.
  intros page_num [sent_idx batch] [segments index] H.
  unfold pages_batch_step.
  destruct (truthy (strip (join [space] batch))) eqn:Htext; simpl;
    [| exact H].
  simpl in H. apply Forall_app. split; [exact H |].
  constructor; [| constructor]. repeat split. exact Htext.
Qed.

Lemma segment_pages_loop_built :
  forall pages (acc acc' : list ResourceSegment * Z),
    built is_page (fst acc) ->
    segment_pages_loop sentences_per_segment clk namespace source_uri ir_id
      pages acc = Ok acc' ->
    built is_page (fst acc').
Proof.
  induction pages as [| [page_num text] rest IH]; intros acc acc' H; simpl.
  - intros Hok. injection Hok as <-. exact H.
  - destruct (_split_sentences text) as [| s0 sentences]; [apply IH; exact H |].
    destruct (batches _ _) as [bs | e]; [| discriminate].
    apply IH.
    apply (fold_left_invariant _ _
             (fun a : list ResourceSegment * Z => built is_page (fst a)));
      [exact H |].
    intros a b Ha. apply pages_batch_step_built. exact Ha.
Qed.

Lemma segment_pages_built : forall pages segments,
  segment_pages sentences_per_segment clk pages ir_id namespace source_uri
  = Ok segments ->
  built is_page segments.
Proof.
  intros pages segments. unfold segment_pages.
  destruct (segment_pages_loop _ _ _ _ _ _ _) as [[all_segments index] | e]
    eqn:Hloop; [| discriminate].
  intros Hok. injection Hok as <-.
  apply (segment_pages_loop_built _ ([], 0) _ (Forall_nil _) Hloop).
Qed.

End BuiltFacts.

(* ===================================================================== *)
(** ** Provenance keys and segment ids *)
(* ===================================================================== *)

Section ProvenanceFacts.
Import PyStr StableId Models Segmenter Store ProvenanceKey.
Local Open Scope Z_scope.

Lemma build_key_of_page : forall page sentence sentence_count,
  build_provenance_key
    (provenance_dict (ProvPage page sentence sentence_count))
  = key_used (ProvPage page sentence sentence_count).
Proof. reflexivity. Qed.

Lemma build_key_of_heading : forall heading para sentence sentence_count,
  build_provenance_key
    (provenance_dict (ProvHeading heading para sentence sentence_count))
  = key_used (ProvHeading heading para sentence sentence_count).
Proof. reflexivity. Qed.



(** Property X1: every segment that [segment_pages] or
    [segment_markdown] returns has the id
    [generate_segment_id(namespace, source_uri, key, text)] where [key] is
    what [build_provenance_key] computes from the segment's own
    provenance dictionary, carries the hash of its text and the id of the
    resource, and its text is not blank. *)
Theorem page_and_heading_ids_use_build_provenance_key :
  forall (sentences_per_segment : Z) (clk : nat -> datetime)
         (namespace source_uri ir_id : pystr)
         (segments : list ResourceSegment),
    (exists pages,
        segment_pages sentences_per_segment clk pages ir_id namespace
                      source_uri = Ok segments)
    \/ (exists text,
          segment_markdown sentences_per_segment clk text ir_id namespace
                           source_uri = Ok segments) ->
    Forall (fun segment =>
              seg_id segment
              = generate_segment_id namespace source_uri
                  (build_provenance_key
                     (provenance_dict (seg_provenance segment)))
                  (seg_text segment)
              /\ seg_text_hash segment = generate_text_hash (seg_text segment)
              /\ seg_ir_id segment = ir_id
              /\ strip (seg_text segment) <> [])
           segments.
Proof.
  intros sentences_per_segment clk namespace source_uri ir_id segments H.
  assert (Hbuilt :
    Forall (fun segment =>
              (is_page (seg_provenance segment)
               || is_heading (seg_provenance segment))%bool = true
              /\ well_built (fun _ => true) namespace source_uri ir_id segment)
           segments).
  { destruct H as [[pages H] | [text H]].
    - eapply Forall_impl; [| eapply segment_pages_built; exact H].
      intros segment [Hk Hw]. split; [now rewrite Hk |].
      split; [reflexivity | exact Hw].
    - eapply Forall_impl; [| eapply segment_markdown_built; exact H].
      intros segment [Hk Hw]. split; [rewrite Hk; apply orb_true_r |].
      split; [reflexivity | exact Hw]. }
  eapply Forall_impl; [| exact Hbuilt].
  intros segment [Hkind [_ [Hir [Hid [Hhash Htext]]]]].
  split; [| split; [exact Hhash | split; [exact Hir |]]].
  - rewrite Hid. f_equal.
    destruct (seg_provenance segment); try discriminate Hkind; reflexivity.
  - intros Hnil. rewrite Hnil in Htext. discriminate Htext.
Qed.

Lemma page_and_heading_ids_use_build_provenance_key_witness :
  Forall (fun segment =>
            seg_id segment
            = generate_segment_id (lit "ns") (lit "file:///d.md")
                (build_provenance_key
                   (provenance_dict (seg_provenance segment)))
                (seg_text segment)
            /\ seg_text_hash segment = generate_text_hash (seg_text segment)
            /\ seg_ir_id segment = lit "ir"
            /\ strip (seg_text segment) <> [])
         (Samples.produced
            (segment_markdown 1 (fun k => Z.of_nat k) Samples.sample_markdown
               (lit "ir") (lit "ns") (lit "file:///d.md"))).
Proof.
  apply (page_and_heading_ids_use_build_provenance_key
           1 (fun k => Z.of_nat k) (lit "ns") (lit "file:///d.md") (lit "ir")).
  right. exists Samples.sample_markdown. vm_compute. reflexivity.
Defined.



End ProvenanceFacts.

(* ===================================================================== *)
(** ** Sentences and consecutive indices *)
(* ===================================================================== *)

Section SentenceFacts.
Import PyStr StableId Models Segmenter.
Local Open Scope Z_scope.

Lemma rstrip_idempotent : forall s, rstrip (rstrip s) = rstrip s.
Proof.
  induction s as [| c s IH]; simpl; [reflexivity |].
  destruct (rstrip s) as [| r rs] eqn:Hr.
  - destruct (isspace c) eqn:Hc; simpl; [reflexivity | now rewrite Hc].
  - change (rstrip (c :: r :: rs)) with
      (match rstrip (r :: rs) with
       | [] => if isspace c then [] else [c]
       | x => c :: x
       end).
    rewrite IH. reflexivity.
Qed.

Lemma rstrip_keeps_head : forall c s,
  isspace c = false -> exists t, rstrip (c :: s) = c :: t.
Proof.
  intros c s Hc. simpl. destruct (rstrip s) as [| r rs].
  - rewrite Hc. exists []. reflexivity.
  - exists (r :: rs). reflexivity.
Qed.

Lemma lstrip_head : forall s,
  lstrip s = [] \/ exists c t, lstrip s = c :: t /\ isspace c = false.
Proof.
  induction s as [| c s IH]; simpl; [left; reflexivity |].
  destruct (isspace c) eqn:Hc; [exact IH |].
  right. exists c, s. split; [reflexivity | exact Hc].
Qed.

Lemma strip_idempotent : forall s, strip (strip s) = strip s.
Proof.
  intros s. unfold strip.
  destruct (lstrip_head s) as [Hnil | [c [t [Hs Hc]]]].
  - rewrite Hnil. reflexivity.
  - rewrite Hs. destruct (rstrip_keeps_head c t Hc) as [u Hu].
    rewrite Hu. simpl lstrip. rewrite Hc. rewrite <- Hu.
    apply rstrip_idempotent.
Qed.

(** Property X3: every sentence [_split_sentences] returns has at least
    20 characters and no whitespace at either end, whatever the text. *)
Theorem split_sentences_are_stripped_and_long :
  forall (text : pystr),
    Forall (fun sentence =>
              (20 <= List.length sentence)%nat
              /\ strip sentence = sentence
              /\ sentence <> [])
           (_split_sentences text).
Proof.
  intros text. apply Forall_forall. intros sentence Hin.
  unfold _split_sentences in Hin. cbv zeta in Hin.
  apply filter_In in Hin as [Hin Hlen].
  apply Nat.leb_le in Hlen.
  apply in_map_iff in Hin as [raw [Hraw _]]. subst sentence.
  split; [exact Hlen |]. split; [apply strip_idempotent |].
  intros Hnil. rewrite Hnil in Hlen. simpl in Hlen. lia.
Qed.

Lemma seq_indices_snoc : forall (l : list ResourceSegment) (x : ResourceSegment),
  List.map segment_index l
  = List.map (fun k => Z.of_nat k) (seq 0 (List.length l)) ->
  segment_index x = Z.of_nat (List.length l) ->
  List.map segment_index (l ++ [x])
  = List.map (fun k => Z.of_nat k) (seq 0 (List.length (l ++ [x]))).
Proof.
  intros l x Hl Hx. rewrite length_app. simpl.
  rewrite Nat.add_1_r, seq_S, !map_app, Hl. simpl. now rewrite Hx.
Qed.

Lemma text_step_consecutive : forall clk ir_id namespace source_uri ib segments,
  List.map segment_index segments
  = List.map (fun k => Z.of_nat k) (seq 0 (List.length segments)) ->
  List.map segment_index (text_step clk ir_id namespace source_uri segments ib)
  = List.map (fun k => Z.of_nat k)
      (seq 0 (List.length
                (text_step clk ir_id namespace source_uri segments ib))).
Proof.
  intros clk ir_id namespace source_uri [sent_idx batch] segments H.
  unfold text_step. destruct (negb _); [exact H |].
  apply seq_indices_snoc; [exact H | reflexivity].
Qed.

Lemma pages_batch_step_consecutive :
  forall clk namespace source_uri ir_id page_num ib
         (acc : list ResourceSegment * Z),
    snd acc = Z.of_nat (List.length (fst acc))
    /\ List.map segment_index (fst acc)
       = List.map (fun k => Z.of_nat k) (seq 0 (List.length (fst acc))) ->
    let acc' :=
      pages_batch_step clk namespace source_uri ir_id page_num acc ib in
    snd acc' = Z.of_nat (List.length (fst acc'))
    /\ List.map segment_index (fst acc')
       = List.map (fun k => Z.of_nat k) (seq 0 (List.length (fst acc'))).
Proof.
  intros clk namespace source_uri ir_id page_num [sent_idx batch]
         [segments index] [Hi H].
  simpl in Hi, H. unfold pages_batch_step.
  destruct (negb _); simpl; [split; assumption |].
  split.
  - rewrite length_app. simpl. lia.
  - apply seq_indices_snoc; [exact H | simpl; exact Hi].
Qed.

Lemma segment_pages_loop_consecutive :
  forall sentences_per_segment clk namespace source_uri ir_id pages
         (acc acc' : list ResourceSegment * Z),
    snd acc = Z.of_nat (List.length (fst acc))
    /\ List.map segment_index (fst acc)
       = List.map (fun k => Z.of_nat k) (seq 0 (List.length (fst acc))) ->
    segment_pages_loop sentences_per_segment clk namespace source_uri ir_id
      pages acc = Ok acc' ->
    List.map segment_index (fst acc')
    = List.map (fun k => Z.of_nat k) (seq 0 (List.length (fst acc'))).
Proof.
  intros sentences_per_segment clk namespace source_uri ir_id pages.
  induction pages as [| [page_num text] rest IH]; intros acc acc' H; simpl.
  - intros Hok. injection Hok as <-. apply H.
  - destruct (_split_sentences text) as [| s0 sentences]; [apply IH; exact H |].
    destruct (batches _ _) as [bs | e]; [| discriminate].
    apply IH.
    apply (fold_left_invariant _ _
             (fun a : list ResourceSegment * Z =>
                snd a = Z.of_nat (List.length (fst a))
                /\ List.map segment_index (fst a)
                   = List.map (fun k => Z.of_nat k)
                       (seq 0 (List.length (fst a)))));
      [exact H |].
    intros a b Ha. apply pages_batch_step_consecutive. exact Ha.
Qed.

(** Property X4: [segment_text] and [segment_pages] number the segments
    they return 0, 1, ..., n-1 without gaps. *)
Theorem text_and_page_indices_are_consecutive :
  forall (sentences_per_segment : Z) (clk : nat -> datetime)
         (ir_id namespace source_uri : pystr)
         (segments : list ResourceSegment),
    (exists text,
        segment_text sentences_per_segment clk text ir_id namespace
                     source_uri = Ok segments)
    \/ (exists pages,
          segment_pages sentences_per_segment clk pages ir_id namespace
                        source_uri = Ok segments) ->
    List.map segment_index segments
    = List.map (fun k => Z.of_nat k) (seq 0 (List.length segments)).
Proof.
  intros sentences_per_segment clk ir_id namespace source_uri segments
         [[text H] | [pages H]].
  - unfold segment_text in H. cbv zeta in H.
    destruct (batches _ _) as [bs | e]; [| discriminate].
    injection H as <-.
    apply (fold_left_invariant _ _
             (fun a => List.map segment_index a
                       = List.map (fun k => Z.of_nat k)
                           (seq 0 (List.length a))));
      [reflexivity |].
    intros a b Ha. apply text_step_consecutive. exact Ha.
  - unfold segment_pages in H.
    destruct (segment_pages_loop _ _ _ _ _ _ _) as [[all_segments index] | e]
      eqn:Hloop; [| discriminate].
    injection H as <-.
    apply (segment_pages_loop_consecutive _ _ _ _ _ _ ([], 0) _
             (conj eq_refl eq_refl) Hloop).
Qed.

Lemma text_and_page_indices_are_consecutive_witness :
  List.map segment_index
    (Samples.produced
       (segment_pages 1 (fun k => Z.of_nat k) Samples.sample_pages
          (lit "ir") (lit "ns") (lit "file:///d.pdf")))
  = [0; 1; 2].
Proof.
  rewrite (text_and_page_indices_are_consecutive
             1 (fun k => Z.of_nat k) (lit "ir") (lit "ns")
             (lit "file:///d.pdf")).
  - vm_compute. reflexivity.
  - right. exists Samples.sample_pages. vm_compute. reflexivity.
Defined.

End SentenceFacts.

(* ===================================================================== *)
(** ** Store operations one by one *)
(* ===================================================================== *)

Section StoreFacts.
Import PyStr StableId Models Segmenter Store.
Local Open Scope Z_scope.

Lemma find_some_existsb :
  forall (T : Type) (p : T -> bool) (l : list T) (x : T),
    find p l = Some x -> existsb p l = true.
Proof.
  intros T p l x. induction l as [| y l IH]; simpl; [discriminate |].
  destruct (p y); [reflexivity | exact IH].
Qed.

(** Property X5: [upsert_information_resource] looks the resource up by
    (namespace, source_uri).  When a row is found it succeeds, overwrites
    the row's content hash, metadata and [updated_at], keeps the row's id,
    source type and [created_at], and returns the argument with the
    stored id and [created_at]; when none is found and the id is unused
    it appends the resource; when none is found but the id is taken, the
    insert raises and the table stays as it was. *)
Theorem upsert_information_resource_updates_or_inserts :
  forall (E : env) (ir : InformationResource) (w : world),
    match get_ir_by_uri (db w) (ir_namespace ir) (ir_source_uri ir) with
    | Some existing =>
        exists w',
          upsert_information_resource E ir w
          = (Ok (mkIR (ir_id_of existing) (ir_namespace ir) (ir_source_type ir)
                      (ir_source_uri ir) (ir_content_hash ir) (ir_metadata ir)
                      (ir_created_at existing) (clock E (tick w))), w')
          /\ get_ir_by_uri (db w') (ir_namespace ir) (ir_source_uri ir)
             = Some (mkIR (ir_id_of existing) (ir_namespace existing)
                          (ir_source_type existing) (ir_source_uri existing)
                          (ir_content_hash ir) (ir_metadata ir)
                          (ir_created_at existing) (clock E (tick w)))
          /\ List.length (information_resources (db w'))
             = List.length (information_resources (db w))
    | None =>
        match get_ir_by_id (db w) (ir_id_of ir) with
        | None =>
            exists w',
              upsert_information_resource E ir w = (Ok ir, w')
              /\ information_resources (db w')
                 = information_resources (db w) ++ [ir]
        | Some _ =>
            exists w',
              upsert_information_resource E ir w
              = (Raise (ConstraintException (lit "information_resources")), w')
              /\ db w' = db w
        end
    end.
Proof.
  intros E ir w.
  destruct (get_ir_by_uri (db w) (ir_namespace ir) (ir_source_uri ir))
    as [existing |] eqn:Hfind.
  - cbv beta delta [upsert_information_resource update_ir bind get_db utcnow
                    issue set_db ret].
    simpl. rewrite Hfind. simpl.
    eexists. split; [reflexivity |]. simpl. split; [| apply length_map].
    unfold get_ir_by_uri in *. simpl. rewrite find_map_stable.
    + rewrite Hfind. simpl. rewrite str_eqb_refl. reflexivity.
    + intros r. destruct (str_eqb (ir_id_of r) (ir_id_of existing));
        reflexivity.
  - destruct (get_ir_by_id (db w) (ir_id_of ir)) as [other |] eqn:Hid;
      cbv beta delta [upsert_information_resource insert_ir bind get_db issue
                      set_db ret raise];
      simpl; rewrite Hfind; simpl.
    + rewrite (proj2 (existsb_exists _ _)).
      * eexists. split; reflexivity.
      * unfold get_ir_by_id in Hid. apply find_some in Hid as [Hin Heq].
        exists other. split; [exact Hin |]. rewrite Heq. reflexivity.
    + rewrite (existsb_or_false _
                 (fun r => str_eqb (ir_id_of r) (ir_id_of ir))
                 (fun r => (str_eqb (ir_namespace r) (ir_namespace ir)
                            && str_eqb (ir_source_uri r) (ir_source_uri ir))%bool)).
      * eexists. split; reflexivity.
      * apply find_none_existsb. exact Hid.
      * apply find_none_existsb. exact Hfind.
Qed.










Lemma sequence_results_length :
  forall (T : Type) (l : list (result T)) (r : list T),
    sequence_results l = Ok r -> List.length r = List.length l.
Proof.
  intros T l r H. apply sequence_results_ok_inv in H. subst l.
  now rewrite length_map.
Qed.

(** Property X9: for a non-negative [top_k], [search_by_embedding]
    returns, when it returns, exactly [min(top_k, n)] hits, [n] being the
    number of candidate rows; in particular it returns the empty list when
    no embedding matches the scope. *)
Theorem search_returns_at_most_top_k :
  forall (s : store) (query : list float) (top_k : Z)
         (namespace : option pystr) (hits : list search_hit),
    0 <= top_k ->
    search_by_embedding s query top_k namespace = Ok hits ->
    List.length hits
    = Nat.min (Z.to_nat top_k) (List.length (embedding_rows s namespace)).
Proof.
  intros s query top_k namespace hits Hk. unfold search_by_embedding.
  destruct (embedding_rows s namespace) as [| row rows].
  - intros H. injection H as <-. simpl. now rewrite Nat.min_0_r.
  - destruct (sequence_results _) as [scored | e] eqn:Hseq; [| discriminate].
    intros H. injection H as <-. unfold slice_to.
    replace (0 <=? top_k) with true by (symmetry; apply Z.leb_le; exact Hk).
    rewrite length_firstn.
    rewrite (Permutation_length (sort_by_perm _ _ scored)).
    rewrite (sequence_results_length _ _ _ Hseq), length_map. reflexivity.
Qed.

Lemma search_returns_at_most_top_k_witness :
  List.length
    (match search_by_embedding Samples.zero_vector_store [1%float; 0%float] 5
             None with
     | Ok hits => hits
     | Raise _ => []
     end) = 1%nat.
Proof.
  rewrite (search_returns_at_most_top_k Samples.zero_vector_store
             [1%float; 0%float] 5 None).
  - vm_compute. reflexivity.
  - lia.
  - vm_compute. reflexivity.
Defined.

End StoreFacts.

(* ===================================================================== *)
(** ** Listings and their order *)
(* ===================================================================== *)

Section ListingFacts.
Import PyStr StableId Models Segmenter Store.
Local Open Scope Z_scope.

Lemma sort_by_In : forall (T : Type) (before : T -> T -> bool) (l : list T) x,
  In x (sort_by before l) <-> In x l.
Proof.
  intros T before l x. split; apply Permutation_in;
    [| apply Permutation_sym]; apply sort_by_perm.
Qed.

Lemma sort_by_length : forall (T : Type) (before : T -> T -> bool) (l : list T),
  List.length (sort_by before l) = List.length l.
Proof. intros T before l. apply Permutation_length, sort_by_perm. Qed.

Lemma sort_by_key_sorted :
  forall (T : Type) (key : T -> Z) (l : list T),
    StronglySorted (fun a b => key a <= key b)
                   (sort_by (fun a b => key a <=? key b) l).
Proof.
  intros T key l.
  apply StronglySorted_weaken
    with (R := fun a b : T => (key a <=? key b) = true).
  - intros a b H. now apply Z.leb_le.
  - apply Sorted_StronglySorted.
    + intros a b c Hab Hbc. apply Z.leb_le in Hab, Hbc. apply Z.leb_le. lia.
    + apply sort_by_sorted. intros a b H. apply Z.leb_gt in H.
      apply Z.leb_le. lia.
Qed.

Lemma str_leb_total : forall a b, str_leb a b = false -> str_leb b a = true.
Proof.
  induction a as [| x a IH]; intros [| y b]; simpl; try easy.
  destruct (N.ltb_spec x y), (N.ltb_spec y x); try easy; try lia.
  apply IH.
Qed.

Lemma str_leb_trans : forall a b c,
  str_leb a b = true -> str_leb b c = true -> str_leb a c = true.
Proof.
  induction a as [| x a IH]; intros [| y b] [| z c]; simpl; try easy.
  destruct (N.ltb_spec x y), (N.ltb_spec y x), (N.ltb_spec y z),
           (N.ltb_spec z y), (N.ltb_spec x z), (N.ltb_spec z x);
    try easy; try lia.
  apply IH.
Qed.

Lemma str_leb_antisym : forall a b,
  str_leb a b = true -> str_leb b a = true -> a = b.
Proof.
  induction a as [| x a IH]; intros [| y b]; simpl; try easy.
  destruct (N.ltb_spec x y), (N.ltb_spec y x); try easy; try lia.
  intros Hab Hba. f_equal; [lia | now apply IH].
Qed.

(** Property X10: [list_irs] returns the stored resources of the
    namespace, each as often as it is stored, newest first; a missing or
    empty namespace lists the resources of every namespace. *)
Theorem list_irs_newest_first :
  forall (s : store) (namespace : option pystr),
    (forall ir,
        In ir (list_irs s namespace)
        <-> In ir (information_resources s)
            /\ match namespace with
               | Some (c :: ns) => ir_namespace ir = c :: ns
               | _ => True
               end)
    /\ (List.length (list_irs s namespace)
        <= List.length (information_resources s))%nat
    /\ StronglySorted (fun a b => ir_created_at b <= ir_created_at a)
                      (list_irs s namespace).
Proof.
  intros s namespace. unfold list_irs. cbv zeta. split; [| split].
  - intros ir. rewrite sort_by_In.
    destruct namespace as [[| c ns] |]; simpl; try tauto.
    rewrite filter_In, str_eqb_eq. tauto.
  - rewrite sort_by_length.
    destruct (namespace_filter namespace); [apply filter_length_le | lia].
  - apply StronglySorted_weaken
      with (R := fun a b : InformationResource =>
                   (ir_created_at b <=? ir_created_at a) = true).
    + intros a b H. now apply Z.leb_le.
    + apply Sorted_StronglySorted.
      * intros a b c Hab Hbc. apply Z.leb_le in Hab, Hbc. apply Z.leb_le. lia.
      * apply sort_by_sorted. intros a b H. apply Z.leb_gt in H.
        apply Z.leb_le. lia.
Qed.

(** Property X11: [get_segments_for_ir] returns exactly the stored
    segments of the resource, in ascending [segment_index]; for a resource
    id no segment carries it returns the empty list. *)
Theorem get_segments_for_ir_in_index_order :
  forall (s : store) (ir_id : pystr),
    (forall segment,
        In segment (get_segments_for_ir s ir_id)
        <-> In segment (resource_segments s) /\ seg_ir_id segment = ir_id)
    /\ StronglySorted (fun a b => segment_index a <= segment_index b)
                      (get_segments_for_ir s ir_id)
    /\ (existsb (fun r => str_eqb (seg_ir_id r) ir_id) (resource_segments s)
        = false -> get_segments_for_ir s ir_id = []).
Proof.
  intros s ir_id. unfold get_segments_for_ir. split; [| split].
  - intros segment. rewrite sort_by_In, filter_In, str_eqb_eq. tauto.
  - apply (sort_by_key_sorted ResourceSegment segment_index).
  - intros Hnone.
    replace (filter (fun r => str_eqb (seg_ir_id r) ir_id) (resource_segments s))
      with (@nil ResourceSegment); [reflexivity |].
    symmetry. induction (resource_segments s) as [| r l IH]; simpl in *;
      [reflexivity |].
    apply orb_false_iff in Hnone as [Hr Hl]. rewrite Hr. apply IH. exact Hl.
Qed.

Lemma get_segments_for_ir_in_index_order_witness :
  get_segments_for_ir Samples.recall_store (lit "no-such-resource") = [].
Proof.
  apply (get_segments_for_ir_in_index_order Samples.recall_store
           (lit "no-such-resource")).
  vm_compute. reflexivity.
Defined.

(** Property X12: [list_entities] returns the stored entities that pass
    the namespace and type filters (an empty or missing filter passes
    everything), ordered by name in code-point order. *)
Theorem list_entities_sorted_by_name :
  forall (s : store) (namespace entity_type : option pystr),
    (forall e,
        In e (list_entities s namespace entity_type)
        <-> In e (entities s)
            /\ match namespace with
               | Some (c :: ns) => ent_namespace e = c :: ns
               | _ => True
               end
            /\ match entity_type with
               | Some (c :: ty) => ent_type e = c :: ty
               | _ => True
               end)
    /\ StronglySorted (fun a b => str_leb (ent_name a) (ent_name b) = true)
                      (list_entities s namespace entity_type).
Proof.
  intros s namespace entity_type. unfold list_entities. cbv zeta. split.
  - intros e. rewrite sort_by_In.
    destruct namespace as [[| c ns] |], entity_type as [[| d ty] |]; simpl;
      rewrite ?filter_In, ?str_eqb_eq; tauto.
  - apply Sorted_StronglySorted.
    + intros a b c. apply str_leb_trans.
    + apply sort_by_sorted. intros a b. apply str_leb_total.
Qed.

End ListingFacts.

(* ===================================================================== *)
(** ** The confidence the regex extractor computes *)
(* ===================================================================== *)

Section ConfidenceRange.
Import PyStr Models.
Local Open Scope float_scope.

(** Property X13: whatever the entity type and the matched name,
    [_calculate_confidence] returns a value between 0.7 and 1.0: it is
    never below the default [min_confidence] of 0.5, so [extract] skips no
    match for its confidence, and the [ExtractedEntity] constructor never
    rejects it. *)
Theorem calculated_confidence_is_accepted :
  forall (upper lower : pystr -> pystr) (isdigit : char -> bool)
         (entity_type name : pystr),
    let c := Extraction._calculate_confidence upper lower isdigit
               entity_type name in
    (Extraction.base_confidence <=? c) = true
    /\ (c <=? 1) = true
    /\ (c <? 0x1p-1) = false
    /\ new_ExtractedEntity entity_type name [] c []
       = Ok (mkExtracted entity_type name [] c []).
Proof.
  intros upper lower isdigit entity_type name.
  unfold Extraction._calculate_confidence. cbv zeta.
  destruct (6 <=? List.length name)%nat;
    destruct (negb (str_eqb name (upper name))
              && negb (str_eqb name (lower name)))%bool;
    destruct (existsb isdigit name);
    destruct (str_eqb entity_type (lit "email")
              || str_eqb entity_type (lit "doi")
              || str_eqb entity_type (lit "pmid"))%bool;
    (split; [vm_compute; reflexivity |]);
    (split; [vm_compute; reflexivity |]);
    (split; [vm_compute; reflexivity |]);
    unfold new_ExtractedEntity;
    match goal with
    | |- (if negb ?b then _ else _) = _ =>
        replace b with true by (vm_compute; reflexivity)
    end; reflexivity.
Qed.

End ConfidenceRange.

(* ===================================================================== *)
(** ** The shape of the hashes *)
(* ===================================================================== *)

Section HashShape.
Import PyStr SHA256 StableId.


End HashShape.

(* ===================================================================== *)
(** ** Registration, blank files and embeddings *)
(* ===================================================================== *)

Section RegistrationSteps.
Import PyStr SHA256 StableId Models Segmenter Store Pipeline Frames Shapes.
Local Open Scope Z_scope.

Variable E : env.

Lemma only_resources_written_refl : forall w, only_resources_written w w.
Proof. intros w. repeat split. Qed.

(** What [_register_ir] does when the file is registered with another
    content hash. *)
Lemma register_ir_changed_run :
  forall path namespace source_type metadata w content existing,
    fs_read E path = Some content ->
    get_ir_by_uri (db w) namespace (source_uri_of E path) = Some existing ->
    ir_content_hash existing <> generate_content_hash content ->
    let merged :=
      match metadata with
      | Some (kv :: m) => dict_update (ir_metadata existing) (kv :: m)
      | _ => ir_metadata existing
      end in
    _register_ir E path namespace source_type metadata w
    = (Ok (mkIR (ir_id_of existing) (ir_namespace existing)
                (ir_source_type existing) (ir_source_uri existing)
                (generate_content_hash content) merged
                (ir_created_at existing) (clock E (tick w))),
       mkWorld
         (set_irs (db w)
            (List.map (fun r =>
               if str_eqb (ir_id_of r) (ir_id_of existing)
               then mkIR (ir_id_of r) (ir_namespace r) (ir_source_type r)
                         (ir_source_uri r) (generate_content_hash content)
                         merged (ir_created_at r) (clock E (tick w))
               else r)
             (information_resources (db w))))
         (S (tick w)) (UpdateIR (ir_id_of existing) :: writes w)).
Proof.
  intros path namespace source_type metadata w content existing
         Hread Hfind Hhash merged.
  destruct (get_ir_by_uri_key _ _ _ _ Hfind) as [Hns Huri].
  unfold _register_ir, read_bytes. rewrite Hread.
  cbv beta delta [bind ret get_db]. simpl. rewrite Hfind.
  apply str_eqb_neq in Hhash. rewrite Hhash. simpl.
  cbv beta delta [upsert_information_resource update_ir bind get_db utcnow
                  issue set_db ret].
  simpl. rewrite Hns, Huri, Hfind. reflexivity.
Qed.

(** [_register_ir] writes nothing but [information_resources], and the
    only exception it raises for a readable file is the constraint on the
    id of a new resource. *)
Lemma register_ir_outcome :
  forall path namespace source_type metadata w content,
    fs_read E path = Some content ->
    only_resources_written w
      (snd (_register_ir E path namespace source_type metadata w))
    /\ ((exists ir,
           fst (_register_ir E path namespace source_type metadata w) = Ok ir)
        \/ fst (_register_ir E path namespace source_type metadata w)
           = Raise (ConstraintException (lit "information_resources"))).
Proof.
  intros path namespace source_type metadata w content Hread.
  destruct (get_ir_by_uri (db w) namespace (source_uri_of E path))
    as [existing |] eqn:Hfind.
  - destruct (str_eqb (ir_content_hash existing)
                      (generate_content_hash content)) eqn:Hhash.
    + apply str_eqb_eq in Hhash.
      rewrite (register_ir_unchanged E path namespace source_type metadata w
                 content existing Hread Hfind Hhash).
      split; [apply only_resources_written_refl |].
      left. exists existing. reflexivity.
    + apply str_eqb_neq in Hhash.
      rewrite (register_ir_changed_run path namespace source_type metadata w
                 content existing Hread Hfind Hhash).
      split; [repeat split |]. left. eexists. reflexivity.
  - unfold _register_ir, read_bytes. rewrite Hread.
    cbv beta delta [bind ret get_db new_uuid utcnow
                    upsert_information_resource insert_ir issue set_db raise
                    new_InformationResource].
    simpl. rewrite Hfind. simpl. rewrite Hfind. simpl.
    destruct (existsb _ (information_resources (db w))); simpl.
    + split; [repeat split | right; reflexivity].
    + split; [repeat split |]. left. eexists. reflexivity.
Qed.

End RegistrationSteps.

Section RegistrationFacts.
Import PyStr SHA256 StableId Models Segmenter Store Pipeline Frames Shapes.
Local Open Scope Z_scope.

(** Property X15: a [.txt] or [.md] file whose text is blank is
    registered and nothing else: whatever the call does, it leaves the
    segment, entity, link and embedding tables as they were; it returns 0
    with the resource stored under the hash of the file, unless inserting
    a new resource violates a constraint. *)
Theorem blank_file_is_registered_without_segments :
  forall (E : env) (path : pystr) (namespace : option pystr)
         (metadata : option json_dict) (content : bytes) (text : pystr)
         (w : world) (r : result nat) (w' : world),
    fs_read E path = Some content ->
    decode_text E content = Some text ->
    strip text = [] ->
    path_suffix_lower E path = lit ".txt"
    \/ path_suffix_lower E path = lit ".md" ->
    ingest_file E path namespace metadata w = (r, w') ->
    only_resources_written w w'
    /\ ((r = Ok 0%nat
         /\ exists ir,
              get_ir_by_uri (db w') (effective_namespace E namespace)
                            (source_uri_of E path) = Some ir
              /\ ir_content_hash ir = generate_content_hash content)
        \/ r = Raise (ConstraintException (lit "information_resources"))).
Proof.
  intros E path namespace metadata content text w r w'
         Hread Hdec Hstrip Hsuffix Hrun.
  rewrite ingest_file_run in Hrun. rewrite Hread in Hrun. cbv zeta in Hrun.
  assert (Hshape :
    exists source_type,
      bind (bind (_register_ir E path (effective_namespace E namespace)
                    source_type metadata)
                 (fun ir => ret (ir, [], [])))
           (finish E) w = (r, w')).
  { assert (Htext : read_text E path
                    = fun w0 => (Ok text, w0)).
    { unfold read_text, read_bytes, bind. rewrite Hread. simpl.
      rewrite Hdec. reflexivity. }
    destruct Hsuffix as [Hs | Hs]; rewrite Hs in Hrun.
    - change (str_eqb (lit ".txt") (lit ".pdf")) with false in Hrun.
      change (str_eqb (lit ".txt") (lit ".md")) with false in Hrun.
      change (str_eqb (lit ".txt") (lit ".txt")) with true in Hrun.
      cbv iota in Hrun. exists (lit "txt"). rewrite <- Hrun.
      unfold ingest_with, text_plan, bind. rewrite Htext, Hstrip.
      destruct (_register_ir _ _ _ _ _ _) as [[ir | e] w1]; reflexivity.
    - change (str_eqb (lit ".md") (lit ".pdf")) with false in Hrun.
      change (str_eqb (lit ".md") (lit ".md")) with true in Hrun.
      cbv iota in Hrun. exists (lit "md"). rewrite <- Hrun.
      unfold ingest_with, markdown_plan, bind. rewrite Htext, Hstrip.
      destruct (_register_ir _ _ _ _ _ _) as [[ir | e] w1]; reflexivity. }
  destruct Hshape as [source_type Hshape].
  destruct (register_ir_outcome E path (effective_namespace E namespace)
              source_type metadata w content Hread) as [Hframe Hout].
  unfold bind in Hshape.
  destruct (_register_ir E path (effective_namespace E namespace)
              source_type metadata w) as [[ir | e] w1] eqn:Hreg;
    simpl in Hshape, Hframe, Hout; injection Hshape as <- <-.
  - split; [exact Hframe |]. left. split; [reflexivity |].
    destruct (register_ir_ok E _ _ _ _ _ _ _ Hreg)
      as [content' [Hread' [Hfind Hhash]]].
    rewrite Hread in Hread'. injection Hread' as <-.
    exists ir. split; assumption.
  - split; [exact Hframe |]. right.
    destruct Hout as [[ir Hir] | Hraise]; [discriminate |].
    injection Hraise as ->. reflexivity.
Qed.

Lemma blank_file_is_registered_without_segments_witness :
  only_resources_written Samples.fresh_world
    (snd (ingest_file Samples.blank_env (lit "/d/blank.txt") None None
            Samples.fresh_world)).
Proof.
  apply (blank_file_is_registered_without_segments Samples.blank_env
           (lit "/d/blank.txt") None None [32; 32] (lit "  ")
           Samples.fresh_world
           (fst (ingest_file Samples.blank_env (lit "/d/blank.txt") None None
                   Samples.fresh_world))
           (snd (ingest_file Samples.blank_env (lit "/d/blank.txt") None None
                   Samples.fresh_world))).
  - reflexivity.
  - vm_compute. reflexivity.
  - reflexivity.
  - left. reflexivity.
  - vm_compute. reflexivity.
Defined.

End RegistrationFacts.

(* ===================================================================== *)
(** ** Re-registration, stored embeddings and the keys of resources *)
(* ===================================================================== *)

Section EmbeddingSteps.
Import PyStr SHA256 StableId Models Segmenter Store Pipeline Frames Shapes.
Local Open Scope Z_scope.

Variable E : env.






End EmbeddingSteps.

Section ResourceKeys.
Import PyStr SHA256 StableId Models Segmenter Store Pipeline Frames Shapes.
Local Open Scope Z_scope.

Variable E : env.

Local Abbreviation ir_key :=
  (fun r : InformationResource => (ir_namespace r, ir_source_uri r)).

(** What [_register_ir] does to the resource table: it keeps the ids and
    keys of all rows, or it appends one row whose id and key are new. *)
Lemma register_ir_resources : forall path namespace source_type metadata w,
  let irs := information_resources (db w) in
  let irs' :=
    information_resources
      (db (snd (_register_ir E path namespace source_type metadata w))) in
  (List.map ir_id_of irs' = List.map ir_id_of irs
   /\ List.map ir_key irs' = List.map ir_key irs)
  \/ (exists ir,
        irs' = irs ++ [ir]
        /\ ~ In (ir_id_of ir) (List.map ir_id_of irs)
        /\ ~ In (ir_key ir) (List.map ir_key irs)).
Proof.
  intros path namespace source_type metadata w. cbv zeta.
  destruct (fs_read E path) as [content |] eqn:Hread.
  2: { unfold _register_ir, read_bytes. rewrite Hread. left.
       split; reflexivity. }
  destruct (get_ir_by_uri (db w) namespace (source_uri_of E path))
    as [existing |] eqn:Hfind.
  - left.
    destruct (str_eqb (ir_content_hash existing)
                      (generate_content_hash content)) eqn:Hhash.
    + apply str_eqb_eq in Hhash.
      rewrite (register_ir_unchanged E path namespace source_type metadata w
                 content existing Hread Hfind Hhash).
      split; reflexivity.
    + apply str_eqb_neq in Hhash.
      rewrite (register_ir_changed_run E path namespace source_type metadata
                 w content existing Hread Hfind Hhash).
      simpl. split; apply map_key_update; reflexivity.
  - unfold _register_ir, read_bytes. rewrite Hread.
    cbv beta delta [bind ret get_db new_uuid utcnow
                    upsert_information_resource insert_ir issue set_db raise
                    new_InformationResource].
    simpl. rewrite Hfind. simpl. rewrite Hfind. simpl.
    destruct (existsb _ (information_resources (db w))) eqn:Hex; simpl.
    + left. split; reflexivity.
    + right. eexists. split; [reflexivity |].
      apply existsb_false_all in Hex. rewrite Forall_forall in Hex.
      split; intros Hin; apply in_map_iff in Hin as [r [Hr Hin]];
        specialize (Hex r Hin); simpl in Hex, Hr;
        apply orb_false_iff in Hex as [Hid Hkey].
      * rewrite Hr, str_eqb_refl in Hid. discriminate.
      * injection Hr as Hns Huri.
        rewrite Hns, Huri, !str_eqb_refl in Hkey. discriminate.
Qed.

Lemma NoDup_snoc : forall (T : Type) (l : list T) (x : T),
  NoDup l -> ~ In x l -> NoDup (l ++ [x]).
Proof.
  intros T l x Hl Hx.
  apply (Permutation_NoDup (Permutation_cons_append l x)).
  constructor; assumption.
Qed.

Lemma register_ir_keyed : forall path namespace source_type metadata w,
  resources_keyed (db w) ->
  resources_keyed
    (db (snd (_register_ir E path namespace source_type metadata w))).
Proof.
  intros path namespace source_type metadata w [Hid Hkey].
  unfold resources_keyed.
  destruct (register_ir_resources path namespace source_type metadata w)
    as [[Hids Hkeys] | [ir [Hirs [Hnew_id Hnew_key]]]].
  - rewrite Hids, Hkeys. split; assumption.
  - rewrite Hirs, !map_app. simpl.
    split; apply NoDup_snoc; assumption.
Qed.

(** Everything an ingestion does after the registration leaves the
    resource table alone. *)
Lemma store_and_link_grows : forall ir segments namespace,
  preserves grows (store_and_link E ir segments namespace).
Proof.
  intros ir segments namespace. unfold store_and_link.
  destruct segments as [| s0 segments];
    [apply (preserves_ret grows grows_refl) |].
  apply (preserves_bind grows grows_trans).
  - unfold bulk_upsert_segments.
    apply (preserves_mapM grows grows_refl grows_trans).
    apply upsert_segment_grows.
  - intros segments'.
    apply (preserves_bind grows grows_trans).
    + apply extract_and_link_grows.
    + intros entities. apply (preserves_ret grows grows_refl).
Qed.

Lemma finish_grows : forall r, preserves grows (finish E r).
Proof.
  intros [[ir segments] entities]. unfold finish.
  apply (preserves_bind grows grows_trans).
  - destruct segments; [apply (preserves_ret grows grows_refl) |].
    apply (preserves_weaken _ core_unchanged grows);
      [apply core_unchanged_grows | apply embed_segments_core_unchanged].
  - intros u. apply (preserves_ret grows grows_refl).
Qed.

Lemma bind_assoc :
  forall (A B C : Type) (m : M A) (k : A -> M B) (h : B -> M C) w,
    bind (bind m k) h w = bind m (fun a => bind (k a) h) w.
Proof.
  intros A B C m k h w. unfold bind.
  destruct (m w) as [[a | e] w1]; reflexivity.
Qed.

Lemma keyed_grows : forall w w',
  grows w w' -> resources_keyed (db w) -> resources_keyed (db w').
Proof.
  intros w w' [Hirs _] Hkeyed. unfold resources_keyed. rewrite Hirs.
  exact Hkeyed.
Qed.

Lemma ingest_with_keyed :
  forall (X : Type) source_type (pre : M X) seg path namespace metadata w,
    preserves grows pre ->
    resources_keyed (db w) ->
    resources_keyed
      (db (snd (bind (ingest_with E X source_type pre seg path namespace
                        metadata) (finish E) w))).
Proof.
  intros X source_type pre seg path namespace metadata w Hpre Hkeyed.
  pose proof (register_ir_keyed path namespace source_type metadata w Hkeyed)
    as Hreg.
  assert (Hrest : forall ir,
    preserves grows
      (bind (bind pre (fun x =>
               match seg x ir with
               | None => ret (ir, [], [])
               | Some f =>
                   bind (run_segmenter E f)
                        (fun segments =>
                           store_and_link E ir segments namespace)
               end)) (finish E))).
  { intros ir. apply (preserves_bind grows grows_trans).
    - apply (preserves_bind grows grows_trans); [exact Hpre |].
      intros x. destruct (seg x ir) as [f |];
        [| apply (preserves_ret grows grows_refl)].
      apply (preserves_bind grows grows_trans).
      + apply (preserves_run_segmenter grows grows_refl grows_tick).
      + intros segments. apply store_and_link_grows.
    - apply finish_grows. }
  unfold ingest_with.
  destruct (_register_ir E path namespace source_type metadata w)
    as [[ir | e] w1] eqn:Hrun; simpl in Hreg.
  - rewrite bind_assoc, (bind_run_ok _ _ _ _ _ _ _ Hrun).
    apply (keyed_grows w1); [exact (Hrest ir w1) | exact Hreg].
  - rewrite bind_assoc, (bind_run_raise _ _ _ _ _ _ _ Hrun). exact Hreg.
Qed.

End ResourceKeys.

Section KeyFacts.
Import PyStr SHA256 StableId Models Segmenter Store Pipeline Frames Shapes.
Local Open Scope Z_scope.



(** Property X17: when the file is registered under another content
    hash, [_register_ir] updates the stored resource in place: the
    resource it returns is the stored row, with the id, source type and
    [created_at] it had, the new hash, and the metadata argument merged
    into the old metadata; the ids of the table and the other tables are
    unchanged, and registering the same file again changes nothing. *)
Theorem changed_file_updates_its_resource :
  forall (E : env) (path namespace source_type : pystr)
         (metadata : option json_dict) (w : world) (content : bytes)
         (existing : InformationResource),
    fs_read E path = Some content ->
    get_ir_by_uri (db w) namespace (source_uri_of E path) = Some existing ->
    ir_content_hash existing <> generate_content_hash content ->
    exists ir' w',
      _register_ir E path namespace source_type metadata w = (Ok ir', w')
      /\ ir' = mkIR (ir_id_of existing) namespace (ir_source_type existing)
                    (source_uri_of E path) (generate_content_hash content)
                    (match metadata with
                     | Some (kv :: m) =>
                         dict_update (ir_metadata existing) (kv :: m)
                     | _ => ir_metadata existing
                     end)
                    (ir_created_at existing) (clock E (tick w))
      /\ get_ir_by_uri (db w') namespace (source_uri_of E path) = Some ir'
      /\ List.map ir_id_of (information_resources (db w'))
         = List.map ir_id_of (information_resources (db w))
      /\ only_resources_written w w'
      /\ forall source_type' metadata',
           _register_ir E path namespace source_type' metadata' w'
           = (Ok ir', w').
Proof.
  intros E path namespace source_type metadata w content existing
         Hread Hfind Hhash.
  destruct (get_ir_by_uri_key _ _ _ _ Hfind) as [Hns Huri].
  rewrite (register_ir_changed_run E path namespace source_type metadata w
             content existing Hread Hfind Hhash).
  cbv zeta. do 2 eexists. split; [reflexivity |].
  assert (Hlookup :
    get_ir_by_uri
      (set_irs (db w)
         (List.map (fun r =>
            if str_eqb (ir_id_of r) (ir_id_of existing)
            then mkIR (ir_id_of r) (ir_namespace r) (ir_source_type r)
                      (ir_source_uri r) (generate_content_hash content)
                      (match metadata with
                       | Some (kv :: m) =>
                           dict_update (ir_metadata existing) (kv :: m)
                       | _ => ir_metadata existing
                       end)
                      (ir_created_at r) (clock E (tick w))
            else r)
          (information_resources (db w))))
      namespace (source_uri_of E path)
    = Some (mkIR (ir_id_of existing) (ir_namespace existing)
                 (ir_source_type existing) (ir_source_uri existing)
                 (generate_content_hash content)
                 (match metadata with
                  | Some (kv :: m) =>
                      dict_update (ir_metadata existing) (kv :: m)
                  | _ => ir_metadata existing
                  end)
                 (ir_created_at existing) (clock E (tick w)))).
  { unfold get_ir_by_uri in *. simpl. rewrite find_map_stable.
    - rewrite Hfind. simpl. rewrite str_eqb_refl. reflexivity.
    - intros r. destruct (str_eqb (ir_id_of r) (ir_id_of existing));
        reflexivity. }
  split; [now rewrite Hns, Huri |].
  split; [exact Hlookup |].
  split; [simpl; apply map_key_update; reflexivity |].
  split; [repeat split |].
  intros source_type' metadata'.
  apply (register_ir_unchanged E path namespace source_type' metadata' _
           content); [exact Hread | exact Hlookup | reflexivity].
Qed.

Lemma changed_file_updates_its_resource_witness :
  exists ir' w',
    _register_ir Samples.edited_env (lit "/d/a.txt") (lit "lab") (lit "txt")
                 None Samples.ingested_world = (Ok ir', w')
    /\ ir_id_of ir' = lit "uuid-0".
Proof.
  destruct (changed_file_updates_its_resource Samples.edited_env
              (lit "/d/a.txt") (lit "lab") (lit "txt") None
              Samples.ingested_world
              (utf8_encode (lit "An edited document."))
              Samples.registered_document)
    as [ir' [w' [Hrun [Hir _]]]].
  - reflexivity.
  - vm_compute. reflexivity.
  - vm_compute. discriminate.
  - exists ir', w'. split; [exact Hrun |]. rewrite Hir. reflexivity.
Defined.

Lemma filter_key_at_most_one :
  forall (T : Type) (key : T -> pystr) (k : pystr) (l : list T),
    NoDup (List.map key l) ->
    (List.length (filter (fun r => str_eqb k (key r)) l) <= 1)%nat.
Proof.
  intros T key k l. induction l as [| a l IH]; simpl; intros Hnd; [lia |].
  inversion Hnd as [| x l' Hnotin Hrest]; subst.
  destruct (str_eqb k (key a)) eqn:Hk; [| now apply IH].
  apply str_eqb_eq in Hk. subst k. simpl.
  replace (filter (fun r => str_eqb (key a) (key r)) l) with (@nil T);
    [simpl; lia |].
  symmetry. clear IH Hnd Hrest. induction l as [| b l IH]; simpl in *;
    [reflexivity |].
  destruct (str_eqb (key a) (key b)) eqn:Hab.
  - apply str_eqb_eq in Hab. exfalso. apply Hnotin. left. now symmetry.
  - apply IH. intros Hin. apply Hnotin. right. exact Hin.
Qed.

(** Property X18: as long as resource ids are unique, the count of a
    namespace never exceeds the count over all namespaces, because the
    join with [information_resources] matches a segment at most once. *)
Theorem scoped_count_is_at_most_the_total :
  forall (s : store) (namespace : option pystr),
    NoDup (List.map ir_id_of (information_resources s)) ->
    (count_segments s namespace <= count_segments s None)%nat.
Proof.
  intros s namespace Hnd. unfold count_segments.
  destruct (namespace_filter namespace) as [ns |]; simpl; [| lia].
  eapply Nat.le_trans; [apply filter_length_le |].
  unfold join_on.
  induction (resource_segments s) as [| a l IH]; simpl; [lia |].
  rewrite length_app, length_map.
  pose proof (filter_key_at_most_one InformationResource ir_id_of
                (seg_ir_id a) (information_resources s) Hnd).
  lia.
Qed.

Lemma scoped_count_is_at_most_the_total_witness :
  (count_segments Samples.recall_store (Some (lit "lab"))
   <= count_segments Samples.recall_store None)%nat.
Proof.
  apply (scoped_count_is_at_most_the_total Samples.recall_store
           (Some (lit "lab"))).
  simpl. repeat constructor. simpl. tauto.
Defined.

(** Property X19: [ingest_file] keeps the keys of the resource table:
    if ids and (namespace, source_uri) pairs are unique before the call,
    they are unique after it, whether the call returns or raises. *)
Theorem ingest_file_keeps_resources_keyed :
  forall (E : env) (path : pystr) (namespace : option pystr)
         (metadata : option json_dict) (w : world),
    resources_keyed (db w) ->
    resources_keyed (db (snd (ingest_file E path namespace metadata w))).
Proof.
  intros E path namespace metadata w Hkeyed.
  rewrite ingest_file_run.
  destruct (fs_read E path) as [content |]; [| exact Hkeyed].
  cbv zeta.
  destruct (str_eqb (path_suffix_lower E path) (lit ".pdf")).
  { apply ingest_with_keyed; [| exact Hkeyed].
    apply (preserves_read_bytes grows grows_refl). }
  destruct (str_eqb (path_suffix_lower E path) (lit ".md")).
  { apply ingest_with_keyed; [| exact Hkeyed].
    apply (preserves_read_text grows grows_refl grows_trans). }
  destruct (str_eqb (path_suffix_lower E path) (lit ".txt")).
  { apply ingest_with_keyed; [| exact Hkeyed].
    apply (preserves_read_text grows grows_refl grows_trans). }
  exact Hkeyed.
Qed.

Lemma ingest_file_keeps_resources_keyed_witness :
  resources_keyed (db (snd Samples.first_ingestion)).
Proof.
  apply (ingest_file_keeps_resources_keyed Samples.sample_env
           (lit "/d/a.txt") (Some (lit "lab")) None Samples.fresh_world).
  split; constructor.
Defined.

End KeyFacts.

(* ===================================================================== *)
(** ** Entity lookup and PDF pages *)
(* ===================================================================== *)

Section LookupFacts.
Import PyStr SHA256 StableId Models Segmenter Store Recall Pipeline.
Local Open Scope Z_scope.

Lemma list_entities_of_namespace : forall s namespace e,
  In e (list_entities s (Some namespace) None)
  <-> In e (entities s) /\ (truthy namespace = true -> ent_namespace e = namespace).
Proof.
  intros s namespace e. unfold list_entities. cbv zeta.
  rewrite sort_by_In. destruct namespace as [| c ns]; simpl.
  - split; [intros H; split; [exact H | discriminate] | tauto].
  - rewrite filter_In, str_eqb_eq. tauto.
Qed.

(** Property X20: without a type, [get_entity] returns a stored entity
    whose name or one of whose aliases is the name asked for, from the
    namespace when one is given, and it finds an entity whenever the
    namespace holds one; with a type it looks the name up exactly, so
    the entity it returns carries that namespace, type and name and
    aliases are not consulted. *)
Theorem get_entity_matches_name_or_alias :
  forall (s : store) (name namespace : pystr),
    (forall e,
        get_entity s name namespace None = Some e ->
        In e (entities s)
        /\ (truthy namespace = true -> ent_namespace e = namespace)
        /\ (ent_name e = name \/ In name (ent_aliases e)))
    /\ (forall e,
          In e (entities s) ->
          ent_namespace e = namespace ->
          ent_name e = name \/ In name (ent_aliases e) ->
          get_entity s name namespace None <> None)
    /\ (forall c ty e,
          get_entity s name namespace (Some (c :: ty)) = Some e ->
          In e (entities s)
          /\ ent_namespace e = namespace
          /\ ent_type e = c :: ty
          /\ ent_name e = name).
Proof.
  intros s name namespace. split; [| split].
  - intros e H. unfold get_entity in H. simpl in H.
    apply find_some in H as [Hin Hmatch].
    apply list_entities_of_namespace in Hin as [Hin Hns].
    split; [exact Hin |]. split; [exact Hns |].
    apply orb_true_iff in Hmatch as [Hname | Halias].
    + left. now apply str_eqb_eq.
    + right. apply existsb_exists in Halias as [a [Ha Heq]].
      apply str_eqb_eq in Heq. now subst a.
  - intros e Hin Hns Hmatch Hnone. unfold get_entity in Hnone.
    simpl in Hnone.
    assert (Hlisted : In e (list_entities s (Some namespace) None)).
    { apply list_entities_of_namespace. split; [exact Hin |].
      intros _. exact Hns. }
    pose proof (find_none _ _ Hnone e Hlisted) as Hfalse. simpl in Hfalse.
    apply orb_false_iff in Hfalse as [Hname Halias].
    destruct Hmatch as [Heq | Hin_alias].
    + apply str_eqb_neq in Hname. contradiction.
    + assert (Hex : existsb (str_eqb name) (ent_aliases e) = true).
      { apply existsb_exists. exists name. split; [exact Hin_alias |].
        apply str_eqb_refl. }
      rewrite Hex in Halias. discriminate.
  - intros c ty e H. unfold get_entity, get_entity_by_name in H. simpl in H.
    apply find_some in H as [Hin Hmatch].
    apply andb_true_iff in Hmatch as [Hmatch Hname].
    apply andb_true_iff in Hmatch as [Hns Hty].
    apply str_eqb_eq in Hns, Hty, Hname. repeat split; assumption.
Qed.

Lemma get_entity_matches_name_or_alias_witness :
  get_entity Samples.recall_store (lit "CCNA-1") (lit "lab") None <> None.
Proof.
  destruct (get_entity_matches_name_or_alias Samples.recall_store
              (lit "CCNA-1") (lit "lab")) as [_ [Hfound _]].
  apply (Hfound (mkEntity (lit "e1") (lit "lab") (lit "strain")
                          (lit "CCNA001") [lit "CCNA-1"] [] 2 2)).
  - simpl. left. reflexivity.
  - reflexivity.
  - right. simpl. left. reflexivity.
Defined.

Lemma StronglySorted_filter :
  forall (T : Type) (R : T -> T -> Prop) (p : T -> bool) (l : list T),
    StronglySorted R l -> StronglySorted R (filter p l).
Proof.
  intros T R p l H. induction H as [| a l Hs IH Hall]; simpl;
    [constructor |].
  destruct (p a); [| exact IH]. constructor; [exact IH |].
  apply Forall_forall. intros x Hx. apply filter_In in Hx as [Hx _].
  rewrite Forall_forall in Hall. now apply Hall.
Qed.

Lemma numbered_sorted : forall (texts : list pystr) (a : nat),
  StronglySorted (fun p q : page => fst p < fst q)
    (combine (List.map (fun k => Z.of_nat k) (seq a (List.length texts)))
             texts)
  /\ Forall (fun p : page => Z.of_nat a <= fst p)
       (combine (List.map (fun k => Z.of_nat k) (seq a (List.length texts)))
                texts).
Proof.
  induction texts as [| t texts IH]; intros a; simpl.
  - split; constructor.
  - destruct (IH (S a)) as [Hsorted Hlow]. split.
    + constructor; [exact Hsorted |].
      eapply Forall_impl; [| exact Hlow]. intros p Hp.
      cbv beta in Hp. cbn [fst]. lia.
    + constructor; [cbn [fst]; lia |].
      eapply Forall_impl; [| exact Hlow]. intros p Hp.
      cbv beta in Hp. lia.
Qed.

Lemma numbered_In : forall (texts : list pystr) (a : nat) (p : page),
  In p (combine (List.map (fun k => Z.of_nat k) (seq a (List.length texts)))
                texts)
  <-> exists k, nth_error texts k = Some (snd p)
                /\ fst p = Z.of_nat (a + k).
Proof.
  induction texts as [| t texts IH]; intros a p; simpl.
  - split; [intros [] |]. intros [[| k] [Hk _]]; discriminate.
  - rewrite IH. split.
    + intros [Hp | [k [Hk Hfst]]].
      * exists 0%nat. subst p. simpl. split; [reflexivity |].
        now rewrite Nat.add_0_r.
      * exists (S k). simpl. split; [exact Hk |]. rewrite Hfst. f_equal. lia.
    + intros [[| k] [Hk Hfst]]; simpl in Hk.
      * left. injection Hk as Hk. destruct p as [n t']. simpl in *.
        subst. now rewrite Nat.add_0_r.
      * right. exists k. split; [exact Hk |]. rewrite Hfst. f_equal. lia.
Qed.

(** Property X21: [PDFExtractor.extract] returns the pages in increasing
    page number; a page is returned exactly when it is the k-th page of
    the document (counting from 1) and its text has at least 50
    characters; a document that cannot be opened gives no pages. *)
Theorem pdf_extract_numbers_pages_from_one :
  forall (E : env) (content : bytes),
    StronglySorted (fun p q : page => fst p < fst q) (pdf_extract E content)
    /\ (forall texts,
          fitz_pages E content = Some texts ->
          forall p,
            In p (pdf_extract E content)
            <-> (exists k, nth_error texts k = Some (snd p)
                           /\ fst p = Z.of_nat k + 1)
                /\ (50 <= List.length (snd p))%nat)
    /\ (fitz_pages E content = None -> pdf_extract E content = []).
Proof.
  intros E content. unfold pdf_extract.
  destruct (fitz_pages E content) as [texts |].
  - split; [| split; [| discriminate]].
    + apply StronglySorted_filter. apply (numbered_sorted texts 1).
    + intros texts' Htexts p. injection Htexts as <-.
      rewrite filter_In, numbered_In, Nat.leb_le.
      split; intros [[k [Hk Hfst]] Hlen]; (split; [| exact Hlen]);
        exists k; (split; [exact Hk |]); rewrite Hfst; lia.
  - split; [constructor |]. split; [discriminate | reflexivity].
Qed.

Lemma pdf_extract_numbers_pages_from_one_witness :
  pdf_extract Samples.sample_env [] = [].
Proof.
  apply (pdf_extract_numbers_pages_from_one Samples.sample_env []).
  reflexivity.
Defined.

End LookupFacts.
